(* ===== verification/_CoqProject ===== *)
-Q . S2P
Prelude.v
PyStr.v
Parser.v
Prompt.v
Catalog.v
Coercion.v
Outcome.v
Prog.v
Agent.v
Registry.v
TaskManager.v
Liveness.v
