(* ===== verification/Prelude.v ===== *)
(** * A verification library for playwright-browser-automation

    The program (src/agent.py, src/main.py, src/prompt.py) runs a
    language-model driven browser agent behind an HTTP API.

    - [run_agent] (src/agent.py) connects to a Playwright MCP server,
      asks the model for one decision per iteration, parses it
      ([TOOL_CALL: name | arg | ...] or [FINAL_ANSWER: text]), coerces the
      arguments against the tool's JSON schema, calls the tool, classifies
      the reply and records a history line and an execution-log entry.
    - src/main.py keeps the dict [tasks] of task records.  Its handlers
      submit, poll, list, count and delete tasks.  Each submission
      schedules [run_automation_task], which awaits [run_agent] and writes
      its progress and result into the task's record through
      [log_callback].
    - src/prompt.py holds the two system-prompt constants; run_agent
      sends [SYSTEM_PROMPT_MANUAL] at the head of every prompt, and
      [SYSTEM_PROMPT] is imported by nothing.
    - [main()] of agent.py is a command line front end: it reads a goal,
      runs [run_agent] and prints the result or the error.

    Files, in dependency order as _CoqProject lists them:

    - [Prelude] (this file): the scope [agent_scope] with the Python
      notations [o ?? d] ([dict.get(k, d)]), [xs.[-n:]] ([xs[-n:]]) and
      [+++] (string concatenation); the tactic [inv];
      the hint databases [agent] and [agent_rw]; and the list and option
      lemmas the components share.
    - [PyStr]: the Python [str] methods the source calls ([strip],
      [lower], [startswith], [in], [index], [split], [join], [replace],
      slicing) on Stdlib [string]s.  Their laws include the [split]/[join]
      round trip, idempotence of [strip] and [in] as a substring test.
    - [Parser] (Module [Parser]): the decision taken on a reply
      ([parse_response], agent.py 127-234): the branch order, the first
      [TOOL_CALL:] line, the pipe split with the special case of
      [playwright_evaluate], and the [FINAL_ANSWER:] line.
    - [Prompt] (Module [Prompt]): both constants of prompt.py line by
      line, exactly as in the source.
    - [Catalog]: tools and input schemas as the MCP server sends them,
      [create_tool_descriptions] (agent.py 17-30) and the lookup of
      line 157.
    - [Coercion]: Python's [int()] and [float()] on strings (a parser of
      the literals they accept, with the [ValueError] messages, CPython's
      4300-digit limit of [int()] and the overflow of [float()] to
      [inf]), the
      boolean test of line 177 and the argument loop [build_args] of
      lines 164-179.
    - [Outcome]: the reply text (lines 184-192), the failure classifier
      (line 194), and the history line and execution-log fields of each
      outcome (lines 194-212).
    - [Prog]: the coroutine's requests as a free monad [prog] (log
      callback, MCP connect, model call, tool call, [asyncio.sleep],
      teardown), the combinators [bind] and [handle] (a [try]/[except])
      and the class [AgentEnv] of its collaborators.  It also
      has the interpreter [exec], which returns the trace of requests
      with their answers, the path predicates [paths] and [in_session],
      and [bounded], a bound on the number of requests on every path,
      with the lemmas that move them through [bind] and [exec].
    - [Agent]: [run_agent] as a [prog]: [iterate] is one pass of the
      [for] body, [loop] is the [for] loop, [finish] is the
      budget-exhausted return, and [run_agent_with] is the [try]/[finally]
      around the loop.  [run_agent_opt] covers [max_iterations=None];
      [cli_main] is the command line [main()] (lines 263-273).
    - [Registry]: the insertion-ordered dict [tasks] as an association
      list ([dict_set], [dict_get], [dict_del], [dict_modify_seq],
      [dict_values]), with its invariant (no duplicate key) and the
      lemmas relating it to stdpp's [gmap].
    - [TaskManager]: the handlers of main.py as functions of the server
      state, and a transition system [step].  In [step], background
      coroutines (scheduled, or suspended in a [prog] of [Agent])
      interleave with the handlers; a log request is answered by
      [log_callback] on the registry, and an await point by the world.
      It also has an executable scheduler [run_actions] whose runs are
      runs of [step].
    - [Liveness] (Module [Liveness]): infinite runs of [step], weak
      fairness for one coroutine, the well-founded order a coroutine
      descends at each of its steps (scheduled, then suspended in a
      [prog] that only shrinks, then gone; an id is scheduled once), and
      the count of steps a coroutine has left ([steps_left]).

    Theorems (claim numbers C1-C33 in order of importance):
    - The run of [run_agent] (C1-C7, C23), for every answer of the
      model, the MCP server and the log callback:
      - the session is released exactly once, as the last request;
      - the model is called at most [max_iter] times;
      - the bounds of the returned result;
      - tool calls stay within the listed catalog and schema;
      - exhaustion of the budget;
      - rate limiting;
      - a [timeout] reply is recorded as a failure and the loop goes on;
      - at most [8 * max_iter + 6] requests, a bound some run reaches
        ([run_agent_requests_reached]).
    - The server (C8, C11-C16, C27), in every reachable state or step:
      a task's status matches what its coroutine is doing; only a task's
      own coroutine writes its record; a deleted task never comes back;
      finished records are frozen; the bounds of completed records; the
      two causes of a failed record, with the budget as its iteration
      count when the agent gave up; logs and status are monotone; a task
      submitted with a null budget never completes.
    - Liveness and a step bound (C9, C10): under weak fairness a task's
      coroutine ends and its task is completed, failed or deleted; a
      coroutine of budget [n] takes at most [8 * n + 8] steps in any run.
    - The parser (C17-C22); the types of coerced arguments (C24) and the
      failures of coercion (C26); the command line (C25); the handlers
      (C28-C31); [int()] on decimal literals and its digit limit (C32);
      the size of history lines (C33).

    Modelling conventions.
    - Python strings are Stdlib [string]s (byte strings).  The model is
      exact on ASCII text, where code points and bytes coincide.
    - Python [int] is [Z] (or [nat] where only non-negative values
      occur).  [float()] is a parser of the literal it accepts, giving
      the literal's exact decimal value, or [inf] from [2^1024 - 2^970]
      on; the rounding of a finite value to a double is not modelled,
      and no theorem depends on the value of a float.
    - Log messages are kept as the data each f-string interpolates
      ([Prog.LogMsg], one constructor per call site), not as rendered
      text.
    - Timestamps ([datetime.now()]) and [uuid4()] values are inputs of
      the steps.  The ids [uuid4] returns are assumed distinct: they are
      recorded as ghost state [issued] and a submission requires a new
      one.
    - The model, the MCP server and the log callback are oracles.  In
      [Agent] they are an instance of [AgentEnv], and no property assumes
      anything of them beyond what its statement says.  In [TaskManager]
      the world answers each await point arbitrarily.
    - The interleavings of [step] include switches at log calls, where
      asyncio does not switch.  An invariant of [step] therefore holds of
      every schedule the event loop can produce.

    Bounds and fuel.  No fuel is needed.  [run_agent]'s loop is
    [for i in range(max_iter)], modelled by structural recursion on the
    remaining count; the [prog] tree it builds is a finite inductive
    object, so every run of [exec] terminates.  The API bounds
    [max_iterations] to 5-30 when it is an [int]; the theorems that
    mention 30 take that bound from the request's validation.  The
    request bound [8 * max_iter + 6] is counted from the code: four
    requests before the loop, at most eight per iteration (the
    iteration, model, reply, parse, execution and outcome logs with the
    tool call, and the exception log when the outcome log raises) and
    two at the budget-exhausted exit.  Fairness in [Liveness] is an
    assumption on the run, as an event loop that resumes ready
    coroutines and a world that answers every await provide.

    Not modelled:
    - the FastAPI/CORS plumbing, the OpenAPI metadata and [root()] of
      main.py (framework configuration and a constant document);
    - the stderr redirection of agent.py (no effect on results);
    - the [str()] of the result dict that [main()] prints, and the
      [asyncio.run] wrapper of agent.py 275-280 (it only swallows what
      [main()] already catches);
    - the pydantic response models [TaskResponse] and [TaskResult] as
      validators (the records of [TaskManager] are typed already);
    - the internals of the model client and the MCP server (external
      services). *)


From Stdlib Require Export String Ascii List Bool Lia ZArith.
Export ListNotations.

Declare Scope agent_scope.
Delimit Scope agent_scope with agent.

(** [d.get(k, default)] on an optional field. *)
Notation "o ?? d" := (match o with Some x => x | None => d end)
  (at level 40, left associativity) : agent_scope.

(** Python's [xs[-n:]]: the last [n] elements, or all of them. *)
Definition last_n {A} (n : nat) (xs : list A) : list A :=
  skipn (length xs - n) xs.

Notation "xs .[- n :]" := (last_n n xs) (at level 1, n at level 0, format "xs .[- n :]") : agent_scope.

(** String concatenation, kept apart from list [++]. *)
Infix "+++" := String.append (at level 60, right associativity) : agent_scope.

Open Scope agent_scope.

(** ** Tactics *)

Ltac inv H := inversion H; subst; clear H.

Create HintDb agent discriminated.
Create Rewrite HintDb agent_rw.

(** ** Lists *)

Lemma last_n_length {A} n (xs : list A) : length xs.[-n:] = Nat.min n (length xs).
Proof. unfold last_n. rewrite length_skipn. lia. Qed.

Lemma last_n_all {A} n (xs : list A) : length xs <= n -> xs.[-n:] = xs.
Proof. intros H. unfold last_n. replace (length xs - n) with 0 by lia. reflexivity. Qed.

(** The window over [xs ++ [x]] is the window over [xs] shifted by one. *)
Lemma last_n_snoc {A} n (xs : list A) x :
  (xs ++ [x]).[-(S n):] = xs.[-n:] ++ [x].
Proof.
  unfold last_n. rewrite length_app. simpl.
  destruct (Nat.le_gt_cases (length xs) n) as [H|H].
  - replace (length xs + 1 - S n) with 0 by lia.
    replace (length xs - n) with 0 by lia. reflexivity.
  - replace (length xs + 1 - S n) with (length xs - n) by lia.
    rewrite skipn_app. replace (length xs - n - length xs) with 0 by lia.
    reflexivity.
Qed.

Lemma last_n_suffix {A} n (xs : list A) : exists pre, xs = pre ++ xs.[-n:].
Proof. exists (firstn (length xs - n) xs). symmetry. apply firstn_skipn. Qed.

(** [List.find] returns the first element that passes the test. *)
Lemma find_first {A} (f : A -> bool) pre x post :
  forallb (fun y => negb (f y)) pre = true -> f x = true ->
  find f (pre ++ x :: post) = Some x.
Proof.
  induction pre as [|y pre IH]; simpl; intros Hpre Hx.
  - now rewrite Hx.
  - apply andb_prop in Hpre as [Hy Hpre].
    destruct (f y); [discriminate|]. auto.
Qed.

Lemma find_none_forallb {A} (f : A -> bool) xs :
  find f xs = None <-> forallb (fun y => negb (f y)) xs = true.
Proof.
  induction xs as [|y xs IH]; simpl; [tauto|].
  destruct (f y); simpl; [split; discriminate|exact IH].
Qed.

Lemma find_some_split {A} (f : A -> bool) xs x :
  find f xs = Some x ->
  exists pre post, xs = pre ++ x :: post /\ forallb (fun y => negb (f y)) pre = true /\ f x = true.
Proof.
  induction xs as [|y xs IH]; simpl; [discriminate|].
  destruct (f y) eqn:Hy.
  - intros [= <-]. exists [], xs. auto.
  - intros H. destruct (IH H) as (pre & post & -> & Hpre & Hx).
    exists (y :: pre), post. simpl. rewrite Hy, Hpre. auto.
Qed.

(** Updating the last element of a list, as [l[-1][k] = v] does. *)
Definition update_last {A} (f : A -> A) (xs : list A) : list A :=
  match rev xs with
  | [] => []
  | x :: r => rev r ++ [f x]
  end.

Lemma update_last_snoc {A} (f : A -> A) xs x : update_last f (xs ++ [x]) = xs ++ [f x].
Proof. unfold update_last. rewrite rev_app_distr. simpl. now rewrite rev_involutive. Qed.

Lemma update_last_length {A} (f : A -> A) xs : length (update_last f xs) = length xs.
Proof.
  induction xs as [|x xs _] using rev_ind; [reflexivity|].
  rewrite update_last_snoc, !length_app. reflexivity.
Qed.

#[export] Hint Rewrite @last_n_length @update_last_snoc @update_last_length : agent_rw.
