(* ===== verification/PyStr.v ===== *)
(** * Python [str] methods on Stdlib strings

    The string methods that src/agent.py calls, each written the way
    CPython computes it on ASCII text: [strip] (whitespace as
    [str.isspace]), [lower], [startswith], the [in] operator, [index],
    [split] with a one-character separator, [join], [replace] and the
    slices [s[:n]] and [s[n:]].  The laws proved here ([split]/[join]
    round trip, [strip] on already-trimmed text, substring search) are
    the ones the parser and the classifier rely on. *)

From S2P Require Import Prelude.

Module PyStr.

(** [str.isspace] on one ASCII character: CPython's whitespace set
    (HT, LF, VT, FF, CR, the separators 0x1C-0x1F and space). *)
Definition is_space (c : ascii) : bool :=
  let n := nat_of_ascii c in ((9 <=? n) && (n <=? 13)) || ((28 <=? n) && (n <=? 32)).

(** [s.lstrip()] *)
Fixpoint lstrip (s : string) : string :=
  match s with
  | EmptyString => EmptyString
  | String c r => if is_space c then lstrip r else s
  end.

(** [s.rstrip()]: a character is kept unless it and everything after it
    is whitespace. *)
Fixpoint rstrip (s : string) : string :=
  match s with
  | EmptyString => EmptyString
  | String c r =>
      let r' := rstrip r in
      if is_space c && String.eqb r' EmptyString then EmptyString else String c r'
  end.

(** [s.strip()] *)
Definition strip (s : string) : string := rstrip (lstrip s).

(** [str.lower] on one ASCII character. *)
Definition lower_char (c : ascii) : ascii :=
  let n := nat_of_ascii c in
  if (65 <=? n) && (n <=? 90) then ascii_of_nat (n + 32) else c.

Fixpoint lower (s : string) : string :=
  match s with
  | EmptyString => EmptyString
  | String c r => String (lower_char c) (lower r)
  end.

(** [s.startswith(p)] *)
Definition startswith (s p : string) : bool := String.prefix p s.

(** [s.find(sub)]: the first position where [sub] occurs. *)
Fixpoint find (sub s : string) : option nat :=
  if String.prefix sub s then Some 0
  else match s with
       | EmptyString => None
       | String _ r => option_map S (find sub r)
       end.

(** [sub in s] *)
Definition contains (sub s : string) : bool :=
  match find sub s with Some _ => true | None => false end.

(** The slices [s[:n]] and [s[n:]] for [n >= 0]. *)
Fixpoint take (n : nat) (s : string) : string :=
  match n, s with
  | 0, _ | _, EmptyString => EmptyString
  | S n', String c r => String c (take n' r)
  end.

Fixpoint drop (n : nat) (s : string) : string :=
  match n, s with
  | 0, _ => s
  | _, EmptyString => EmptyString
  | S n', String _ r => drop n' r
  end.

(** [s.split(sep)] for a one-character separator [sep]. *)
Fixpoint split (sep : ascii) (s : string) : list string :=
  match s with
  | EmptyString => [EmptyString]
  | String c r =>
      let parts := split sep r in
      if Ascii.eqb c sep then EmptyString :: parts
      else match parts with
           | [] => [String c EmptyString]
           | p :: ps => String c p :: ps
           end
  end.

(** [sep.join(xs)] *)
Fixpoint join (sep : string) (xs : list string) : string :=
  match xs with
  | [] => EmptyString
  | [x] => x
  | x :: xs => x +++ sep +++ join sep xs
  end.

(** [s.replace(old, new)]: left-to-right, non-overlapping.  [skip] counts
    the characters of an occurrence already replaced. *)
Fixpoint replace_from (old new : string) (skip : nat) (s : string) : string :=
  match s with
  | EmptyString => if String.eqb old EmptyString then new else EmptyString
  | String c r =>
      match skip with
      | S k => replace_from old new k r
      | 0 =>
          if String.prefix old s then
            if String.eqb old EmptyString then new +++ String c (replace_from old new 0 r)
            else new +++ replace_from old new (String.length old - 1) r
          else String c (replace_from old new 0 r)
      end
  end.

Definition replace (old new s : string) : string := replace_from old new 0 s.

Abbreviation newline := "010"%char.
Abbreviation pipe := "|"%char.

(** ** Laws of concatenation *)

Lemma append_assoc (a b c : string) : (a +++ b) +++ c = a +++ (b +++ c).
Proof. induction a; simpl; congruence. Qed.

Lemma append_nil_r (a : string) : a +++ EmptyString = a.
Proof. induction a; simpl; congruence. Qed.

Lemma length_append (a b : string) : String.length (a +++ b) = String.length a + String.length b.
Proof. induction a; simpl; auto. Qed.

Lemma prefix_append (p s : string) : String.prefix p (p +++ s) = true.
Proof. induction p as [|c p IH]; simpl; [now destruct s|]. destruct (ascii_dec c c); congruence. Qed.

Lemma prefix_spec (p s : string) : String.prefix p s = true <-> exists r, s = p +++ r.
Proof.
  split.
  - revert s; induction p as [|a p IH]; intros [|b s]; simpl; try discriminate; eauto.
    destruct (ascii_dec a b); [subst|discriminate]. intros H.
    destruct (IH s H) as [r ->]. eauto.
  - intros [r ->]. apply prefix_append.
Qed.

#[export] Hint Rewrite append_assoc append_nil_r length_append prefix_append : agent_rw.

(** ** Substring search *)

Lemma find_cons sub c s :
  find sub (String c s) = if String.prefix sub (String c s) then Some 0 else option_map S (find sub s).
Proof. reflexivity. Qed.

Lemma find_prefix sub s : String.prefix sub s = true -> find sub s = Some 0.
Proof.
  intros H. destruct s.
  - change (find sub EmptyString) with (if String.prefix sub EmptyString then Some 0 else None). now rewrite H.
  - now rewrite find_cons, H.
Qed.

Lemma find_spec sub s i :
  find sub s = Some i ->
  exists a b, s = a +++ sub +++ b /\ String.length a = i.
Proof.
  revert i; induction s as [|c s IH]; intros i.
  - simpl. destruct sub; [|discriminate]. intros [= <-]. exists EmptyString, EmptyString. auto.
  - rewrite find_cons. destruct (String.prefix sub (String c s)) eqn:E.
    + intros [= <-]. apply prefix_spec in E as [r E]. exists EmptyString, r. auto.
    + destruct (find sub s) as [j|]; simpl; [|discriminate]. intros [= <-].
      destruct (IH j eq_refl) as (a & b & -> & <-). exists (String c a), b. auto.
Qed.

(** [in] is the substring relation. *)
Lemma contains_spec sub s : contains sub s = true <-> exists a b, s = a +++ sub +++ b.
Proof.
  unfold contains. split.
  - destruct (find sub s) as [i|] eqn:E; [|discriminate].
    intros _. destruct (find_spec _ _ _ E) as (a & b & ? & _). eauto.
  - intros (a & b & ->). induction a as [|c a IH].
    + simpl. now rewrite find_prefix by apply prefix_append.
    + cbn [String.append]. rewrite find_cons. destruct (String.prefix sub _); [reflexivity|].
      destruct (find sub _); [reflexivity|discriminate].
Qed.

Lemma contains_here sub s : contains sub (sub +++ s) = true.
Proof. apply contains_spec. exists EmptyString, s. reflexivity. Qed.

Lemma contains_append_r sub a b : contains sub b = true -> contains sub (a +++ b) = true.
Proof.
  intros H. apply contains_spec in H as (x & y & ->).
  apply contains_spec. exists (a +++ x), y. now rewrite append_assoc.
Qed.

Lemma contains_append_l sub a b : contains sub a = true -> contains sub (a +++ b) = true.
Proof.
  intros H. apply contains_spec in H as (x & y & ->).
  apply contains_spec. exists x, (y +++ b). now rewrite !append_assoc.
Qed.

(** Pattern occurrences in a cons: either at the head or in the tail. *)
Lemma contains_cons sub c s :
  contains sub (String c s) = String.prefix sub (String c s) || contains sub s.
Proof. unfold contains. rewrite find_cons. destruct (String.prefix _ _); [reflexivity|]. now destruct (find sub s). Qed.

#[export] Hint Resolve contains_here contains_append_r contains_append_l : agent.

(** ** Split and join *)

Lemma split_not_nil sep s : split sep s <> [].
Proof.
  destruct s as [|c s]; simpl; [discriminate|].
  destruct (Ascii.eqb c sep); [discriminate|]. destruct (split sep s); discriminate.
Qed.

(** Splitting then joining with the same separator gives the string back. *)
Lemma join_split sep s : join (String sep EmptyString) (split sep s) = s.
Proof.
  induction s as [|c s IH]; simpl; [reflexivity|].
  destruct (Ascii.eqb_spec c sep) as [->|Hne].
  - destruct (split sep s) as [|p ps] eqn:E; [now apply split_not_nil in E|].
    simpl in *. now rewrite IH.
  - destruct (split sep s) as [|p ps] eqn:E; [now apply split_not_nil in E|].
    destruct ps; simpl in *; congruence.
Qed.

Lemma prefix_empty s : String.prefix EmptyString s = true.
Proof. now destruct s. Qed.

(** A one-character pattern occurs at the head exactly when it is the head. *)
Lemma prefix_char sep c s : String.prefix (String sep EmptyString) (String c s) = Ascii.eqb c sep.
Proof.
  simpl. destruct (ascii_dec sep c) as [Heq|Hne]; destruct (Ascii.eqb_spec c sep); try congruence.
  apply prefix_empty.
Qed.

Lemma split_no_sep sep s : contains (String sep EmptyString) s = false -> split sep s = [s].
Proof.
  induction s as [|c s IH]; intros H; [reflexivity|].
  rewrite contains_cons, prefix_char in H. apply orb_false_iff in H as [Hp Hs].
  cbn [split]. rewrite IH, Hp by exact Hs. reflexivity.
Qed.

Lemma split_append_sep sep a b :
  contains (String sep EmptyString) a = false ->
  split sep (a +++ String sep b) = a :: split sep b.
Proof.
  induction a as [|c a IH]; intros H.
  - cbn. now rewrite Ascii.eqb_refl.
  - rewrite contains_cons, prefix_char in H. apply orb_false_iff in H as [Hp Hs].
    cbn [split String.append]. rewrite IH, Hp by exact Hs. reflexivity.
Qed.

(** Joining pieces free of the separator, then splitting, gives the pieces back. *)
Lemma split_join sep xs :
  xs <> [] -> Forall (fun x => contains (String sep EmptyString) x = false) xs ->
  split sep (join (String sep EmptyString) xs) = xs.
Proof.
  induction xs as [|x xs IH]; intros Hne Hall; [congruence|].
  inv Hall. destruct xs as [|y xs].
  - simpl. now apply split_no_sep.
  - change (join _ (x :: y :: xs)) with (x +++ String sep EmptyString +++ join (String sep EmptyString) (y :: xs)).
    cbn [String.append]. rewrite split_append_sep by assumption. rewrite IH; [reflexivity|discriminate|assumption].
Qed.

(** ** Strip *)

Lemma lstrip_no_space c s : is_space c = false -> lstrip (String c s) = String c s.
Proof. simpl. now intros ->. Qed.

Lemma rstrip_nonempty_last s c :
  is_space c = false -> rstrip (s +++ String c EmptyString) = s +++ String c EmptyString.
Proof.
  intros Hc. induction s as [|d s IH]; simpl.
  - now rewrite Hc.
  - rewrite IH. destruct (is_space d); simpl; [|reflexivity].
    destruct s; reflexivity.
Qed.

(** A string that starts and ends with a non-space character is its own strip. *)
Lemma strip_trimmed c s d :
  is_space c = false -> is_space d = false ->
  strip (String c (s +++ String d EmptyString)) = String c (s +++ String d EmptyString).
Proof.
  intros Hc Hd. unfold strip. rewrite lstrip_no_space by exact Hc.
  exact (rstrip_nonempty_last (String c s) d Hd).
Qed.

Lemma strip_single c : is_space c = false -> strip (String c EmptyString) = String c EmptyString.
Proof. intros Hc. unfold strip. simpl. rewrite Hc. simpl. now rewrite Hc. Qed.

(** [lstrip] drops a prefix and [rstrip] a suffix. *)
Lemma lstrip_suffix s : exists a, s = a +++ lstrip s.
Proof.
  induction s as [|c r [a Ha]]; simpl; [now exists EmptyString|].
  destruct (is_space c); [exists (String c a); simpl; congruence|now exists EmptyString].
Qed.

Lemma rstrip_prefix s : exists b, s = rstrip s +++ b.
Proof.
  induction s as [|c r [b Hb]]; simpl; [now exists EmptyString|].
  destruct (is_space c && String.eqb (rstrip r) EmptyString) eqn:E.
  - exists (String c r). reflexivity.
  - exists b. simpl. congruence.
Qed.

Lemma contains_lstrip p s : contains p (lstrip s) = true -> contains p s = true.
Proof. destruct (lstrip_suffix s) as [a Ha]. intros H. rewrite Ha. auto with agent. Qed.

Lemma contains_rstrip p s : contains p (rstrip s) = true -> contains p s = true.
Proof. destruct (rstrip_prefix s) as [b Hb]. intros H. rewrite Hb. auto with agent. Qed.

Lemma contains_strip p s : contains p (strip s) = true -> contains p s = true.
Proof. intros H. now apply contains_lstrip, contains_rstrip. Qed.

Lemma lstrip_idem s : lstrip (lstrip s) = lstrip s.
Proof. induction s as [|c r IH]; simpl; auto. destruct (is_space c) eqn:E; simpl; now rewrite ?E. Qed.

Lemma rstrip_idem s : rstrip (rstrip s) = rstrip s.
Proof.
  induction s as [|c r IH]; simpl; auto.
  destruct (is_space c) eqn:Ec, (String.eqb_spec (rstrip r) EmptyString) as [Hr|Hr]; simpl;
    rewrite ?IH, ?Ec; try reflexivity.
  destruct (String.eqb_spec (rstrip r) EmptyString); simpl; congruence.
Qed.

Lemma lstrip_rstrip s : lstrip (rstrip s) = rstrip (lstrip s).
Proof.
  induction s as [|c r IH]; simpl; auto.
  destruct (is_space c) eqn:Ec; simpl.
  - destruct (String.eqb_spec (rstrip r) EmptyString) as [Hr|Hr]; simpl.
    + rewrite <- IH, Hr. reflexivity.
    + rewrite Ec. exact IH.
  - now rewrite Ec.
Qed.

Lemma strip_idem s : strip (strip s) = strip s.
Proof. unfold strip. now rewrite lstrip_rstrip, lstrip_idem, rstrip_idem. Qed.

Lemma strip_lstrip s : strip (lstrip s) = strip s.
Proof. unfold strip. now rewrite lstrip_idem. Qed.

Lemma strip_rstrip s : strip (rstrip s) = strip s.
Proof. unfold strip. now rewrite lstrip_rstrip, rstrip_idem. Qed.

(** Stripping stops at a non-space character. *)
Lemma lstrip_append_nonspace a c b :
  is_space c = false -> lstrip (a +++ String c b) = lstrip a +++ String c b.
Proof. intros Hc. induction a as [|d a IH]; simpl; [now rewrite Hc|]. now destruct (is_space d). Qed.

Lemma rstrip_append_nonspace a c b :
  is_space c = false -> rstrip (a +++ String c b) = a +++ String c (rstrip b).
Proof.
  intros Hc. induction a as [|d a IH]; simpl.
  - rewrite Hc. reflexivity.
  - rewrite IH. destruct (is_space d); [|reflexivity].
    destruct a; reflexivity.
Qed.

Lemma contains_strip_false p s : contains p s = false -> contains p (strip s) = false.
Proof. intros H. destruct (contains p (strip s)) eqn:E; [|reflexivity]. now rewrite (contains_strip _ _ E) in H. Qed.

Lemma contains_lstrip_false p s : contains p s = false -> contains p (lstrip s) = false.
Proof. intros H. destruct (contains p (lstrip s)) eqn:E; [|reflexivity]. now rewrite (contains_lstrip _ _ E) in H. Qed.

Lemma contains_rstrip_false p s : contains p s = false -> contains p (rstrip s) = false.
Proof. intros H. destruct (contains p (rstrip s)) eqn:E; [|reflexivity]. now rewrite (contains_rstrip _ _ E) in H. Qed.

(** A one-character pattern occurs in a concatenation iff it occurs in a part. *)
Lemma contains_char_append c a b :
  contains (String c EmptyString) (a +++ b) = contains (String c EmptyString) a || contains (String c EmptyString) b.
Proof.
  induction a as [|d a IH]; [reflexivity|].
  cbn [String.append]. rewrite !contains_cons, !prefix_char, IH. apply orb_assoc.
Qed.

Lemma contains_char_join c sep xs :
  contains (String c EmptyString) sep = false ->
  Forall (fun x => contains (String c EmptyString) x = false) xs ->
  contains (String c EmptyString) (join sep xs) = false.
Proof.
  intros Hsep. induction 1 as [|x xs Hx Hxs IH]; [reflexivity|].
  destruct xs as [|y ys]; [exact Hx|]. cbn [join] in *.
  now rewrite !contains_char_append, Hx, Hsep, IH.
Qed.

(** The first occurrence of a one-character pattern. *)
Lemma find_char_first c a b :
  contains (String c EmptyString) a = false -> find (String c EmptyString) (a +++ String c b) = Some (String.length a).
Proof.
  induction a as [|d a IH]; intros H.
  - apply find_prefix. cbn [String.append]. now rewrite prefix_char, Ascii.eqb_refl.
  - rewrite contains_cons, prefix_char in H. apply orb_false_iff in H as [Hd Ha].
    cbn [String.append]. rewrite find_cons, prefix_char, Hd, IH by exact Ha. reflexivity.
Qed.

Lemma drop_S_append a c b : drop (S (String.length a)) (a +++ String c b) = b.
Proof. induction a; simpl; auto. Qed.

(** A member of a list occurs in the list's join. *)
Lemma contains_join_member p sep xs x :
  In x xs -> contains p x = true -> contains p (join sep xs) = true.
Proof.
  induction xs as [|y xs IH]; [contradiction|]. intros [<-|Hin] Hx.
  - destruct xs; [exact Hx|]. cbn [join]. auto with agent.
  - destruct xs as [|z zs]; [contradiction|]. cbn [join] in *.
    apply contains_append_r, contains_append_r. auto.
Qed.

(** Every character passes a test. *)
Fixpoint all_chars (f : ascii -> bool) (s : string) : bool :=
  match s with
  | EmptyString => true
  | String c r => f c && all_chars f r
  end.

Lemma strip_all_nonspace s : all_chars (fun c => negb (is_space c)) s = true -> strip s = s.
Proof.
  unfold strip. intros H. assert (Hl : lstrip s = s).
  { destruct s as [|c r]; [reflexivity|]. simpl in *. apply andb_prop in H as [Hc _].
    apply negb_true_iff in Hc. now rewrite Hc. }
  rewrite Hl. clear Hl. induction s as [|c r IH]; [reflexivity|].
  simpl in *. apply andb_prop in H as [Hc Hr]. apply negb_true_iff in Hc.
  rewrite IH by exact Hr. now rewrite Hc.
Qed.

#[export] Hint Rewrite strip_idem strip_lstrip strip_rstrip lstrip_idem rstrip_idem : agent_rw.

(** ** Replace *)

Lemma replace_from_cons old new c s :
  replace_from old new 0 (String c s) =
  if String.prefix old (String c s) then
    if String.eqb old EmptyString then new +++ String c (replace_from old new 0 s)
    else new +++ replace_from old new (String.length old - 1) s
  else String c (replace_from old new 0 s).
Proof. reflexivity. Qed.

Lemma replace_from_absent old new s :
  old <> EmptyString -> contains old s = false -> replace_from old new 0 s = s.
Proof.
  intros Hold. induction s as [|c s IH]; intros H.
  - simpl. destruct (String.eqb_spec old EmptyString); congruence.
  - rewrite contains_cons in H. apply orb_false_iff in H as [Hp Hs].
    rewrite replace_from_cons, Hp. now rewrite IH.
Qed.

(** [s.replace(old, new)] leaves text without [old] unchanged. *)
Lemma replace_absent old new s :
  old <> EmptyString -> contains old s = false -> replace old new s = s.
Proof. apply replace_from_absent. Qed.

Lemma replace_from_skip old new k (p s : string) :
  String.length p = k -> replace_from old new k (p +++ s) = replace_from old new 0 s.
Proof. revert k; induction p; intros k <-; simpl; auto. Qed.

(** An occurrence at the front is replaced, and the scan resumes after it. *)
Lemma replace_prefix old new s :
  old <> EmptyString -> replace old new (old +++ s) = new +++ replace old new s.
Proof.
  intros Hold. unfold replace. destruct old as [|c o]; [congruence|].
  cbn [String.append]. rewrite replace_from_cons.
  change (String c (o +++ s)) with (String c o +++ s). rewrite prefix_append.
  cbn -[replace_from]. f_equal. rewrite Nat.sub_0_r. now apply replace_from_skip.
Qed.

(** ** Slices *)

Lemma take_append_length (a b : string) : take (String.length a) (a +++ b) = a.
Proof. induction a; simpl; congruence. Qed.

Lemma drop_append_length (a b : string) : drop (String.length a) (a +++ b) = b.
Proof. induction a; simpl; auto. Qed.

Lemma take_all n s : String.length s <= n -> take n s = s.
Proof. revert n; induction s; intros [|n]; simpl; intros H; auto; try lia. f_equal. apply IHs. lia. Qed.

Lemma length_take n s : String.length (take n s) = Nat.min n (String.length s).
Proof. revert n; induction s; intros [|n]; simpl; auto. Qed.

Lemma take_take m n s : m <= n -> take m (take n s) = take m s.
Proof.
  revert m n; induction s as [|c r IH]; intros [|m] [|n] H; simpl; auto; try lia.
  f_equal. apply IH. lia.
Qed.

Lemma length_take_le n s : String.length (take n s) <= n.
Proof. rewrite length_take. lia. Qed.

#[export] Hint Rewrite take_append_length drop_append_length : agent_rw.

End PyStr.
