(* ===== verification/Parser.v ===== *)
(** * Decision extraction from the model's reply

    agent.py lines 127-234 turn the stripped reply [text] into one of
    five outcomes: a tool invocation (first line whose stripped form
    starts with [TOOL_CALL:]), the [No valid TOOL_CALL] case (marker
    present but no line starts with it), a final answer (first line
    containing [FINAL_ANSWER:]), the [if ans_line:] fall-through, and
    [Invalid format].  The [TOOL_CALL:] test comes first: a reply that
    mentions it anywhere is never read as a final answer. *)

From S2P Require Import Prelude PyStr.
Import PyStr.

Module Parser.

Definition tool_marker : string := "TOOL_CALL:".
Definition answer_marker : string := "FINAL_ANSWER:".
Definition evaluate_tool : string := "playwright_evaluate".

(** The branches of agent.py 127-234 before any tool is looked up. *)
Inductive Decision :=
| ToolInvocation (tool_name : string) (params : list string)  (** lines 140-155 *)
| NoToolCallLine                                           (** lines 135-138 *)
| FinalAnswer (ans : string)                               (** lines 221-231 *)
| NoAnswerLine                                             (** [if ans_line:] false *)
| InvalidFormat.                                           (** lines 232-234 *)

(** Lines 140-153, from [parts_raw] on. *)
Definition parse_tool_parts (parts_raw : string) : Decision :=
  match find "|" parts_raw with
  | Some first_pipe =>
      let tool_name := strip (take first_pipe parts_raw) in
      let remaining := strip (drop (S first_pipe) parts_raw) in
      if String.eqb tool_name evaluate_tool then ToolInvocation tool_name [remaining]
      else ToolInvocation tool_name (map strip (split pipe remaining))
  | None => ToolInvocation parts_raw []
  end.

(** Lines 128-133: the first line whose stripped form starts with the marker. *)
Definition is_tool_line (line : string) : bool := startswith (strip line) tool_marker.

Definition tool_call_line (text : string) : option string :=
  option_map strip (List.find is_tool_line (split newline text)).

(** Lines 215-219: the first line that contains the answer marker. *)
Definition answer_line (text : string) : option string :=
  List.find (contains answer_marker) (split newline text).

(** Lines 127-234: the decision taken on the stripped reply [text]. *)
Definition parse_response (text : string) : Decision :=
  if contains tool_marker text then
    match tool_call_line text with
    | Some line =>
        if String.eqb line EmptyString then NoToolCallLine
        else parse_tool_parts (strip (replace tool_marker EmptyString line))
    | None => NoToolCallLine
    end
  else if contains answer_marker text then
    match answer_line text with
    | Some ans_line =>
        if String.eqb ans_line EmptyString then NoAnswerLine
        else FinalAnswer (strip (replace answer_marker EmptyString ans_line))
    | None => NoAnswerLine
    end
  else InvalidFormat.

(** ** Helper lemmas *)

(** A pattern free of the separator that occurs in a text occurs in one
    of its lines. *)
Lemma split_append_free sep a b :
  contains (String sep EmptyString) a = false ->
  exists h t, split sep b = h :: t /\ split sep (a +++ b) = (a +++ h) :: t.
Proof.
  induction a as [|c a IH]; intros H.
  - destruct (split sep b) as [|h t] eqn:E; [now apply split_not_nil in E|]. eauto.
  - rewrite contains_cons, prefix_char in H. apply orb_false_iff in H as [Hc Ha].
    destruct (IH Ha) as (h & t & Eb & Eab). exists h, t. split; [exact Eb|].
    cbn [split String.append]. now rewrite Eab, Hc.
Qed.

Lemma contains_line p sep text :
  p <> EmptyString -> contains (String sep EmptyString) p = false ->
  contains p text = true -> existsb (contains p) (split sep text) = true.
Proof.
  intros Hp Hsep. induction text as [|c r IH]; intros H.
  - destruct p; [congruence|]. discriminate.
  - rewrite contains_cons in H. apply orb_true_iff in H as [Hhead|Htail].
    + apply prefix_spec in Hhead as [rest Hrest].
      destruct p as [|c' p']; [congruence|]. injection Hrest as <- Hr. subst r.
      rewrite contains_cons, prefix_char in Hsep. apply orb_false_iff in Hsep as [Hc Hp'].
      destruct (split_append_free sep p' rest Hp') as (h & t & _ & E).
      cbn [split]. rewrite E, Hc. cbv beta iota. cbn [existsb].
      change (String c (p' +++ h)) with (String c p' +++ h). now rewrite contains_here.
    + specialize (IH Htail). cbn [split].
      destruct (Ascii.eqb c sep); [cbn [existsb]; now rewrite IH, orb_true_r|].
      destruct (split sep r) as [|h t] eqn:E; [now apply split_not_nil in E|].
      cbn [existsb] in *. apply orb_true_iff in IH as [Hh|Ht].
      * change (String c h) with (String c EmptyString +++ h).
        now rewrite contains_append_r.
      * now rewrite Ht, orb_true_r.
Qed.

Lemma find_contains_line p text :
  p <> EmptyString -> contains (String newline EmptyString) p = false ->
  contains p text = true -> exists l, List.find (contains p) (split newline text) = Some l.
Proof.
  intros Hp Hn Ht. pose proof (contains_line p newline text Hp Hn Ht) as Hex.
  destruct (List.find (contains p) _) as [l|] eqn:E; [eauto|].
  apply find_none_forallb in E. apply existsb_exists in Hex as (x & Hin & Hx).
  rewrite forallb_forall in E. specialize (E x Hin). now rewrite Hx in E.
Qed.

Lemma contains_empty_false p : p <> EmptyString -> contains p EmptyString = false.
Proof. intros H. destruct p; [congruence|reflexivity]. Qed.

Lemma parse_tool_parts_invocation p : exists n ps, parse_tool_parts p = ToolInvocation n ps.
Proof. unfold parse_tool_parts. destruct (find _ _); [destruct (String.eqb _ _)|]; eauto. Qed.

(** A line of [text.split('\n')] occurs in [text]. *)
Lemma contains_from_line p text pre l post :
  split newline text = pre ++ l :: post -> contains p l = true -> contains p text = true.
Proof.
  intros E Hl. rewrite <- (join_split newline text), E.
  apply (contains_join_member _ _ _ l); [apply in_or_app; simpl; auto|exact Hl].
Qed.

Lemma is_tool_line_contains l : is_tool_line l = true -> contains tool_marker l = true.
Proof.
  unfold is_tool_line, startswith. intros H. apply prefix_spec in H as [r Hr].
  apply contains_strip. rewrite Hr. apply contains_here.
Qed.

Lemma is_tool_line_nonempty l : is_tool_line l = true -> strip l <> EmptyString.
Proof.
  unfold is_tool_line, startswith. intros H. apply prefix_spec in H as [r ->]. discriminate.
Qed.

(** [rest.strip()] is unchanged by the pipe-free pieces' joining and splitting:
    stripping the whole remainder only trims the first and last piece. *)
Lemma rstrip_join_pieces args :
  args <> [] -> Forall (fun a => contains "|" a = false) args ->
  map strip (split pipe (rstrip (join "|" args))) = map strip args.
Proof.
  induction args as [|y ys IH]; intros Hne Hall; [congruence|]. inv Hall.
  destruct ys as [|y' ys].
  - cbn [join]. rewrite split_no_sep by now apply contains_rstrip_false.
    simpl. now rewrite strip_rstrip.
  - change (join "|" (y :: y' :: ys)) with (y +++ String pipe (join "|" (y' :: ys))).
    rewrite rstrip_append_nonspace by reflexivity.
    rewrite split_append_sep by assumption. cbn [map]. f_equal.
    apply IH; [discriminate|assumption].
Qed.

Lemma strip_join_pieces args :
  args <> [] -> Forall (fun a => contains "|" a = false) args ->
  map strip (split pipe (strip (join "|" args))) = map strip args.
Proof.
  intros Hne Hall. destruct args as [|x xs]; [congruence|]. inversion Hall; subst.
  destruct xs as [|x' xs].
  - cbn [join]. rewrite split_no_sep by now apply contains_strip_false.
    simpl. now rewrite strip_idem.
  - unfold strip at 2.
    change (join "|" (x :: x' :: xs)) with (x +++ String pipe (join "|" (x' :: xs))).
    rewrite lstrip_append_nonspace by reflexivity.
    change (lstrip x +++ String pipe (join "|" (x' :: xs))) with (join "|" (lstrip x :: x' :: xs)).
    rewrite rstrip_join_pieces; [|discriminate|constructor; [now apply contains_lstrip_false|assumption]].
    cbn [map]. now rewrite strip_lstrip.
Qed.

(** ** Properties of the decision extraction *)

(** C20: the argument of [playwright_evaluate] is everything after the first
    pipe, stripped, as ONE positional value, whatever pipes it contains. *)
Theorem parse_evaluate_keeps_pipes name rest :
  contains "|" name = false -> strip name = evaluate_tool ->
  parse_tool_parts (name +++ "|" +++ rest) = ToolInvocation evaluate_tool [strip rest].
Proof.
  intros Hpipe Hname. unfold parse_tool_parts. cbn [String.append].
  rewrite (find_char_first pipe name rest Hpipe), take_append_length, drop_S_append, Hname.
  reflexivity.
Qed.

(** C21: for every other tool the pipe-separated values come back one by
    one, each stripped: a [join] / split round trip. *)
Theorem parse_tool_args_roundtrip name args :
  contains "|" name = false -> strip name <> evaluate_tool -> args <> [] ->
  Forall (fun a => contains "|" a = false) args ->
  parse_tool_parts (name +++ "|" +++ join "|" args) = ToolInvocation (strip name) (map strip args).
Proof.
  intros Hpipe Hname Hne Hall. unfold parse_tool_parts. cbn [String.append].
  rewrite (find_char_first pipe name _ Hpipe), take_append_length, drop_S_append.
  destruct (String.eqb_spec (strip name) evaluate_tool); [contradiction|].
  now rewrite strip_join_pieces.
Qed.

(** C17: a reply with a [TOOL_CALL:] line is decided by the FIRST such
    line alone: whatever follows it, including further tool calls or a
    final answer, is ignored. *)
Theorem parse_response_first_tool_line text pre l post :
  split newline text = pre ++ l :: post ->
  forallb (fun x => negb (is_tool_line x)) pre = true -> is_tool_line l = true ->
  parse_response text = parse_tool_parts (strip (replace tool_marker EmptyString (strip l))).
Proof.
  intros E Hpre Hl. unfold parse_response.
  rewrite (contains_from_line _ _ _ _ _ E (is_tool_line_contains l Hl)).
  unfold tool_call_line. rewrite E, (find_first _ _ _ _ Hpre Hl). cbn [option_map].
  destruct (String.eqb_spec (strip l) EmptyString) as [H|_]; [|reflexivity].
  now apply is_tool_line_nonempty in Hl.
Qed.

(** C19: without any [TOOL_CALL:] in the reply, the first line carrying
    [FINAL_ANSWER:] gives the answer: the line with every marker removed,
    stripped, whatever noise lines surround it. *)
Theorem parse_response_final_answer text pre l post :
  contains tool_marker text = false ->
  split newline text = pre ++ l :: post ->
  forallb (fun x => negb (contains answer_marker x)) pre = true -> contains answer_marker l = true ->
  parse_response text = FinalAnswer (strip (replace answer_marker EmptyString l)).
Proof.
  intros Ht E Hpre Hl. unfold parse_response. rewrite Ht.
  rewrite (contains_from_line _ _ _ _ _ E Hl).
  unfold answer_line. rewrite E, (find_first _ _ _ _ Hpre Hl).
  destruct (String.eqb_spec l EmptyString) as [->|_]; [discriminate|reflexivity].
Qed.

(** C18: the [TOOL_CALL:] test is made first: a reply that contains the
    tool marker anywhere is never taken as a final answer, even when a
    [FINAL_ANSWER:] line precedes it. *)
Theorem parse_response_tool_precedence text ans :
  contains tool_marker text = true -> parse_response text <> FinalAnswer ans.
Proof.
  intros Ht. unfold parse_response. rewrite Ht.
  destruct (tool_call_line text) as [line|]; [|discriminate].
  destruct (String.eqb line EmptyString); [discriminate|].
  destruct (parse_tool_parts_invocation (strip (replace tool_marker EmptyString line))) as (n & ps & ->).
  discriminate.
Qed.

(** The [if ans_line:] test of line 221 never fails: when the reply
    contains [FINAL_ANSWER:], one of its lines does. *)
Lemma parse_response_answer_line_total text : parse_response text <> NoAnswerLine.
Proof.
  unfold parse_response.
  destruct (contains tool_marker text).
  - destruct (tool_call_line text) as [line|]; [|discriminate].
    destruct (String.eqb line EmptyString); [discriminate|].
    destruct (parse_tool_parts_invocation (strip (replace tool_marker EmptyString line))) as (n & ps & ->).
    discriminate.
  - destruct (contains answer_marker text) eqn:Ha; [|discriminate].
    destruct (find_contains_line answer_marker text ltac:(discriminate) eq_refl Ha) as [l Hl].
    unfold answer_line. rewrite Hl.
    destruct (String.eqb_spec l EmptyString) as [->|_]; [|discriminate].
    apply find_some in Hl as [_ Hl]. discriminate.
Qed.

(** C22: the [TOOL_CALL:] marker counts only at the start of a line: a
    reply that mentions it, but in which no line starts with it once
    stripped, is rejected without looking for a final answer. *)
Theorem parse_response_marker_mid_line text :
  contains tool_marker text = true -> forallb (fun l => negb (is_tool_line l)) (split newline text) = true ->
  parse_response text = NoToolCallLine.
Proof.
  intros Ht Hn. unfold parse_response. rewrite Ht. unfold tool_call_line.
  apply find_none_forallb in Hn. now rewrite Hn.
Qed.

(** ** Witnesses: the examples of the specification *)

Lemma parse_evaluate_keeps_pipes_witness :
  parse_tool_parts ("playwright_evaluate " +++ "|" +++ " document.querySelector('a')||document.querySelector('b')")
  = ToolInvocation "playwright_evaluate" ["document.querySelector('a')||document.querySelector('b')"%string].
Proof. apply parse_evaluate_keeps_pipes; reflexivity. Defined.

Lemma parse_tool_args_roundtrip_witness :
  parse_tool_parts ("playwright_fill " +++ "|" +++ join "|" [" #q "%string; " hello"%string])
  = ToolInvocation "playwright_fill" ["#q"%string; "hello"%string].
Proof.
  apply parse_tool_args_roundtrip; [reflexivity|discriminate|discriminate|].
  repeat constructor.
Defined.

Lemma parse_response_first_tool_line_witness :
  parse_response ("I will fill the box." +++ String newline
                  ("TOOL_CALL: playwright_fill | #q | hello" +++ String newline
                   "TOOL_CALL: playwright_click | #go"))
  = ToolInvocation "playwright_fill" ["#q"%string; "hello"%string].
Proof.
  rewrite (parse_response_first_tool_line _ ["I will fill the box."%string]
             "TOOL_CALL: playwright_fill | #q | hello" ["TOOL_CALL: playwright_click | #go"%string]);
    [vm_compute; reflexivity|vm_compute; reflexivity|reflexivity|reflexivity].
Defined.

Lemma parse_response_final_answer_witness :
  parse_response ("Price found." +++ String newline ("FINAL_ANSWER:  $1,299.00 " +++ String newline "done"))
  = FinalAnswer "$1,299.00".
Proof.
  rewrite (parse_response_final_answer _ ["Price found."%string] "FINAL_ANSWER:  $1,299.00 " ["done"%string]);
    [vm_compute; reflexivity|vm_compute; reflexivity|vm_compute; reflexivity|reflexivity|reflexivity].
Defined.

Lemma parse_response_tool_precedence_witness :
  parse_response ("FINAL_ANSWER: 42" +++ String newline "TOOL_CALL: playwright_click | #go")
  <> FinalAnswer "42".
Proof. apply parse_response_tool_precedence. reflexivity. Defined.

Lemma parse_response_marker_mid_line_witness :
  parse_response ("Step 1: TOOL_CALL: playwright_navigate | https://amazon.com" +++ String newline "FINAL_ANSWER: done")
  = NoToolCallLine.
Proof. apply parse_response_marker_mid_line; vm_compute; reflexivity. Defined.

End Parser.
