(* ===== verification/Catalog.v ===== *)
(** * The tool catalog

    The MCP server's tools as [session.list_tools()] returns them: a name
    and a JSON input schema whose ["properties"] object maps parameter
    names (in the object's order) to a parameter description with an
    optional ["type"], and whose ["required"] array names the mandatory
    ones.  [create_tool_descriptions] (agent.py 17-30) renders the
    digest reused in every later prompt; [find_tool] is the lookup of
    agent.py line 157. *)

From S2P Require Import Prelude PyStr.
Import PyStr.

Module Catalog.

(** A parameter description; [param_type] is its ["type"] entry when it
    is a JSON string (any other JSON value there takes the same branch of
    agent.py 172-179 as an unknown type name, so it is kept as a string
    that is none of the three type names). *)
Record ParamInfo := { param_type : option string }.

Record InputSchema := {
  properties : option (list (string * ParamInfo));
  required : option (list string)
}.

Record Tool := { name : string; inputSchema : InputSchema }.

(** [schema.get('properties', {})] and [schema.get('required', [])] *)
Definition schema_props (s : InputSchema) : list (string * ParamInfo) := properties s ?? [].
Definition schema_required (s : InputSchema) : list string := required s ?? [].

(** [p in props] for the dict [props] *)
Definition has_prop (props : list (string * ParamInfo)) (p : string) : bool :=
  existsb (fun kv => String.eqb (fst kv) p) props.

(** One line of the digest: [f"• {tool.name}({params_str})"] (lines 21-28). *)
Definition tool_line (t : Tool) : string :=
  let schema := inputSchema t in
  let req := schema_required schema in
  let props := schema_props schema in
  let req_params := filter (has_prop props) req in
  let params_str := match req_params with [] => "none"%string | _ => join ", " req_params end in
  "• " +++ name t +++ "(" +++ params_str +++ ")".

(** [create_tool_descriptions] (lines 17-30) *)
Definition create_tool_descriptions (tools : list Tool) : string :=
  join (String newline EmptyString) (map tool_line tools).

(** [next((t for t in tools if t.name == tool_name), None)] (line 157) *)
Definition find_tool (tools : list Tool) (tool_name : string) : option Tool :=
  List.find (fun t => String.eqb (name t) tool_name) tools.

(** ** Properties *)

(** The lookup returns the first tool of the catalog with that name. *)
Lemma find_tool_first tools tool_name t :
  find_tool tools tool_name = Some t ->
  name t = tool_name /\ exists pre post, tools = pre ++ t :: post /\ Forall (fun u => name u <> tool_name) pre.
Proof.
  unfold find_tool. intros H. apply find_some_split in H as (pre & post & -> & Hpre & Ht).
  split; [now apply String.eqb_eq|]. exists pre, post. split; [reflexivity|].
  apply Forall_forall. intros u Hu. rewrite forallb_forall in Hpre. specialize (Hpre u Hu).
  apply negb_true_iff, String.eqb_neq in Hpre. exact Hpre.
Qed.

Lemma find_tool_none tools tool_name :
  find_tool tools tool_name = None -> Forall (fun u => name u <> tool_name) tools.
Proof.
  unfold find_tool. intros H. apply find_none_forallb in H. apply Forall_forall. intros u Hu.
  rewrite forallb_forall in H. specialize (H u Hu). now apply negb_true_iff, String.eqb_neq in H.
Qed.

(** ** Witnesses *)

Section Witnesses.
Local Open Scope string_scope.

Definition fill_tool : Tool :=
  {| name := "playwright_fill";
     inputSchema := {| properties := Some [("selector", {| param_type := Some "string" |});
                                           ("value", {| param_type := Some "string" |})];
                       required := Some ["selector"; "value"] |} |}.

Definition navigate_tool : Tool :=
  {| name := "playwright_navigate";
     inputSchema := {| properties := Some [("url", {| param_type := Some "string" |});
                                           ("timeout", {| param_type := Some "number" |})];
                       required := Some ["url"; "browserType"] |} |}.

Definition close_tool : Tool :=
  {| name := "playwright_close"; inputSchema := {| properties := None; required := None |} |}.

End Witnesses.

End Catalog.
