(* ===== verification/Coercion.v ===== *)
(** * Argument coercion

    agent.py lines 164-179 build the [args] dict of a tool call: for the
    [idx]-th property of the tool's schema, if a positional value exists
    at [idx], it is converted by the property's ["type"]: [int(val)],
    [float(val)], [val.lower() in ['true', '1', 'yes']], or [str(val)].
    [int()] and [float()] are modelled as the parsers of the literals
    CPython accepts (whitespace-stripped, optional sign, digits with
    single underscores between them; for floats also a fraction, an
    exponent, [inf]/[infinity]/[nan] in any case), and their
    [ValueError] messages with Python's [repr] of the argument.
    [value_has_type] relates a schema's ["type"] to the Python type of
    the value sent, and [build_args_typed] shows every argument has it. *)

From S2P Require Import Prelude PyStr Catalog.
Import PyStr Catalog.

Module Coercion.

(** ** Digits *)

Definition is_digit (c : ascii) : bool := let n := nat_of_ascii c in (48 <=? n) && (n <=? 57).
Definition digit_val (c : ascii) : Z := Z.of_nat (nat_of_ascii c - 48).
Definition digit_char (d : nat) : ascii := ascii_of_nat (48 + d).

(** [%zd]: the decimal text of a count. *)
Fixpoint nat_str_go (fuel n : nat) (acc : string) : string :=
  match fuel with
  | 0 => acc
  | S f => let acc' := String (digit_char (n mod 10)) acc in
           if n <? 10 then acc' else nat_str_go f (n / 10) acc'
  end.

Definition nat_str (n : nat) : string := nat_str_go (S n) n EmptyString.

(** [digitpart ::= digit (["_"] digit)*], read greedily: the value, the
    number of digits and the rest of the text. *)
Fixpoint digitpart_go (acc : Z) (n : nat) (s : string) : Z * nat * string :=
  match s with
  | String c r =>
      if is_digit c then digitpart_go (acc * 10 + digit_val c) (S n) r
      else if Ascii.eqb c "_" then
        match r with
        | String d r' =>
            if is_digit d then digitpart_go (acc * 10 + digit_val d) (S n) r' else (acc, n, s)
        | EmptyString => (acc, n, s)
        end
      else (acc, n, s)
  | EmptyString => (acc, n, EmptyString)
  end.

Definition digitpart (s : string) : option (Z * nat * string) :=
  match s with
  | String c r => if is_digit c then Some (digitpart_go (digit_val c) 1 r) else None
  | EmptyString => None
  end.

(** An optional leading sign. *)
Definition take_sign (s : string) : bool * string :=
  match s with
  | String c r =>
      if Ascii.eqb c "-" then (true, r) else if Ascii.eqb c "+" then (false, r) else (false, s)
  | EmptyString => (false, s)
  end.

Definition apply_sign (neg : bool) (v : Z) : Z := if neg then Z.opp v else v.

(** [sys.get_int_max_str_digits()]: CPython (3.11, and 3.10.7 on)
    refuses to convert a decimal literal of more digits. *)
Definition int_max_str_digits : nat := 4300.

(** The rest of a digit run starts with an underscore that CPython's
    scan reports as a malformed literal before it counts the digits. *)
Definition bad_underscore (rest : string) : bool :=
  match rest with String c _ => Ascii.eqb c "_" | EmptyString => false end.

(** The digit count of [s] when [int(s)] raises the length-limit
    [ValueError] (longobject.c, [PyLong_FromString]): a well-formed digit
    run of more than [int_max_str_digits] digits, whatever follows it. *)
Definition int_limit_digits (s : string) : option nat :=
  let '(_, body) := take_sign (strip s) in
  match digitpart body with
  | Some (_, n, rest) => if (int_max_str_digits <? n) && negb (bad_underscore rest) then Some n else None
  | None => None
  end.

(** [int(s)] in base 10; [None] is the [ValueError]. *)
Definition py_int (s : string) : option Z :=
  let '(neg, body) := take_sign (strip s) in
  match digitpart body with
  | Some (v, n, EmptyString) => if n <=? int_max_str_digits then Some (apply_sign neg v) else None
  | _ => None
  end.

(** A float literal's value: [mant * 10 ^ exp10] with its sign, or an
    infinity, or a NaN. *)
Inductive FloatLit :=
| FFinite (neg : bool) (mant : Z) (exp10 : Z)
| FInf (neg : bool)
| FNaN.

(** [exponent ::= ("e" | "E") [sign] digitpart], or nothing. *)
Definition exponent (s : string) : option Z :=
  match s with
  | EmptyString => Some 0%Z
  | String e r =>
      if Ascii.eqb e "e" || Ascii.eqb e "E" then
        let '(neg, body) := take_sign r in
        match digitpart body with
        | Some (v, _, EmptyString) => Some (apply_sign neg v)
        | _ => None
        end
      else None
  end.

(** [number ::= [digitpart] "." digitpart | digitpart ["."]] followed by an
    exponent: mantissa and power of ten. *)
Definition finite_literal (body : string) : option (Z * Z) :=
  match digitpart body with
  | Some (ip, _, rest) =>
      match rest with
      | String c r =>
          if Ascii.eqb c "." then
            match digitpart r with
            | Some (fp, nf, rest2) =>
                option_map (fun e => (ip * 10 ^ Z.of_nat nf + fp, e - Z.of_nat nf)%Z) (exponent rest2)
            | None => option_map (fun e => (ip, e)) (exponent r)
            end
          else option_map (fun e => (ip, e)) (exponent rest)
      | EmptyString => Some (ip, 0%Z)
      end
  | None =>
      match body with
      | String c r =>
          if Ascii.eqb c "." then
            match digitpart r with
            | Some (fp, nf, rest2) => option_map (fun e => (fp, e - Z.of_nat nf)%Z) (exponent rest2)
            | None => None
            end
          else None
      | EmptyString => None
      end
  end.

(** A literal whose value is at least [2^1024 - 2^970], half-way between
    the largest double and [2^1024], rounds to infinity (round half to
    even; the largest double has an odd significand). *)
Definition float_overflows (mant e10 : Z) : bool :=
  let t := (2 ^ 1024 - 2 ^ 970)%Z in
  if (0 <=? e10)%Z then (t <=? mant * 10 ^ e10)%Z else (t * 10 ^ (- e10) <=? mant)%Z.

(** [float(s)]; [None] is the [ValueError].  A finite result is kept as
    its exact decimal value; its rounding to a double is not modelled. *)
Definition py_float (s : string) : option FloatLit :=
  let '(neg, body) := take_sign (strip s) in
  let lb := lower body in
  if String.eqb lb "inf" || String.eqb lb "infinity" then Some (FInf neg)
  else if String.eqb lb "nan" then Some FNaN
  else option_map (fun me => if float_overflows (fst me) (snd me) then FInf neg else FFinite neg (fst me) (snd me))
                  (finite_literal body).

(** ** [repr] of a string, for the exception messages *)

Definition dquote : ascii := ascii_of_nat 34.
Definition backslash : ascii := ascii_of_nat 92.

Definition hex_digit (n : nat) : ascii := ascii_of_nat (if n <? 10 then 48 + n else 87 + n).

(** One character inside the quotes [q]. *)
Definition repr_char (q c : ascii) : string :=
  let n := nat_of_ascii c in
  if Ascii.eqb c backslash || Ascii.eqb c q then String backslash (String c EmptyString)
  else if n =? 9 then String backslash "t"
  else if n =? 10 then String backslash "n"
  else if n =? 13 then String backslash "r"
  else if (n <? 32) || (n =? 127) then
    String backslash (String "x" (String (hex_digit (n / 16)) (String (hex_digit (n mod 16)) EmptyString)))
  else String c EmptyString.

Fixpoint repr_body (q : ascii) (s : string) : string :=
  match s with
  | EmptyString => EmptyString
  | String c r => repr_char q c +++ repr_body q r
  end.

(** [repr(s)]: single quotes unless the text has a single quote and no double one. *)
Definition py_repr (s : string) : string :=
  let q := if contains "'" s && negb (contains (String dquote EmptyString) s) then dquote else "'"%char in
  String q (repr_body q s +++ String q EmptyString).

(** ** Values and exceptions *)

Inductive PyValue :=
| VStr (s : string)
| VInt (z : Z)
| VFloat (f : FloatLit)
| VBool (b : bool).

(** The exceptions the [try] of agent.py lines 163-212 can catch. *)
Inductive PyExc :=
| ValueErrorInt (val : string)     (** [int(val)] *)
| ValueErrorFloat (val : string)   (** [float(val)] *)
| Raised (msg : string).           (** any exception of [session.call_tool], by its [str] *)

(** [str(e)]; CPython formats the [int] message with [%.200R], and the
    length-limit message with the digit count. *)
Definition exc_str (e : PyExc) : string :=
  match e with
  | ValueErrorInt v =>
      match int_limit_digits v with
      | Some n => "Exceeds the limit (4300 digits) for integer string conversion: value has " +++ nat_str n +++
                  " digits; use sys.set_int_max_str_digits() to increase the limit"
      | None => "invalid literal for int() with base 10: " +++ take 200 (py_repr v)
      end
  | ValueErrorFloat v => "could not convert string to float: " +++ py_repr v
  | Raised m => m
  end.

(** ** The conversion loop *)

Definition truthy_tokens : list string := ["true"; "1"; "yes"]%string.

(** Lines 170-179 for one value. *)
Definition coerce_value (ptype : string) (val : string) : PyExc + PyValue :=
  if String.eqb ptype "integer" then
    match py_int val with Some z => inr (VInt z) | None => inl (ValueErrorInt val) end
  else if String.eqb ptype "number" then
    match py_float val with Some f => inr (VFloat f) | None => inl (ValueErrorFloat val) end
  else if String.eqb ptype "boolean" then
    inr (VBool (existsb (String.eqb (lower val)) truthy_tokens))
  else inr (VStr val).

(** Lines 164-179: [for idx, (param_name, param_info) in
    enumerate(schema_props.items()): if idx < len(params): ...]; the
    first failing conversion raises out of the loop. *)
Fixpoint build_args (props : list (string * ParamInfo)) (params : list string)
  : PyExc + list (string * PyValue) :=
  match props, params with
  | (param_name, info) :: props', val :: params' =>
      match coerce_value (param_type info ?? "string"%string) val with
      | inl e => inl e
      | inr v =>
          match build_args props' params' with
          | inl e => inl e
          | inr rest => inr ((param_name, v) :: rest)
          end
      end
  | _, _ => inr []
  end.

(** The JSON-schema kind a converted value has: [int] for ["integer"],
    [float] for ["number"], [bool] for ["boolean"], [str] for any other
    declared type. *)
Definition value_has_type (ptype : string) (v : PyValue) : bool :=
  match v with
  | VInt _ => String.eqb ptype "integer"
  | VFloat _ => String.eqb ptype "number"
  | VBool _ => String.eqb ptype "boolean"
  | VStr _ => negb (existsb (String.eqb ptype) ["integer"; "number"; "boolean"]%string)
  end.

(** ** Properties *)

(** The literal of a sign and a list of decimal digits. *)
Definition digits_str (ds : list nat) : string := fold_right (fun d s => String (digit_char d) s) EmptyString ds.
Definition digits_value (ds : list nat) : Z := fold_left (fun a d => a * 10 + Z.of_nat d)%Z ds 0%Z.
Definition sign_str (neg : bool) : string := if neg then "-" else EmptyString.

Lemma digit_char_props d :
  d < 10 -> is_digit (digit_char d) = true /\ digit_val (digit_char d) = Z.of_nat d /\
            is_space (digit_char d) = false /\ Ascii.eqb (digit_char d) "-" = false /\
            Ascii.eqb (digit_char d) "+" = false.
Proof. intros H. do 10 (destruct d as [|d]; [repeat split; reflexivity|]). lia. Qed.

Lemma digitpart_go_digits acc n ds :
  Forall (fun d => d < 10) ds ->
  digitpart_go acc n (digits_str ds) = (fold_left (fun a d => a * 10 + Z.of_nat d)%Z ds acc, n + length ds, EmptyString).
Proof.
  revert acc n. induction ds as [|d ds IH]; intros acc n Hall.
  - simpl. now rewrite Nat.add_0_r.
  - inv Hall. destruct (digit_char_props d) as (Hd & Hv & _); [assumption|].
    cbn [digits_str fold_right digitpart_go fold_left length].
    rewrite Hd, Hv, IH by assumption. f_equal. f_equal. lia.
Qed.

Lemma digits_nonspace neg ds :
  Forall (fun d => d < 10) ds -> all_chars (fun c => negb (is_space c)) (sign_str neg +++ digits_str ds) = true.
Proof.
  intros Hall. assert (H : all_chars (fun c => negb (is_space c)) (digits_str ds) = true).
  { induction Hall as [|d ds Hd _ IH]; [reflexivity|]. cbn [digits_str fold_right all_chars].
    destruct (digit_char_props d Hd) as (_ & _ & Hs & _). fold (digits_str ds). now rewrite Hs, IH. }
  destruct neg; exact H.
Qed.

(** The sign and the digit run of a signed decimal literal. *)
Lemma digits_literal_parse neg ds :
  ds <> [] -> Forall (fun d => d < 10) ds ->
  take_sign (strip (sign_str neg +++ digits_str ds)) = (neg, digits_str ds) /\
  digitpart (digits_str ds) = Some (digits_value ds, length ds, EmptyString).
Proof.
  intros Hne Hall. rewrite strip_all_nonspace by now apply digits_nonspace.
  destruct ds as [|d ds]; [congruence|]. inversion Hall as [|? ? Hd Hds]; subst.
  destruct (digit_char_props d Hd) as (Hdig & Hv & _ & Hm & Hp). split.
  - destruct neg; [reflexivity|]. cbn [sign_str String.append digits_str fold_right take_sign].
    now rewrite Hm, Hp.
  - cbn [digits_str fold_right digitpart]. fold (digits_str ds).
    rewrite Hdig, Hv, digitpart_go_digits by assumption. reflexivity.
Qed.

(** C32: [int()] reads a signed decimal literal of at most 4300 digits as
    its value, and refuses a longer one with CPython's length-limit
    [ValueError], whose message gives the digit count. *)
Theorem py_int_literal neg ds :
  ds <> [] -> Forall (fun d => d < 10) ds ->
  (length ds <= 4300 -> py_int (sign_str neg +++ digits_str ds) = Some (apply_sign neg (digits_value ds))) /\
  (4300 < length ds ->
   py_int (sign_str neg +++ digits_str ds) = None /\
   exc_str (ValueErrorInt (sign_str neg +++ digits_str ds)) =
     ("Exceeds the limit (4300 digits) for integer string conversion: value has " +++ nat_str (length ds) +++
      " digits; use sys.set_int_max_str_digits() to increase the limit")%string).
Proof.
  intros Hne Hall. destruct (digits_literal_parse neg ds Hne Hall) as [Hs Hd].
  unfold py_int, exc_str, int_limit_digits. rewrite Hs, Hd. unfold int_max_str_digits. split.
  - intros Hle. apply Nat.leb_le in Hle. now rewrite Hle.
  - intros Hlt. replace (length ds <=? 4300) with false by (symmetry; apply Nat.leb_gt; lia).
    replace (4300 <? length ds) with true by (symmetry; apply Nat.ltb_lt; lia).
    split; reflexivity.
Qed.

(** C26: only an integer or a number parameter can fail to convert, with
    the [ValueError] of [int()] or [float()] on that very value. *)
Theorem coerce_value_error ptype val e :
  coerce_value ptype val = inl e ->
  (ptype = "integer"%string /\ py_int val = None /\ e = ValueErrorInt val) \/
  (ptype = "number"%string /\ py_float val = None /\ e = ValueErrorFloat val).
Proof.
  unfold coerce_value.
  destruct (String.eqb_spec ptype "integer") as [->|_].
  { destruct (py_int val); [discriminate|]. intros [= <-]. left; auto. }
  destruct (String.eqb_spec ptype "number") as [->|_].
  { destruct (py_float val); [discriminate|]. intros [= <-]. right; auto. }
  destruct (String.eqb ptype "boolean"); discriminate.
Qed.

(** On success the call's arguments are the first [len(params)]
    schema properties, in schema order: extra positional values are
    ignored and missing ones are omitted, never defaulted. *)
Lemma build_args_keys props params args :
  build_args props params = inr args -> map fst args = firstn (length params) (map fst props).
Proof.
  revert params args. induction props as [|[pn info] props IH]; intros params args.
  - destruct params; simpl; intros [= <-]; reflexivity.
  - destruct params as [|v params]; simpl; [intros [= <-]; reflexivity|].
    destruct (coerce_value _ v); [discriminate|].
    destruct (build_args props params) as [|rest] eqn:E; [discriminate|].
    intros [= <-]. simpl. f_equal. now apply IH.
Qed.

(** C24: the arguments sent to a tool are well typed: one per positional
    value while the schema has properties, each under the name of the
    property at its position and of the Python type its declared JSON
    kind asks for ([int], [float], [bool], else [str]). *)
Theorem build_args_typed props params args :
  build_args props params = inr args ->
  List.length args = Nat.min (List.length props) (List.length params) /\
  Forall2 (fun pi av => fst pi = fst av /\ value_has_type (param_type (snd pi) ?? "string"%string) (snd av) = true)
          (firstn (List.length args) props) args.
Proof.
  (* Each branch of [coerce_value] gives the kind its test names. *)
  assert (Htyped : forall ptype val v, coerce_value ptype val = inr v -> value_has_type ptype v = true).
  { intros ptype val v. unfold coerce_value, value_has_type.
    destruct (String.eqb_spec ptype "integer") as [->|Hi].
    { destruct (py_int val); intros [= <-]; reflexivity. }
    destruct (String.eqb_spec ptype "number") as [->|Hn].
    { destruct (py_float val); intros [= <-]; reflexivity. }
    destruct (String.eqb_spec ptype "boolean") as [->|Hb]; intros [= <-]; [reflexivity|].
    cbn [existsb]. apply String.eqb_neq in Hi, Hn, Hb. now rewrite Hi, Hn, Hb. }
  revert params args. induction props as [|[pn info] props IH]; intros params args.
  - destruct params; cbn; intros [= <-]; split; constructor.
  - destruct params as [|v params]; cbn; [intros [= <-]; split; constructor|].
    destruct (coerce_value _ v) as [e|x] eqn:Ec; [discriminate|].
    destruct (build_args props params) as [|rest] eqn:E; [discriminate|]. intros [= <-].
    destruct (IH _ _ E) as [Hl Hf]. cbn. split; [lia|].
    constructor; [split; [reflexivity|exact (Htyped _ _ _ Ec)]|exact Hf].
Qed.

(** The argument names are a prefix of the schema's property names. *)
Lemma build_args_prefix props params args :
  build_args props params = inr args -> exists rest, map fst props = map fst args ++ rest.
Proof.
  intros E. rewrite (build_args_keys _ _ _ E). exists (skipn (length params) (map fst props)).
  symmetry. apply firstn_skipn.
Qed.

(** A failed conversion comes from a property that has a positional value. *)
Lemma build_args_error props params e :
  build_args props params = inl e ->
  exists i pn info val, nth_error props i = Some (pn, info) /\ nth_error params i = Some val /\
                        coerce_value (param_type info ?? "string"%string) val = inl e.
Proof.
  revert params. induction props as [|[pn info] props IH]; intros params.
  - destruct params; discriminate.
  - destruct params as [|v params]; simpl; [discriminate|].
    destruct (coerce_value _ v) eqn:Ec; [intros [= <-]; exists 0, pn, info, v; auto|].
    destruct (build_args props params) eqn:E; [|discriminate]. intros [= <-].
    destruct (IH params E) as (i & pn' & info' & val & ? & ? & ?). exists (S i), pn', info', val. auto.
Qed.

(** ** Witnesses *)

Lemma py_int_literal_witness : py_int "-42" = Some (-42)%Z.
Proof. exact (proj1 (py_int_literal true [4; 2] ltac:(discriminate) ltac:(repeat constructor)) ltac:(cbn; lia)). Defined.

Lemma coerce_value_error_witness :
  coerce_value "integer" "abc" = inl (ValueErrorInt "abc") /\
  ("integer"%string = "integer"%string /\ py_int "abc" = None /\ ValueErrorInt "abc" = ValueErrorInt "abc" \/
   "integer"%string = "number"%string /\ py_float "abc" = None /\ ValueErrorInt "abc" = ValueErrorFloat "abc").
Proof. split; [reflexivity|]. apply coerce_value_error. reflexivity. Defined.

Lemma build_args_typed_witness :
  List.length [("url", VStr "https://a.example"); ("timeout", VFloat (FFinite false 5000 0))]%string =
    Nat.min (List.length (schema_props (inputSchema navigate_tool))) (List.length ["https://a.example"; "5000"; "extra"]%string) /\
  Forall2 (fun pi av => fst pi = fst av /\ value_has_type (param_type (snd pi) ?? "string"%string) (snd av) = true)
          (firstn 2 (schema_props (inputSchema navigate_tool)))
          [("url", VStr "https://a.example"); ("timeout", VFloat (FFinite false 5000 0))]%string.
Proof. apply build_args_typed. vm_compute. reflexivity. Defined.

End Coercion.
