(* ===== verification/Outcome.v ===== *)
(** * Tool outcomes: reply text, failure classifier, history entries

    agent.py lines 184-212: the text [rtext] of a tool's reply, the
    [display_text] prefix, the case-insensitive test for ["failed"],
    ["timeout"] or ["error"] that marks a reply as a failure, and the
    history line and execution-log fields each outcome records. *)

From S2P Require Import Prelude PyStr Parser Coercion.
Import PyStr Parser Coercion.

Module Outcome.

(** One element of a list [content]: [getattr(x, 'text', x)]. *)
Inductive ContentItem :=
| TextItem (text : string)     (** an item with a [text] attribute *)
| OtherItem (str : string).    (** any other item, by its [str] *)

Inductive ToolContent :=
| ContentList (items : list ContentItem)
| ContentValue (str : string).  (** a non-list [content], by its [str] *)

(** What [session.call_tool] returns: an object with or without [content]. *)
Inductive CallResult :=
| WithContent (c : ToolContent)
| WithoutContent (str : string).

Definition item_text (x : ContentItem) : string :=
  match x with TextItem t => t | OtherItem s => s end.

(** Lines 184-190 *)
Definition result_text (r : CallResult) : string :=
  match r with
  | WithContent (ContentList items) => join (String newline EmptyString) (map item_text items)
  | WithContent (ContentValue s) => s
  | WithoutContent s => s
  end.

(** Line 192: [rtext[:200] if len(rtext) > 200 else rtext] *)
Definition display_text (rtext : string) : string :=
  if 200 <? String.length rtext then take 200 rtext else rtext.

(** Line 194 *)
Definition is_failure_text (rtext : string) : bool :=
  contains "failed" (lower rtext) || contains "timeout" (lower rtext) || contains "error" (lower rtext).

(** Line 201: the script's value is echoed unless empty or null-like. *)
Definition echoes_value (tool_name rtext : string) : bool :=
  String.eqb tool_name evaluate_tool && negb (String.eqb rtext EmptyString) &&
  negb (existsb (String.eqb (strip rtext)) ["null"; "undefined"; ""]%string).

Definition dq : string := String Coercion.dquote EmptyString.

(** The history lines of lines 196, 202, 204, 210, 160 and 137/234. *)
Definition failed_entry (tool_name display : string) : string :=
  "!! " +++ tool_name +++ " FAILED: " +++ take 80 display.

Definition success_entry (tool_name rtext : string) : string :=
  if echoes_value tool_name rtext then tool_name +++ " returned: " +++ dq +++ take 100 (strip rtext) +++ dq
  else tool_name +++ " succeeded".

Definition error_entry (tool_name : string) (e : PyExc) : string :=
  tool_name +++ " error: " +++ take 50 (exc_str e).

Definition not_found_entry (tool_name : string) : string := "Tool '" +++ tool_name +++ "' not found".

Definition invalid_entry : string := "Invalid response format".

(** An entry of [execution_log]: the dict built at line 112 and completed
    at lines 197-198, 205-206 or 211-212. *)
Inductive ExecStatus := StSuccess | StFailed | StError.

Record ExecEntry := {
  iteration : nat;
  response : string;
  status : option ExecStatus;
  result : option string;
  error : option string
}.

Definition new_entry (i : nat) (text : string) : ExecEntry :=
  {| iteration := i; response := text; status := None; result := None; error := None |}.

Definition set_failed (display : string) (x : ExecEntry) : ExecEntry :=
  {| iteration := iteration x; response := response x; status := Some StFailed;
     result := Some (take 80 display); error := error x |}.

Definition set_success (display : string) (x : ExecEntry) : ExecEntry :=
  {| iteration := iteration x; response := response x; status := Some StSuccess;
     result := Some (take 200 display); error := error x |}.

Definition set_error (e : PyExc) (x : ExecEntry) : ExecEntry :=
  {| iteration := iteration x; response := response x; status := Some StError;
     result := result x; error := Some (take 100 (exc_str e)) |}.

(** ** Properties *)

Lemma display_text_take rtext : display_text rtext = take 200 rtext.
Proof.
  unfold display_text. destruct (Nat.ltb_spec 200 (String.length rtext)); [reflexivity|].
  symmetry. apply take_all. lia.
Qed.

Lemma lower_append a b : lower (a +++ b) = lower a +++ lower b.
Proof. induction a; simpl; congruence. Qed.

(** A reply containing [timeout] in any letter case is a failure, and
    its history line carries the distinct [!! ... FAILED:] prefix. *)
Lemma timeout_is_failure tool_name rtext pre post :
  lower rtext = pre +++ "timeout" +++ post ->
  is_failure_text rtext = true /\
  failed_entry tool_name (display_text rtext) = "!! " +++ tool_name +++ " FAILED: " +++ take 80 rtext.
Proof.
  intros H. split.
  - unfold is_failure_text. rewrite H. rewrite (proj2 (contains_spec "timeout" _)); [|eauto].
    now rewrite orb_true_r.
  - unfold failed_entry. rewrite display_text_take, take_take by lia. reflexivity.
Qed.

(** C33: every history line recorded for a tool outcome is bounded: at
    most 113 characters beyond the tool's name, whatever the reply's size
    (the reply is cut to 80 or 100 characters, an exception to 50). *)
Theorem history_entry_bounds tool_name rtext e :
  String.length (failed_entry tool_name (display_text rtext)) <= String.length tool_name + 92 /\
  String.length (success_entry tool_name rtext) <= String.length tool_name + 113 /\
  String.length (error_entry tool_name e) <= String.length tool_name + 58.
Proof.
  unfold failed_entry, success_entry, error_entry.
  pose proof (length_take_le 80 (display_text rtext)).
  pose proof (length_take_le 100 (strip rtext)). pose proof (length_take_le 50 (exc_str e)).
  repeat split; [|destruct (echoes_value tool_name rtext)|];
    rewrite ?length_append; cbn [String.length dq]; lia.
Qed.

End Outcome.
