(* ===== verification/Prog.v ===== *)
(** * The coroutine's requests: a free monad and its interpreter

    [run_agent] (src/agent.py) is an [async] coroutine whose effects
    happen at a few points only: the log callback, entering the MCP
    client contexts and listing the tools, the model call, the tool call,
    [asyncio.sleep], and the teardown of its [finally] block.  This file
    holds the payload types of those requests, the free monad [prog]
    with one constructor per request, its [bind] and the [try]/[except]
    combinator [handle], the interface [AgentEnv] that the
    coroutine's collaborators offer, the interpreter [exec] (which also
    records the trace of requests with their answers), and two families
    of path predicates ([paths], [in_session]) with the lemmas that
    transfer them through [bind] and [exec] ([exec_bind], [exec_handle]). *)

From S2P Require Import Prelude PyStr Catalog Coercion Outcome.
Import PyStr Catalog Coercion Outcome.

Module Prog.

Inductive Level := Info | Warning | Error.

(** The log calls of [run_agent], by line, with the values they format. *)
Inductive LogMsg :=
| LStarting                                      (** 45 *)
| LToolsReady (n : nat)                          (** 72 *)
| LGoal (query : string)                         (** 76 *)
| LIteration (i max_iter : nat)                  (** 82, [i+1] *)
| LResponse (text : string)                      (** 110 *)
| LRateLimit                                     (** 120 *)
| LModelError (err : string)                     (** 124, [err_str[:100]] *)
| LNoValidToolCall                               (** 136 *)
| LParsed (tool_name : string) (params : list string)   (** 155 *)
| LUnknownTool                                   (** 159 *)
| LExecuting (args : list (string * PyValue))    (** 181 *)
| LToolFailed (display : string)                 (** 195 *)
| LToolOutput (display : string)                 (** 200 *)
| LException (msg : string)                      (** 209 *)
| LDone (ans : string)                           (** 223 *)
| LInvalidFormat                                 (** 233 *)
| LMaxIterations.                                (** 236 *)

(** The two prompt shapes of lines 84-101. *)
Inductive Prompt :=
| FirstPrompt (query : string)
| NextPrompt (tools_desc query : string) (recent : list string).

(** The model call: [response.text], or the exception it raised, by its [str]
    (a reply whose [text] is [None] raises [AttributeError] at [.strip()]). *)
Inductive GenResult :=
| GenText (text : string)
| GenError (err : string).

(** ** The request monad *)

Inductive prog (A : Type) : Type :=
| Ret (a : A)
| Throw (e : string)
| Log (lvl : Level) (msg : LogMsg) (k : option string -> prog A)
| Connect (k : string + list Tool -> prog A)
| Generate (prompt : Prompt) (k : GenResult -> prog A)
| CallTool (tool_name : string) (args : list (string * PyValue)) (k : PyExc + CallResult -> prog A)
| Sleep (secs : nat) (k : prog A)
| Disconnect (k : prog A).

Arguments Ret {A}. Arguments Throw {A}. Arguments Log {A}. Arguments Connect {A}.
Arguments Generate {A}. Arguments CallTool {A}. Arguments Sleep {A}. Arguments Disconnect {A}.

Fixpoint bind {A B} (p : prog A) (f : A -> prog B) : prog B :=
  match p with
  | Ret a => f a
  | Throw e => Throw e
  | Log l m k => Log l m (fun r => bind (k r) f)
  | Connect k => Connect (fun r => bind (k r) f)
  | Generate q k => Generate q (fun r => bind (k r) f)
  | CallTool n a k => CallTool n a (fun r => bind (k r) f)
  | Sleep s k => Sleep s (bind k f)
  | Disconnect k => Disconnect (bind k f)
  end.

(** [try: a = p; ok(a)] [except Exception as e: err(str(e))]: the
    handler [err] receives every exception [p] raises; [ok] runs outside
    the [try] only in the sense that its own exceptions propagate. *)
Fixpoint handle {A B} (p : prog A) (ok : A -> prog B) (err : string -> prog B) : prog B :=
  match p with
  | Ret a => ok a
  | Throw e => err e
  | Log l m k => Log l m (fun r => handle (k r) ok err)
  | Connect k => Connect (fun r => handle (k r) ok err)
  | Generate q k => Generate q (fun r => handle (k r) ok err)
  | CallTool n a k => CallTool n a (fun r => handle (k r) ok err)
  | Sleep s k => Sleep s (handle k ok err)
  | Disconnect k => Disconnect (handle k ok err)
  end.

Declare Scope prog_scope.
Delimit Scope prog_scope with prog.
Notation "x <- p ;; k" := (bind p (fun x => k))
  (at level 100, p at level 99, k at level 200, right associativity) : prog_scope.


(** [log(message, level)]: the callback may raise; [h] is the handler the
    enclosing [try] gives the exception's [str]. *)
Definition log {A} (lvl : Level) (msg : LogMsg) (k : prog A) (h : string -> prog A) : prog A :=
  Log lvl msg (fun r => match r with None => k | Some e => h e end).

(** An exception leaving the inner [try]: the [finally] tears down, then
    the exception propagates. *)
Definition fail_out {A} (e : string) : prog A := Disconnect (Throw e).

(** ** Running a program *)

(** The coroutine's collaborators. *)
Class AgentEnv (W : Type) := {
  env_log : W -> Level -> LogMsg -> W * option string;
  env_connect : W -> W * (string + list Tool);
  env_generate : W -> Prompt -> W * GenResult;
  env_call : W -> string -> list (string * PyValue) -> W * (PyExc + CallResult);
  env_sleep : W -> nat -> W;
  env_disconnect : W -> W
}.

(** A request with its answer. *)
Inductive Event :=
| EvLog (lvl : Level) (msg : LogMsg) (raised : option string)
| EvConnect (r : string + list Tool)
| EvGenerate (prompt : Prompt) (r : GenResult)
| EvCall (tool_name : string) (args : list (string * PyValue)) (r : PyExc + CallResult)
| EvSleep (secs : nat)
| EvDisconnect.

Inductive Exit (A : Type) := Normal (a : A) | Exception (e : string).
Arguments Normal {A}. Arguments Exception {A}.

Section Exec.

Context {W : Type} `{AgentEnv W}.

Fixpoint exec {A} (w : W) (p : prog A) : W * list Event * Exit A :=
  match p with
  | Ret a => (w, [], Normal a)
  | Throw e => (w, [], Exception e)
  | Log l m k =>
      let '(w1, r) := env_log w l m in
      let '(w2, tr, o) := exec w1 (k r) in (w2, EvLog l m r :: tr, o)
  | Connect k =>
      let '(w1, r) := env_connect w in
      let '(w2, tr, o) := exec w1 (k r) in (w2, EvConnect r :: tr, o)
  | Generate q k =>
      let '(w1, r) := env_generate w q in
      let '(w2, tr, o) := exec w1 (k r) in (w2, EvGenerate q r :: tr, o)
  | CallTool n a k =>
      let '(w1, r) := env_call w n a in
      let '(w2, tr, o) := exec w1 (k r) in (w2, EvCall n a r :: tr, o)
  | Sleep s k =>
      let '(w2, tr, o) := exec (env_sleep w s) k in (w2, EvSleep s :: tr, o)
  | Disconnect k =>
      let '(w2, tr, o) := exec (env_disconnect w) k in (w2, EvDisconnect :: tr, o)
  end.

End Exec.

(** ** Running a bound program *)

Section ExecLemmas.

Context {W : Type} `{AgentEnv W}.

(** [exec] of [bind]: the first program's trace, then the second's. *)
Lemma exec_bind {A B} (p : prog A) (f : A -> prog B) w :
  exec w (bind p f) =
  match exec w p with
  | (w1, tr1, Normal a) => let '(w2, tr2, o) := exec w1 (f a) in (w2, tr1 ++ tr2, o)
  | (w1, tr1, Exception e) => (w1, tr1, Exception e)
  end.
Proof.
  revert w. induction p as [a|e|l m k IH|k IH|q k IH|n a k IH|sec k IH|k IH]; intros w; simpl.
  - destruct (exec w (f a)) as [[w3 tr3] o3]. reflexivity.
  - reflexivity.
  - destruct (env_log w l m) as [w1 r]. rewrite IH.
    destruct (exec w1 (k r)) as [[w2 tr] [a'|e]]; [|reflexivity].
    destruct (exec w2 (f a')) as [[w3 tr3] o3]. reflexivity.
  - destruct (env_connect w) as [w1 r]. rewrite IH.
    destruct (exec w1 (k r)) as [[w2 tr] [a'|e]]; [|reflexivity].
    destruct (exec w2 (f a')) as [[w3 tr3] o3]. reflexivity.
  - destruct (env_generate w q) as [w1 r]. rewrite IH.
    destruct (exec w1 (k r)) as [[w2 tr] [a'|e]]; [|reflexivity].
    destruct (exec w2 (f a')) as [[w3 tr3] o3]. reflexivity.
  - destruct (env_call w n a) as [w1 r]. rewrite IH.
    destruct (exec w1 (k r)) as [[w2 tr] [a'|e]]; [|reflexivity].
    destruct (exec w2 (f a')) as [[w3 tr3] o3]. reflexivity.
  - rewrite IH. destruct (exec _ k) as [[w2 tr] [a'|e]]; [|reflexivity].
    destruct (exec w2 (f a')) as [[w3 tr3] o3]. reflexivity.
  - rewrite IH. destruct (exec _ k) as [[w2 tr] [a'|e]]; [|reflexivity].
    destruct (exec w2 (f a')) as [[w3 tr3] o3]. reflexivity.
Qed.

Ltac exec_cont IH ok err :=
  rewrite IH; match goal with |- context [exec ?w1 (?k ?r)] =>
    destruct (exec w1 (k r)) as [[?w2 ?tr] [?a|?e]];
    [destruct (exec _ (ok _)) as [[? ?] ?]|destruct (exec _ (err _)) as [[? ?] ?]]; reflexivity end.

(** [exec] of [handle]: the protected program's trace, then the trace of
    [ok] on its value or of [err] on its exception. *)
Lemma exec_handle {A B} (p : prog A) (ok : A -> prog B) (err : string -> prog B) w :
  exec w (handle p ok err) =
  match exec w p with
  | (w1, tr1, Normal a) => let '(w2, tr2, o) := exec w1 (ok a) in (w2, tr1 ++ tr2, o)
  | (w1, tr1, Exception e) => let '(w2, tr2, o) := exec w1 (err e) in (w2, tr1 ++ tr2, o)
  end.
Proof.
  revert w. induction p as [a|e|l m k IH|k IH|q k IH|n a k IH|sec k IH|k IH]; intros w; simpl.
  - destruct (exec w (ok a)) as [[w3 tr3] o3]. reflexivity.
  - destruct (exec w (err e)) as [[w3 tr3] o3]. reflexivity.
  - destruct (env_log w l m) as [w1 r]. exec_cont IH ok err.
  - destruct (env_connect w) as [w1 r]. exec_cont IH ok err.
  - destruct (env_generate w q) as [w1 r]. exec_cont IH ok err.
  - destruct (env_call w n a) as [w1 r]. exec_cont IH ok err.
  - rewrite IH. destruct (exec _ k) as [[w2 tr] [a'|e]];
      [destruct (exec _ (ok _)) as [[? ?] ?]|destruct (exec _ (err _)) as [[? ?] ?]]; reflexivity.
  - rewrite IH. destruct (exec _ k) as [[w2 tr] [a'|e]];
      [destruct (exec _ (ok _)) as [[? ?] ?]|destruct (exec _ (err _)) as [[? ?] ?]]; reflexivity.
Qed.

End ExecLemmas.

(** ** Path predicates *)

Section Paths.

Context {A : Type}.

(** [paths ok P Q X p]: along every run of [p] whose answers satisfy
    [ok], every request with its answer satisfies [P], every returned
    value satisfies [Q] and every escaping exception satisfies [X]. *)
Inductive paths (ok P : Event -> Prop) (Q : A -> Prop) (X : string -> Prop) : prog A -> Prop :=
| pa_ret a : Q a -> paths ok P Q X (Ret a)
| pa_throw e : X e -> paths ok P Q X (Throw e)
| pa_log l m k :
    (forall r, ok (EvLog l m r) -> P (EvLog l m r)) ->
    (forall r, ok (EvLog l m r) -> paths ok P Q X (k r)) -> paths ok P Q X (Log l m k)
| pa_connect k :
    (forall r, ok (EvConnect r) -> P (EvConnect r)) ->
    (forall r, ok (EvConnect r) -> paths ok P Q X (k r)) -> paths ok P Q X (Connect k)
| pa_gen q k :
    (forall r, ok (EvGenerate q r) -> P (EvGenerate q r)) ->
    (forall r, ok (EvGenerate q r) -> paths ok P Q X (k r)) -> paths ok P Q X (Generate q k)
| pa_call n a k :
    (forall r, ok (EvCall n a r) -> P (EvCall n a r)) ->
    (forall r, ok (EvCall n a r) -> paths ok P Q X (k r)) -> paths ok P Q X (CallTool n a k)
| pa_sleep s k : P (EvSleep s) -> paths ok P Q X k -> paths ok P Q X (Sleep s k)
| pa_disc k : P EvDisconnect -> paths ok P Q X k -> paths ok P Q X (Disconnect k).

(** The values a program returns after its teardown. *)
Inductive closed (Q : A -> Prop) : prog A -> Prop :=
| cl_ret a : Q a -> closed Q (Ret a)
| cl_throw e : closed Q (Throw e).

(** [in_session Qo Qc p]: run with the MCP session open, [p] never
    connects again and never lets an exception escape without the
    teardown; it either returns a value of [Qo] with the session still
    open, or tears down exactly once and then only returns a value of
    [Qc] or raises. *)
Inductive in_session (Qo Qc : A -> Prop) : prog A -> Prop :=
| se_ret a : Qo a -> in_session Qo Qc (Ret a)
| se_log l m k : (forall r, in_session Qo Qc (k r)) -> in_session Qo Qc (Log l m k)
| se_gen q k : (forall r, in_session Qo Qc (k r)) -> in_session Qo Qc (Generate q k)
| se_call n a k : (forall r, in_session Qo Qc (k r)) -> in_session Qo Qc (CallTool n a k)
| se_sleep s k : in_session Qo Qc k -> in_session Qo Qc (Sleep s k)
| se_close k : closed Qc k -> in_session Qo Qc (Disconnect k).

End Paths.

Definition session_free (ev : Event) : Prop :=
  match ev with EvConnect _ | EvDisconnect => False | _ => True end.

Section PathLemmas.

Context {W : Type} `{AgentEnv W}.

(** The environment only gives answers allowed by [ok]. *)
Definition answers_ok (ok : Event -> Prop) : Prop :=
  (forall w l m, ok (EvLog l m (snd (env_log w l m)))) /\
  (forall w, ok (EvConnect (snd (env_connect w)))) /\
  (forall w q, ok (EvGenerate q (snd (env_generate w q)))) /\
  (forall w n a, ok (EvCall n a (snd (env_call w n a)))).

Lemma answers_ok_any : answers_ok (fun _ => True).
Proof. repeat split. Qed.

Lemma paths_exec {A} ok P Q X (p : prog A) w w' tr o :
  answers_ok ok -> paths ok P Q X p -> exec w p = (w', tr, o) ->
  Forall P tr /\ (forall a, o = Normal a -> Q a) /\ (forall e, o = Exception e -> X e).
Proof.
  intros (Hl & Hc & Hg & Hcall) Hp. revert w w' tr o.
  induction Hp as [a Ha|e He|l m k HP _ IH|k HP _ IH|q k HP _ IH|n a k HP _ IH|s k HP _ IH|k HP _ IH];
    intros w w' tr o E; simpl in E.
  - inversion E; subst. split; [constructor|split; [now intros a' [= <-]|discriminate]].
  - inversion E; subst. split; [constructor|split; [discriminate|now intros e' [= <-]]].
  - specialize (Hl w l m). destruct (env_log w l m) as [w1 r]. destruct (exec w1 (k r)) as [[w2 tr2] o2] eqn:E2.
    inversion E; subst. destruct (IH r Hl _ _ _ _ E2) as (? & ? & ?). split; [constructor|]; auto.
  - specialize (Hc w). destruct (env_connect w) as [w1 r]. destruct (exec w1 (k r)) as [[w2 tr2] o2] eqn:E2.
    inversion E; subst. destruct (IH r Hc _ _ _ _ E2) as (? & ? & ?). split; [constructor|]; auto.
  - specialize (Hg w q). destruct (env_generate w q) as [w1 r]. destruct (exec w1 (k r)) as [[w2 tr2] o2] eqn:E2.
    inversion E; subst. destruct (IH r Hg _ _ _ _ E2) as (? & ? & ?). split; [constructor|]; auto.
  - specialize (Hcall w n a). destruct (env_call w n a) as [w1 r]. destruct (exec w1 (k r)) as [[w2 tr2] o2] eqn:E2.
    inversion E; subst. destruct (IH r Hcall _ _ _ _ E2) as (? & ? & ?). split; [constructor|]; auto.
  - destruct (exec _ k) as [[w2 tr2] o2] eqn:E2.
    inversion E; subst. destruct (IH _ _ _ _ E2) as (? & ? & ?). split; [constructor|]; auto.
  - destruct (exec _ k) as [[w2 tr2] o2] eqn:E2.
    inversion E; subst. destruct (IH _ _ _ _ E2) as (? & ? & ?). split; [constructor|]; auto.
Qed.

Lemma session_exec {A} Qo Qc (p : prog A) w w' tr o :
  in_session Qo Qc p -> exec w p = (w', tr, o) ->
  (Forall session_free tr /\ exists a, o = Normal a /\ Qo a) \/
  (exists mid, tr = mid ++ [EvDisconnect] /\ Forall session_free mid /\ forall a, o = Normal a -> Qc a).
Proof.
  intros Hp. revert w w' tr o.
  induction Hp as [a Ha|l m k _ IH|q k _ IH|n a k _ IH|s k _ IH|k Hk]; intros w w' tr o E; simpl in E.
  - inversion E; subst. left. split; [constructor|eauto].
  - destruct (env_log w l m) as [w1 r]. destruct (exec w1 (k r)) as [[w2 tr2] o2] eqn:E2. inversion E; subst.
    destruct (IH r _ _ _ _ E2) as [[Hf Ho]|(mid & -> & Hf & Ho)];
      [left; split; [constructor; [exact I|]|]|right; exists (EvLog l m r :: mid); split; [|split; [constructor; [exact I|]|]]]; auto.
  - destruct (env_generate w q) as [w1 r]. destruct (exec w1 (k r)) as [[w2 tr2] o2] eqn:E2. inversion E; subst.
    destruct (IH r _ _ _ _ E2) as [[Hf Ho]|(mid & -> & Hf & Ho)];
      [left; split; [constructor; [exact I|]|]|right; exists (EvGenerate q r :: mid); split; [|split; [constructor; [exact I|]|]]]; auto.
  - destruct (env_call w n a) as [w1 r]. destruct (exec w1 (k r)) as [[w2 tr2] o2] eqn:E2. inversion E; subst.
    destruct (IH r _ _ _ _ E2) as [[Hf Ho]|(mid & -> & Hf & Ho)];
      [left; split; [constructor; [exact I|]|]|right; exists (EvCall n a r :: mid); split; [|split; [constructor; [exact I|]|]]]; auto.
  - destruct (exec _ k) as [[w2 tr2] o2] eqn:E2. inversion E; subst.
    destruct (IH _ _ _ _ E2) as [[Hf Ho]|(mid & -> & Hf & Ho)];
      [left; split; [constructor; [exact I|]|]|right; exists (EvSleep s :: mid); split; [|split; [constructor; [exact I|]|]]]; auto.
  - right. exists []. destruct Hk as [a Ha|e]; simpl in E; inversion E; subst.
    + split; [reflexivity|split; [constructor|]]. now intros a' [= <-].
    + split; [reflexivity|split; [constructor|discriminate]].
Qed.

End PathLemmas.

Lemma paths_bind {A B} ok P X (Q : A -> Prop) (R : B -> Prop) p f :
  paths ok P Q X p -> (forall a, Q a -> paths ok P R X (f a)) -> paths ok P R X (bind p f).
Proof. intros Hp Hf. induction Hp; simpl; [auto|constructor..]; auto. Qed.

Lemma session_bind {A B} (Qo Qc : A -> Prop) (Ro Rc : B -> Prop) p f :
  in_session Qo Qc p -> (forall a, Qo a -> in_session Ro Rc (f a)) -> (forall a, Qc a -> closed Rc (f a)) ->
  in_session Ro Rc (bind p f).
Proof.
  intros Hp Hf Hc. induction Hp as [a Ha|l m k _ IH|q k _ IH|n a k _ IH|s k _ IH|k Hk]; simpl.
  - now apply Hf.
  - constructor; auto.
  - constructor; auto.
  - constructor; auto.
  - constructor; auto.
  - constructor. destruct Hk; simpl; [now apply Hc|constructor].
Qed.

(** ** Bounding the requests of a program *)

Section Bounded.

Context {A : Type}.

(** [bounded c n p]: along every path of [p], whatever the answers, the
    number of requests plus [c a] for the value [a] returned at its end
    is at most [n]; a path that raises only counts its requests. *)
Inductive bounded (c : A -> nat) : nat -> prog A -> Prop :=
| bd_ret n a : c a <= n -> bounded c n (Ret a)
| bd_throw n e : bounded c n (Throw e)
| bd_log n l m k : 1 <= n -> (forall r, bounded c (n - 1) (k r)) -> bounded c n (Log l m k)
| bd_connect n k : 1 <= n -> (forall r, bounded c (n - 1) (k r)) -> bounded c n (Connect k)
| bd_gen n q k : 1 <= n -> (forall r, bounded c (n - 1) (k r)) -> bounded c n (Generate q k)
| bd_call n t a k : 1 <= n -> (forall r, bounded c (n - 1) (k r)) -> bounded c n (CallTool t a k)
| bd_sleep n s k : 1 <= n -> bounded c (n - 1) k -> bounded c n (Sleep s k)
| bd_disc n k : 1 <= n -> bounded c (n - 1) k -> bounded c n (Disconnect k).

Lemma bounded_mono c n m p : n <= m -> bounded c n p -> bounded c m p.
Proof.
  intros Hle Hb. revert m Hle.
  induction Hb as [n a Ha|n e|n l m0 k Hn _ IH|n k Hn _ IH|n q k Hn _ IH|n t a k Hn _ IH|n s k Hn _ IH|n k Hn _ IH];
    intros m' Hle; constructor; try lia; intros; apply IH; lia.
Qed.

End Bounded.

Lemma bounded_bind {A B} (c : A -> nat) (d : B -> nat) n p f :
  bounded c n p -> (forall a, bounded d (c a) (f a)) -> bounded d n (bind p f).
Proof.
  intros Hp Hf. induction Hp; simpl; [|constructor|constructor; auto..].
  apply (bounded_mono _ (c a)); auto.
Qed.

(** A bounded program's trace is no longer than its bound. *)
Lemma bounded_exec {W} `{AgentEnv W} {A} (c : A -> nat) n p w w' tr o :
  bounded c n p -> exec w p = (w', tr, o) ->
  length tr + match o with Normal a => c a | Exception _ => 0 end <= n.
Proof.
  intros Hb. revert w w' tr o.
  induction Hb as [n a Ha|n e|n l m k Hn _ IH|n k Hn _ IH|n q k Hn _ IH|n t a k Hn _ IH|n s k Hn _ IH|n k Hn _ IH];
    intros w w' tr o; cbn [exec].
  - intros [= <- <- <-]. cbn. lia.
  - intros [= <- <- <-]. cbn. lia.
  - destruct (env_log w l m) as [w1 r]. destruct (exec w1 (k r)) as [[w2 tr2] o2] eqn:E.
    intros [= <- <- <-]. specialize (IH r _ _ _ _ E). cbn. lia.
  - destruct (env_connect w) as [w1 r]. destruct (exec w1 (k r)) as [[w2 tr2] o2] eqn:E.
    intros [= <- <- <-]. specialize (IH r _ _ _ _ E). cbn. lia.
  - destruct (env_generate w q) as [w1 r]. destruct (exec w1 (k r)) as [[w2 tr2] o2] eqn:E.
    intros [= <- <- <-]. specialize (IH r _ _ _ _ E). cbn. lia.
  - destruct (env_call w t a) as [w1 r]. destruct (exec w1 (k r)) as [[w2 tr2] o2] eqn:E.
    intros [= <- <- <-]. specialize (IH r _ _ _ _ E). cbn. lia.
  - destruct (exec (env_sleep w s) k) as [[w2 tr2] o2] eqn:E.
    intros [= <- <- <-]. specialize (IH _ _ _ _ E). cbn. lia.
  - destruct (exec (env_disconnect w) k) as [[w2 tr2] o2] eqn:E.
    intros [= <- <- <-]. specialize (IH _ _ _ _ E). cbn. lia.
Qed.

(** Proves [paths] and [in_session] goals for a concrete program: opens
    every request, cases on every [match] of the code, and leaves the
    obligations on requests and returned values to [leaf]. *)
Ltac solve_prog leaf :=
  repeat (cbv beta iota zeta;
    first
      [ progress intros
      | match goal with
        | |- paths _ _ _ _ _ => constructor
        | |- in_session _ _ _ => constructor
        | |- closed _ _ => constructor
        | |- bounded _ _ _ => constructor
        | |- context [match ?x with _ => _ end] => destruct x eqn:?
        end
      | solve [leaf] ]).

(** ** Counting requests in a trace *)

Definition is_generate (ev : Event) : bool := match ev with EvGenerate _ _ => true | _ => false end.
Definition is_sleep (ev : Event) : bool := match ev with EvSleep _ => true | _ => false end.

(** How many times the model was called. *)
Definition model_calls (tr : list Event) : nat := length (filter is_generate tr).

Lemma model_calls_app tr1 tr2 : model_calls (tr1 ++ tr2) = model_calls tr1 + model_calls tr2.
Proof. unfold model_calls. now rewrite filter_app, length_app. Qed.

Lemma model_calls_none tr : Forall (fun ev => is_generate ev = false) tr -> model_calls tr = 0.
Proof. unfold model_calls. induction 1 as [|ev tr Hev _ IH]; simpl; [reflexivity|now rewrite Hev]. Qed.

#[export] Hint Rewrite model_calls_app : agent_rw.

(** ** A scripted environment

    Replays a fixed list of model replies and tool results; the log
    callback never raises.  Used by the witnesses. *)
Record Script := {
  s_connect : string + list Tool;
  s_replies : list GenResult;
  s_results : list (PyExc + CallResult)
}.

Definition pop {A} (d : A) (xs : list A) : A * list A :=
  match xs with [] => (d, []) | x :: r => (x, r) end.

#[export] Instance script_env : AgentEnv Script := {
  env_log w _ _ := (w, None);
  env_connect w := (w, s_connect w);
  env_generate w _ :=
    let '(g, r) := pop (GenError "no reply") (s_replies w) in
    ({| s_connect := s_connect w; s_replies := r; s_results := s_results w |}, g);
  env_call w _ _ :=
    let '(c, r) := pop (inr (WithoutContent EmptyString)) (s_results w) in
    ({| s_connect := s_connect w; s_replies := s_replies w; s_results := r |}, c);
  env_sleep w _ := w;
  env_disconnect w := w
}.

(** An environment that always gives the same answers; the log callback
    never raises. *)
Definition const_env (c : string + list Tool) (g : GenResult) (r : PyExc + CallResult) : AgentEnv unit := {|
  env_log w _ _ := (w, None);
  env_connect w := (w, c);
  env_generate w _ := (w, g);
  env_call w _ _ := (w, r);
  env_sleep w _ := w;
  env_disconnect w := w
|}.

End Prog.
