(* ===== verification/Agent.v ===== *)
(** * The agent loop: [run_agent] of src/agent.py

    [run_agent] is an [async] coroutine.  Its effects happen at a few
    points only: the log callback, entering the MCP client contexts and
    listing the tools, the model call, the tool call, [asyncio.sleep],
    and the teardown of the [finally] block.  The model is a program of
    the free monad [prog] with one request per such point; everything
    between two requests is the pure code of agent.py, written here with
    the components [Parser], [Catalog], [Coercion] and [Outcome].

    The loop [for i in range(max_iter)] is [loop]: structural recursion
    on the number of iterations left, each iteration being [iterate],
    which ends in [Continue] ([continue] or the end of the body), [Break]
    ([break]) or [Done] (the [return] of a final answer).  Exceptions the
    code does not catch are [Throw]; every exit inside the inner [try]
    passes through [Disconnect], the [finally] of lines 245-257.

    [exec] (file [Prog]) runs a program against any instance of
    [AgentEnv], the interface the coroutine's collaborators (model, MCP
    session, log callback, clock) offer; it returns the final world, the
    trace of requests and the exit.  The theorems are stated on [exec]
    and proved with the path predicates of [Prog]; main.py's use of
    [run_agent] with a possibly-null budget is [run_agent_opt], and the
    command line [main()] of lines 263-273 is [cli_main]. *)

From S2P Require Import Prelude PyStr Parser Catalog Coercion Outcome Prog.
Import PyStr Parser Catalog Coercion Outcome Prog.

Module Agent.

Local Open Scope prog_scope.

(** [{"success", "result", "iterations", "history", "execution_log"}] *)
Record AgentResult := {
  success : bool;
  result_msg : string;
  iterations : nat;
  history : list string;
  execution_log : list ExecEntry
}.

(** ** One iteration *)

Inductive Step :=
| Continue (history : list string) (xlog : list ExecEntry)
| Break (history : list string) (xlog : list ExecEntry)
| Done (r : AgentResult).

Definition is_rate_limit (err : string) : bool := contains "429" err || contains "RESOURCE_EXHAUSTED" err.

Section Iteration.

Variables (query : string) (max_iter : nat) (tools : list Tool) (tools_desc : string).

(** Lines 84-101 *)
Definition prompt_for (i : nat) (history : list string) : Prompt :=
  if i =? 0 then FirstPrompt query else NextPrompt tools_desc query history.[-3:].

(** The text sent to the model (the f-strings of lines 85-101), given the
    system prompt [SYSTEM_PROMPT_MANUAL] of src/prompt.py. *)
Definition nl : string := String newline EmptyString.
Fixpoint spaces (n : nat) : string := match n with 0 => EmptyString | S n => String " " (spaces n) end.

Definition render_prompt (system : string) (p : Prompt) : string :=
  match p with
  | FirstPrompt q =>
      system +++ nl +++ spaces 34 +++ "GOAL: " +++ q +++ nl +++
      spaces 34 +++ "Return the FIRST tool call." +++ nl +++ spaces 30
  | NextPrompt desc q recent =>
      system +++ nl +++ nl +++ spaces 32 +++ "COMPLETE_TOOLS_DESCRIPTION: " +++ desc +++ nl +++
      spaces 32 +++ "GOAL: " +++ q +++ nl +++ nl +++
      spaces 32 +++ "ACTIONS COMPLETED:" +++ nl +++
      spaces 32 +++ join nl recent +++ nl +++ nl +++
      spaces 32 +++ "IMPORTANT: Review the results above. If you successfully extracted the data you need (price, text, etc.), return FINAL_ANSWER immediately. Don't keep retrying if you already have valid data." +++ nl +++ nl +++
      spaces 32 +++ "Return the NEXT tool call or FINAL_ANSWER."
  end.

(** The [except] of lines 117-125 for the model call, also reached when
    the log of line 110 raises. *)
Definition on_model_error (history : list string) (xlog : list ExecEntry) (err : string) : prog Step :=
  if is_rate_limit err then
    log Warning LRateLimit (Sleep 10 (Ret (Continue history xlog))) fail_out
  else log Error (LModelError (take 100 err)) (Ret (Break history xlog)) fail_out.

(** Lines 208-212: [except Exception as e] around coercion and the tool call. *)
Definition on_tool_exception (tool_name : string) (history : list string) (xlog : list ExecEntry) (e : PyExc) : prog Step :=
  log Error (LException (exc_str e))
    (Ret (Continue (history ++ [error_entry tool_name e]) (update_last (set_error e) xlog)))
    fail_out.

(** Lines 184-206: the tool's reply. *)
Definition on_tool_result (tool_name : string) (history : list string) (xlog : list ExecEntry) (res : CallResult) : prog Step :=
  let rtext := result_text res in
  let display := display_text rtext in
  let handler e := on_tool_exception tool_name history xlog (Raised e) in
  if is_failure_text rtext then
    log Warning (LToolFailed display)
      (Ret (Continue (history ++ [failed_entry tool_name display]) (update_last (set_failed display) xlog)))
      handler
  else
    log Info (LToolOutput display)
      (Ret (Continue (history ++ [success_entry tool_name rtext]) (update_last (set_success display) xlog)))
      handler.

(** Lines 157-212: a parsed invocation. *)
Definition run_tool (tool_name : string) (params : list string) (history : list string) (xlog : list ExecEntry) : prog Step :=
  match find_tool tools tool_name with
  | None => log Error LUnknownTool (Ret (Continue (history ++ [not_found_entry tool_name]) xlog)) fail_out
  | Some tool =>
      let handler := on_tool_exception tool_name history xlog in
      match build_args (schema_props (inputSchema tool)) params with
      | inl e => handler e
      | inr args =>
          log Info (LExecuting args)
            (CallTool tool_name args (fun r =>
               match r with
               | inl e => handler e
               | inr res => on_tool_result tool_name history xlog res
               end))
            (fun e => handler (Raised e))
      end
  end.

(** Lines 127-234 on the stripped reply. *)
Definition on_decision (i : nat) (history : list string) (xlog : list ExecEntry) (text : string) : prog Step :=
  match parse_response text with
  | ToolInvocation tool_name params =>
      log Info (LParsed tool_name params) (run_tool tool_name params history xlog) fail_out
  | NoToolCallLine => log Warning LNoValidToolCall (Ret (Continue (history ++ [invalid_entry]) xlog)) fail_out
  | FinalAnswer ans =>
      log Info (LDone ans)
        (Disconnect (Ret (Done {| success := true; result_msg := ans; iterations := S i;
                                  history := history; execution_log := xlog |})))
        fail_out
  | NoAnswerLine => Ret (Continue history xlog)
  | InvalidFormat => log Warning LInvalidFormat (Ret (Continue (history ++ [invalid_entry]) xlog)) fail_out
  end.

(** Lines 82-234: the body of the [for] loop at index [i]. *)
Definition iterate (i : nat) (history : list string) (xlog : list ExecEntry) : prog Step :=
  log Info (LIteration i max_iter)
    (Generate (prompt_for i history) (fun g =>
       match g with
       | GenError err => on_model_error history xlog err
       | GenText raw =>
           let text := strip raw in
           log Info (LResponse text)
             (on_decision i history (xlog ++ [new_entry (S i) text]) text)
             (on_model_error history xlog)
       end))
    fail_out.

(** Lines 236-243 *)
Definition finish (history : list string) (xlog : list ExecEntry) : prog AgentResult :=
  log Warning LMaxIterations
    (Disconnect (Ret {| success := false; result_msg := "Max iterations reached without completing task";
                        iterations := max_iter; history := history; execution_log := xlog |}))
    fail_out.

(** Line 81: [for i in range(max_iter)], [fuel] iterations left from [i]. *)
Fixpoint loop (fuel i : nat) (history : list string) (xlog : list ExecEntry) : prog AgentResult :=
  match fuel with
  | 0 => finish history xlog
  | S fuel' =>
      s <- iterate i history xlog ;;
      match s with
      | Continue h x => loop fuel' (S i) h x
      | Break h x => finish h x
      | Done r => Ret r
      end
  end.

End Iteration.

(** Lines 32-80 and 244-261: the coroutine around its loop, given as
    [body] the loop over the listed tools and their digest. *)
Definition run_agent_with (query : string) (body : list Tool -> string -> prog AgentResult) : prog AgentResult :=
  log Info LStarting
    (Connect (fun c =>
       match c with
       | inl e => fail_out e
       | inr tools =>
           log Info (LToolsReady (length tools))
             (let tools_desc := create_tool_descriptions tools in
              log Info (LGoal query) (body tools tools_desc) fail_out)
             fail_out
       end))
    Throw.

(** Lines 32-261 *)
Definition run_agent (query : string) (max_iter : nat) : prog AgentResult :=
  run_agent_with query (fun tools tools_desc => loop query max_iter tools tools_desc max_iter 0 [] []).

(** [range(max_iter)] of line 81 when main.py passes [max_iterations=None]. *)
Definition range_none_error : string := "'NoneType' object cannot be interpreted as an integer".

(** [run_agent(goal, max_iter=max_iterations)] as main.py line 78 calls it,
    where the request's [max_iterations] may be [None]. *)
Definition run_agent_opt (query : string) (max_iter : option nat) : prog AgentResult :=
  match max_iter with
  | Some n => run_agent query n
  | None => run_agent_with query (fun _ _ => fail_out range_none_error)
  end.

(** ** The command line: [main] (lines 263-273) *)

(** The goal when the line read is blank (line 266). *)
Definition default_query : string := "Go to google.com and search for hello".

Definition cli_query (line : string) : string :=
  let q := strip line in if String.eqb q "" then default_query else q.

(** What [main] prints: the result dict (its [str] is not modelled), an
    error line, or nothing for a [Shutdown] exception. *)
Inductive CliOutput := PrintResult (r : AgentResult) | PrintError (msg : string) | NoOutput.

(** The [except Exception as e] of lines 270-273. *)
Definition cli_except (e : string) : CliOutput :=
  if contains "Shutdown" e then NoOutput else PrintError ("Error: " +++ e).

(** [input()] on end of file raises [EOFError]. *)
Definition eof_error : string := "EOF when reading a line".

(** Lines 263-273, given what [input] returns ([None] at end of file);
    [run_agent(query, verbose=True)] keeps its default [max_iter=15]. *)
Definition cli_main (line : option string) : prog CliOutput :=
  match line with
  | None => Ret (cli_except eof_error)
  | Some l => handle (run_agent (cli_query l) 15) (fun r => Ret (PrintResult r)) (fun e => Ret (cli_except e))
  end.

(** ** Helper lemmas on iterations *)

Definition not_done (s : Step) : Prop := match s with Done _ => False | _ => True end.
Definition is_done (s : Step) : Prop := match s with Done _ => True | _ => False end.

Ltac unfold_iteration :=
  unfold iterate, finish, on_model_error, on_decision, run_tool,
         on_tool_exception, on_tool_result, log, fail_out.

(** The model never answers with a final answer nor fails, the log
    callback never raises and the server starts. *)
Definition never_final (ev : Event) : Prop :=
  match ev with
  | EvLog _ _ r => r = None
  | EvConnect r => exists ts, r = inr ts
  | EvGenerate _ g => exists raw, g = GenText raw /\ forall a, parse_response (strip raw) <> FinalAnswer a
  | _ => True
  end.

Ltac never_final_leaf :=
  first [ exact I
        | match goal with H : never_final (EvLog _ _ (Some _)) |- _ => cbn in H; discriminate H end
        | match goal with H : never_final (EvGenerate _ (GenError _)) |- _ =>
            destruct H as (? & ? & _); discriminate end
        | match goal with H : never_final (EvGenerate _ (GenText _)), E : parse_response _ = FinalAnswer _ |- _ =>
            let Hn := fresh in destruct H as (? & [= <-] & Hn); exfalso; eapply Hn; exact E end
        | match goal with E : parse_response _ = NoAnswerLine |- _ =>
            exfalso; eapply parse_response_answer_line_total; exact E end
        | rewrite ?update_last_snoc; do 2 eexists; split; reflexivity ].

(** Every model call is rate limited; the log callback never raises and
    the server starts. *)
Definition always_throttled (ev : Event) : Prop :=
  match ev with
  | EvLog _ _ r => r = None
  | EvConnect r => exists ts, r = inr ts
  | EvGenerate _ g => exists err, g = GenError err /\ is_rate_limit err = true
  | _ => True
  end.

Ltac throttled_leaf :=
  first [ exact I | reflexivity
        | match goal with H : always_throttled (EvLog _ _ (Some _)) |- _ => cbn in H; discriminate H end
        | match goal with H : always_throttled (EvGenerate _ (GenText _)) |- _ =>
            destruct H as (? & ? & _); discriminate end
        | match goal with H : always_throttled (EvGenerate _ (GenError _)), E : is_rate_limit _ = false |- _ =>
            destruct H as (? & [= <-] & ?); congruence end ].

Section Loop.

Variables (query : string) (max_iter : nat) (tools : list Tool) (tools_desc : string).

Lemma iterate_session i h x :
  in_session not_done is_done (iterate query max_iter tools tools_desc i h x).
Proof. unfold_iteration. solve_prog ltac:(exact I). Qed.

Lemma finish_session h x : in_session (fun _ : AgentResult => False) (fun _ => True) (finish max_iter h x).
Proof. unfold_iteration. solve_prog ltac:(exact I). Qed.

Lemma loop_session fuel i h x :
  in_session (fun _ => False) (fun _ => True) (loop query max_iter tools tools_desc fuel i h x).
Proof.
  revert i h x. induction fuel as [|fuel IH]; intros i h x; [apply finish_session|].
  cbn [loop]. apply session_bind with (Qo := not_done) (Qc := is_done); [apply iterate_session| |].
  - intros [h' x'|h' x'|r] Hs; [apply IH|apply finish_session|destruct Hs].
  - intros [h' x'|h' x'|r] Hs; [destruct Hs|destruct Hs|constructor; exact I].
Qed.

(** No model call after the one of an iteration. *)
Definition any_event (_ : Event) : Prop := True.
Definition no_model_call (ev : Event) : Prop := is_generate ev = false.

Lemma on_model_error_quiet h x err :
  paths any_event no_model_call (fun _ => True) (fun _ => True) (on_model_error h x err).
Proof. unfold_iteration. solve_prog ltac:(first [exact I|reflexivity]). Qed.

Lemma on_decision_quiet i h x text :
  paths any_event no_model_call (fun _ => True) (fun _ => True) (on_decision tools i h x text).
Proof. unfold_iteration. solve_prog ltac:(first [exact I|reflexivity]). Qed.

Lemma finish_quiet h x :
  paths any_event no_model_call (fun _ => True) (fun _ => True) (finish max_iter h x).
Proof. unfold_iteration. solve_prog ltac:(first [exact I|reflexivity]). Qed.

Lemma quiet_model_calls {W} `{AgentEnv W} {A} (p : prog A) Q X w w' tr o :
  paths any_event no_model_call Q X p -> exec w p = (w', tr, o) -> model_calls tr = 0.
Proof.
  intros Hp E. apply model_calls_none.
  exact (proj1 (paths_exec _ _ _ _ _ _ _ _ _ answers_ok_any Hp E)).
Qed.

(** Each iteration calls the model at most once. *)
Lemma iterate_model_calls {W} `{AgentEnv W} i h x w w' tr o :
  exec w (iterate query max_iter tools tools_desc i h x) = (w', tr, o) -> model_calls tr <= 1.
Proof.
  unfold iterate, log at 1. cbn [exec]. destruct (env_log w _ _) as [w1 [e|]].
  - cbn. intros [= <- <- <-]. cbn. lia.
  - cbn [exec]. destruct (env_generate w1 _) as [w2 g].
    lazymatch goal with |- context [exec w2 ?k] => destruct (exec w2 k) as [[w3 tr3] o3] eqn:E end.
    intros [= <- <- <-]. cbn. enough (model_calls tr3 = 0) by (unfold model_calls in *; lia).
    revert E. destruct g as [raw|err]; [|apply (quiet_model_calls _ _ _ _ _ _ _ (on_model_error_quiet _ _ _))].
    apply (quiet_model_calls _ (fun _ => True) (fun _ => True)). unfold log. apply pa_log; [intros; reflexivity|].
    intros [e|] _; [apply on_model_error_quiet|apply on_decision_quiet].
Qed.

Lemma loop_model_calls {W} `{AgentEnv W} fuel i h x w w' tr o :
  exec w (loop query max_iter tools tools_desc fuel i h x) = (w', tr, o) -> model_calls tr <= fuel.
Proof.
  revert i h x w w' tr o. induction fuel as [|fuel IH]; intros i h x w w' tr o.
  - intros E. rewrite (quiet_model_calls _ _ _ _ _ _ _ (finish_quiet h x) E). lia.
  - cbn [loop]. rewrite exec_bind.
    destruct (exec w (iterate _ _ _ _ i h x)) as [[w1 tr1] [s|e]] eqn:E1;
      pose proof (iterate_model_calls _ _ _ _ _ _ _ E1) as H1.
    + destruct s as [h' x'|h' x'|r]; destruct (exec w1 _) as [[w2 tr2] o2] eqn:E2;
        intros [= <- <- <-]; rewrite model_calls_app.
      * specialize (IH _ _ _ _ _ _ _ E2). lia.
      * rewrite (quiet_model_calls _ _ _ _ _ _ _ (finish_quiet h' x') E2). lia.
      * inversion E2; subst. cbn. lia.
    + intros [= <- <- <-]. lia.
Qed.

(** What one iteration does to the history and the execution log. *)
Definition step_bounds (i : nat) (h : list string) (x : list ExecEntry) (s : Step) : Prop :=
  match s with
  | Continue h' x' | Break h' x' => length h' <= S (length h) /\ length x' <= S (length x)
  | Done r => success r = true /\ iterations r = S i /\ length (execution_log r) = S (length x) /\ history r = h
  end.

Ltac length_leaf :=
  first [ exact I
        | cbn; rewrite ?length_app, ?update_last_length, ?length_app; cbn; repeat split; first [reflexivity | lia] ].

Lemma iterate_bounds i h x :
  paths any_event any_event (step_bounds i h x) (fun _ => True) (iterate query max_iter tools tools_desc i h x).
Proof. unfold_iteration. solve_prog length_leaf. Qed.

(** The result's bounds: a failure always reports [max_iter] iterations. *)
Definition result_bounds (r : AgentResult) : Prop :=
  (success r = false /\ iterations r = max_iter /\
   length (execution_log r) <= max_iter /\ length (history r) <= max_iter) \/
  (success r = true /\ 1 <= iterations r <= max_iter /\
   length (execution_log r) <= iterations r /\ length (history r) < iterations r).

Lemma finish_bounds h x :
  length h <= max_iter -> length x <= max_iter ->
  paths any_event any_event result_bounds (fun _ => True) (finish max_iter h x).
Proof. intros Hh Hx. unfold_iteration. solve_prog ltac:(first [exact I | left; cbn; auto]). Qed.

Lemma loop_bounds fuel i h x :
  length h <= i -> length x <= i -> i + fuel = max_iter ->
  paths any_event any_event result_bounds (fun _ => True) (loop query max_iter tools tools_desc fuel i h x).
Proof.
  revert i h x. induction fuel as [|fuel IH]; intros i h x Hh Hx Hi; [apply finish_bounds; lia|].
  cbn [loop]. apply paths_bind with (Q := step_bounds i h x); [apply iterate_bounds|].
  intros [h' x'|h' x'|r]; cbn [step_bounds].
  - intros [? ?]. apply IH; lia.
  - intros [? ?]. apply finish_bounds; lia.
  - intros (? & ? & ? & ?). constructor. right. repeat split; try lia; auto.
    subst. lia.
Qed.

(** *** How many requests an iteration makes *)

(** What the rest of the loop may still request after an iteration
    that ends in [s], with [f] iterations left after it. *)
Definition step_cost (f : nat) (s : Step) : nat :=
  match s with Continue _ _ => 8 * f + 2 | Break _ _ => 2 | Done _ => 0 end.

(** An iteration makes at most eight requests before it continues (the
    iteration log, the model call, the reply log, the parse log, the
    execution log, the tool call, the outcome log and the exception log
    when the outcome log raises), and at most nine when it raises. *)
Lemma iterate_requests f i h x :
  bounded (step_cost f) (8 * f + 10) (iterate query max_iter tools tools_desc i h x).
Proof. unfold_iteration. solve_prog ltac:(unfold step_cost; lia). Qed.

Lemma finish_requests h x : bounded (fun _ : AgentResult => 0) 2 (finish max_iter h x).
Proof. unfold_iteration. solve_prog lia. Qed.

Lemma loop_requests fuel i h x :
  bounded (fun _ => 0) (8 * fuel + 2) (loop query max_iter tools tools_desc fuel i h x).
Proof.
  revert i h x. induction fuel as [|fuel IH]; intros i h x; [apply finish_requests|].
  cbn [loop]. apply bounded_bind with (c := step_cost fuel).
  - eapply bounded_mono; [|apply iterate_requests]. lia.
  - intros [h' x'|h' x'|r]; cbn [step_cost]; [apply IH|apply finish_requests|constructor; lia].
Qed.

(** *** Tool calls stay within the catalog *)

(** A tool call names a tool of the catalog, and its argument names are
    the first properties of that tool's schema, in order. *)
Definition call_in_catalog (ev : Event) : Prop :=
  match ev with
  | EvCall n a _ =>
      exists t, find_tool tools n = Some t /\
                exists rest, map fst (schema_props (inputSchema t)) = map fst a ++ rest
  | _ => True
  end.

Ltac catalog_leaf :=
  first [ exact I
        | cbn; eexists; split; [eassumption|]; eapply build_args_prefix; eassumption ].

Lemma iterate_calls i h x :
  paths any_event call_in_catalog (fun _ => True) (fun _ => True) (iterate query max_iter tools tools_desc i h x).
Proof. unfold_iteration. solve_prog catalog_leaf. Qed.

Lemma loop_calls fuel i h x :
  paths any_event call_in_catalog (fun _ => True) (fun _ => True) (loop query max_iter tools tools_desc fuel i h x).
Proof.
  revert i h x. induction fuel as [|fuel IH]; intros i h x.
  - unfold_iteration. solve_prog catalog_leaf.
  - cbn [loop]. eapply paths_bind; [apply iterate_calls|].
    intros [h' x'|h' x'|r] _; [apply IH| |constructor; exact I].
    unfold_iteration. solve_prog catalog_leaf.
Qed.

(** *** Exhausting the budget *)

Lemma iterate_never_final i h x :
  paths never_final any_event
        (fun s => exists e y, s = Continue (h ++ [e]) (x ++ [y]) /\ iteration y = S i) (fun _ => False)
        (iterate query max_iter tools tools_desc i h x).
Proof. unfold_iteration. solve_prog never_final_leaf. Qed.

Definition exhausted (r : AgentResult) : Prop :=
  success r = false /\ iterations r = max_iter /\ length (history r) = max_iter /\
  map iteration (execution_log r) = seq 1 max_iter.

Lemma loop_never_final fuel i h x :
  length h = i -> map iteration x = seq 1 i -> i + fuel = max_iter ->
  paths never_final any_event exhausted (fun _ => False) (loop query max_iter tools tools_desc fuel i h x).
Proof.
  revert i h x. induction fuel as [|fuel IH]; intros i h x Hh Hx Hi.
  - unfold_iteration.
    solve_prog ltac:(first [never_final_leaf
                           | unfold exhausted; cbn; replace max_iter with i by lia; repeat split; assumption]).
  - cbn [loop]. eapply paths_bind; [apply iterate_never_final|].
    intros s (e & y & -> & Hy). apply IH.
    + rewrite length_app. cbn. lia.
    + rewrite map_app, Hx, seq_S. cbn. now rewrite Hy.
    + lia.
Qed.

(** *** Rate limiting *)

Lemma iterate_throttled i h x :
  paths always_throttled any_event (fun s => s = Continue h x) (fun _ => False)
        (iterate query max_iter tools tools_desc i h x).
Proof. unfold_iteration. solve_prog throttled_leaf. Qed.

(** With a log callback that never raises, an iteration calls the model once. *)
Lemma iterate_one_model_call {W} `{AgentEnv W} i h x w w' tr o :
  (forall w l m, snd (env_log w l m) = None) ->
  exec w (iterate query max_iter tools tools_desc i h x) = (w', tr, o) -> model_calls tr = 1.
Proof.
  intros Hl. unfold iterate, log at 1. cbn [exec]. specialize (Hl w (Info) (LIteration i max_iter)).
  destruct (env_log w _ _) as [w1 r]. cbn in Hl. subst r. cbn [exec].
  destruct (env_generate w1 _) as [w2 g].
  lazymatch goal with |- context [exec w2 ?k] => destruct (exec w2 k) as [[w3 tr3] o3] eqn:E end.
  intros [= <- <- <-]. cbn. enough (model_calls tr3 = 0) by (unfold model_calls in *; cbn; lia).
  revert E. destruct g as [raw|err]; [|apply (quiet_model_calls _ _ _ _ _ _ _ (on_model_error_quiet _ _ _))].
  apply (quiet_model_calls _ (fun _ => True) (fun _ => True)). unfold log. apply pa_log; [intros; reflexivity|].
  intros [e|] _; [apply on_model_error_quiet|apply on_decision_quiet].
Qed.

Lemma loop_throttled {W} `{AgentEnv W} fuel i w w' tr o :
  answers_ok always_throttled ->
  exec w (loop query max_iter tools tools_desc fuel i [] []) = (w', tr, o) ->
  o = Normal {| success := false; result_msg := "Max iterations reached without completing task";
                iterations := max_iter; history := []; execution_log := [] |} /\ model_calls tr = fuel.
Proof.
  intros Hok. revert i w w' tr o. induction fuel as [|fuel IH]; intros i w w' tr o.
  - intros E. split; [|exact (quiet_model_calls _ _ _ _ _ _ _ (finish_quiet [] []) E)].
    assert (Hp : paths always_throttled any_event
                   (fun r => r = {| success := false; result_msg := "Max iterations reached without completing task";
                                    iterations := max_iter; history := []; execution_log := [] |})
                   (fun _ => False) (finish max_iter [] [])).
    { unfold_iteration. solve_prog throttled_leaf. }
    destruct (paths_exec _ _ _ _ _ _ _ _ _ Hok Hp E) as (_ & Hn & He).
    destruct o as [r|e]; [now rewrite (Hn r eq_refl)|destruct (He e eq_refl)].
  - cbn [loop]. rewrite exec_bind.
    destruct (exec w (iterate _ _ _ _ i [] [])) as [[w1 tr1] o1] eqn:E1.
    destruct (paths_exec _ _ _ _ _ _ _ _ _ Hok (iterate_throttled i [] []) E1) as (_ & Hn & He).
    pose proof (iterate_one_model_call _ _ _ _ _ _ _ (proj1 Hok) E1) as H1.
    destruct o1 as [s|e]; [|destruct (He e eq_refl)]. rewrite (Hn s eq_refl).
    destruct (exec w1 (loop _ _ _ _ fuel (S i) [] [])) as [[w2 tr2] o2] eqn:E2.
    intros [= <- <- <-]. destruct (IH _ _ _ _ _ E2) as [-> Hc]. split; [reflexivity|].
    rewrite model_calls_app. lia.
Qed.

End Loop.

(** Whatever the world answers, what [run_agent] returns is within
    [result_bounds]. *)
Lemma run_agent_paths_bounds query max_iter :
  paths any_event any_event (result_bounds max_iter) (fun _ => True) (run_agent query max_iter).
Proof. unfold run_agent, run_agent_with, log, fail_out. solve_prog ltac:(first [exact I | apply loop_bounds; cbn; lia]). Qed.

(** A run makes at most [8 * max_iter + 6] requests: four before the
    loop, eight per iteration, and the two of the budget-exhausted exit. *)
Lemma run_agent_requests query max_iter :
  bounded (fun _ => 0) (8 * max_iter + 6) (run_agent query max_iter).
Proof.
  unfold run_agent, run_agent_with, log, fail_out.
  solve_prog ltac:(first [lia | eapply bounded_mono; [|apply loop_requests]; lia]).
Qed.

Lemma run_agent_opt_requests query mi :
  bounded (fun _ => 0) (8 * (mi ?? 0) + 6) (run_agent_opt query mi).
Proof.
  destruct mi as [n|]; [apply run_agent_requests|].
  unfold run_agent_opt, run_agent_with, log, fail_out. solve_prog lia.
Qed.

(** With [max_iterations=None] the coroutine never returns a result. *)
Lemma run_agent_none_paths query :
  paths any_event any_event (fun _ => False) (fun _ => True) (run_agent_opt query None).
Proof. unfold run_agent_opt, run_agent_with, log, fail_out. solve_prog ltac:(exact I). Qed.

(** ** Properties of [run_agent] *)

Section Run.

Context {W : Type} `{AgentEnv W}.

(** C1: the MCP session is opened once and released exactly once on every
    run: after the first log, the trace is the connection, requests that
    neither connect nor disconnect, and the teardown as the very last
    request, whether the run returns or raises; only a failure of the
    very first log call leaves before connecting. *)
Theorem run_agent_session query max_iter w w' tr o :
  exec w (run_agent query max_iter) = (w', tr, o) ->
  (exists e, tr = [EvLog Info LStarting (Some e)] /\ o = Exception e) \/
  (exists r mid, tr = EvLog Info LStarting None :: EvConnect r :: mid ++ [EvDisconnect] /\
                 Forall session_free mid).
Proof.
  unfold run_agent, run_agent_with, log. simpl. destruct (env_log w Info LStarting) as [w1 [e|]].
  - intros [= <- <- <-]. left. eauto.
  - cbn [exec]. destruct (env_connect w1) as [w2 c]. cbn beta iota.
    lazymatch goal with |- context [exec w2 ?k] => remember k as kc eqn:Ek end.
    destruct (exec w2 kc) as [[w3 tr3] o3] eqn:E. intros [= <- <- <-]. right.
    assert (Hk : in_session (fun _ => False) (fun _ => True) kc).
    { subst kc. destruct c as [e|tools]; [repeat constructor|].
      unfold log, fail_out. repeat constructor; intros [e'|]; try (repeat constructor; fail).
      constructor; intros [e''|]; [repeat constructor|apply loop_session]. }
    destruct (session_exec _ _ _ _ _ _ _ Hk E) as [[_ (a & _ & [])]|(mid & -> & Hf & _)].
    exists c, mid. auto.
Qed.

(** C23: a run makes at most [8 * max_iter + 6] requests, whatever the
    model, the MCP server and the log callback answer: four before the
    loop (the start log, the connection, the two setup logs), at most
    eight per iteration, and the budget-exhausted log and teardown. *)
Theorem run_agent_requests_bound query max_iter w w' tr o :
  exec w (run_agent query max_iter) = (w', tr, o) -> length tr <= 8 * max_iter + 6.
Proof. intros E. pose proof (bounded_exec _ _ _ _ _ _ _ (run_agent_requests query max_iter) E). destruct o; lia. Qed.

(** C2: the model is called at most [max_iter] times in a run, whatever
    it and the tools answer: a rate-limited attempt uses up an iteration
    of the [for] loop (the [continue] of line 122 advances [i]), so the
    retry on rate limiting is bounded by the iteration budget. *)
Theorem run_agent_model_calls query max_iter w w' tr o :
  exec w (run_agent query max_iter) = (w', tr, o) -> model_calls tr <= max_iter.
Proof.
  unfold run_agent, run_agent_with, log. cbn [exec]. destruct (env_log w Info LStarting) as [w1 [e|]].
  - intros [= <- <- <-]. cbn. lia.
  - cbn [exec]. destruct (env_connect w1) as [w2 [e|tools]]; cbn [exec].
    + intros [= <- <- <-]. cbn. lia.
    + destruct (env_log w2 _ _) as [w3 [e|]]; cbn [exec].
      * intros [= <- <- <-]. cbn. lia.
      * destruct (env_log w3 _ _) as [w4 [e|]]; cbn [exec].
        -- intros [= <- <- <-]. cbn. lia.
        -- destruct (exec w4 (loop _ _ _ _ _ _ _ _)) as [[w5 tr5] o5] eqn:E.
           intros [= <- <- <-]. cbn. apply loop_model_calls in E. exact E.
Qed.

(** C3: whatever the model and the tools answer, a run that returns
    reports at most [max_iter] iterations, an execution log no longer
    than the iterations it reports and a history shorter than them on
    success; and a failed run always reports exactly [max_iter]
    iterations, also when a model error ended it at its first iteration
    (the [break] of line 125 reaches the same [return] as exhaustion). *)
Theorem run_agent_result_bounds query max_iter w w' tr r :
  exec w (run_agent query max_iter) = (w', tr, Normal r) -> result_bounds max_iter r.
Proof.
  intros E.
  exact (proj1 (proj2 (paths_exec _ _ _ _ _ _ _ _ _ answers_ok_any (run_agent_paths_bounds query max_iter) E)) r eq_refl).
Qed.

(** The log callback never raises and the server starts: the run is the
    four opening requests, then the loop. *)
Lemma run_agent_prefix query max_iter w w' tr o :
  (forall w l m, snd (env_log w l m) = None) -> (forall w, exists ts, snd (env_connect w) = inr ts) ->
  exec w (run_agent query max_iter) = (w', tr, o) ->
  exists w0 tools tr', tr = [EvLog Info LStarting None; EvConnect (inr tools);
                             EvLog Info (LToolsReady (length tools)) None; EvLog Info (LGoal query) None] ++ tr' /\
                       exec w0 (loop query max_iter tools (create_tool_descriptions tools) max_iter 0 [] []) = (w', tr', o).
Proof.
  intros Hl Hc. unfold run_agent, run_agent_with, log. cbn [exec].
  pose proof (Hl w Info LStarting) as H1. destruct (env_log w _ _) as [w1 r1]. cbn in H1. subst r1. cbn [exec].
  destruct (Hc w1) as [tools H2]. destruct (env_connect w1) as [w2 c]. cbn in H2. subst c. cbn [exec].
  pose proof (Hl w2 Info (LToolsReady (length tools))) as H3.
  destruct (env_log w2 _ _) as [w3 r3]. cbn in H3. subst r3. cbn [exec].
  pose proof (Hl w3 Info (LGoal query)) as H4. destruct (env_log w3 _ _) as [w4 r4]. cbn in H4. subst r4.
  destruct (exec w4 _) as [[w5 tr5] o5] eqn:E. intros [= <- <- <-]. exists w4, tools, tr5. auto.
Qed.

(** C4: every tool call of a run names a tool of the catalog the server
    listed, and passes exactly the first of that tool's schema
    properties, in schema order: an unknown tool name is never
    dispatched, and no argument outside the schema is ever sent. *)
Theorem run_agent_calls_in_catalog query max_iter w w' tr o :
  exec w (run_agent query max_iter) = (w', tr, o) ->
  forall n a r, In (EvCall n a r) tr ->
  exists tools t, In (EvConnect (inr tools)) tr /\ find_tool tools n = Some t /\
                  exists rest, map fst (schema_props (inputSchema t)) = map fst a ++ rest.
Proof.
  unfold run_agent, run_agent_with, log. cbn [exec]. destruct (env_log w Info LStarting) as [w1 [e|]].
  - intros [= <- <- <-] n a r [H1|[]]. discriminate.
  - cbn [exec]. destruct (env_connect w1) as [w2 c]. cbn beta iota.
    lazymatch goal with |- context [exec w2 ?k] => destruct (exec w2 k) as [[w3 tr3] o3] eqn:E end.
    intros [= <- <- <-] n a r Hin. destruct c as [err|tools]; cbn beta iota in E.
    + cbn in E. inversion E; subst. destruct Hin as [H1|[H1|[H1|[]]]]; discriminate.
    + lazymatch type of E with exec _ ?k = _ =>
        assert (Hp : paths any_event (call_in_catalog tools) (fun _ => True) (fun _ => True) k) end.
      { unfold fail_out. solve_prog ltac:(first [exact I | apply loop_calls]). }
      destruct (paths_exec _ _ _ _ _ _ _ _ _ answers_ok_any Hp E) as (Hf & _).
      destruct Hin as [H1|[H1|Hin]]; [discriminate|discriminate|].
      rewrite Forall_forall in Hf. destruct (Hf _ Hin) as (t & Ht & Hrest).
      exists tools, t. split; [right; left; reflexivity|auto].
Qed.

(** C5: a run in which the model never gives a final answer and never
    fails (the log callback never raising and the server starting) ends
    after exactly [max_iter] iterations, as a failure, with one history
    line and one execution-log entry per iteration, numbered [1] to
    [max_iter] in order. *)
Theorem run_agent_budget_exhausted query max_iter w w' tr o :
  answers_ok never_final ->
  exec w (run_agent query max_iter) = (w', tr, o) ->
  exists r, o = Normal r /\ success r = false /\ iterations r = max_iter /\
            length (history r) = max_iter /\ map iteration (execution_log r) = seq 1 max_iter.
Proof.
  intros Hok E.
  assert (Hp : paths never_final any_event (exhausted max_iter) (fun _ => False) (run_agent query max_iter)).
  { unfold run_agent, run_agent_with, log, fail_out.
    solve_prog ltac:(first [ never_final_leaf
                           | match goal with H : never_final (EvConnect (inl _)) |- _ =>
                               destruct H as (? & ?); discriminate end
                           | apply loop_never_final; reflexivity ]). }
  destruct (paths_exec _ _ _ _ _ _ _ _ _ Hok Hp E) as (_ & Hn & He).
  destruct o as [r|e]; [|destruct (He e eq_refl)]. exists r. split; [reflexivity|]. exact (Hn r eq_refl).
Qed.

(** C6: when every model call is rate limited, each wait uses up one
    iteration: the run calls the model exactly [max_iter] times and ends
    as a failure after [max_iter] iterations with an empty history and an
    empty execution log. *)
Theorem run_agent_rate_limited query max_iter w w' tr o :
  answers_ok always_throttled ->
  exec w (run_agent query max_iter) = (w', tr, o) ->
  o = Normal {| success := false; result_msg := "Max iterations reached without completing task";
                iterations := max_iter; history := []; execution_log := [] |} /\
  model_calls tr = max_iter.
Proof.
  intros Hok E. destruct Hok as (Hl & Hc & Hg & Hcall).
  destruct (run_agent_prefix query max_iter w w' tr o) as (w0 & tools & tr' & -> & E');
    [intros; apply (Hl _ _ _)|intros w1; exact (Hc w1)|exact E|].
  destruct (loop_throttled _ _ _ _ _ _ _ _ _ _ (conj Hl (conj Hc (conj Hg Hcall))) E') as [-> Hm].
  split; [reflexivity|]. rewrite model_calls_app. cbn. exact Hm.
Qed.

(** The scenario of a tool call whose reply reports a timeout. *)
Definition timeout_scenario (raw : string) (res : CallResult) (ev : Event) : Prop :=
  match ev with
  | EvLog _ _ r => r = None
  | EvGenerate _ g => g = GenText raw
  | EvCall _ _ r => r = inr res
  | _ => True
  end.

(** C7: when the model asks for a known tool, its arguments convert,
    and the tool's reply contains [timeout] in any letter case, the
    iteration records the reply as a failure ([!! name FAILED: ...] in the
    history, status [failed] in its execution-log entry) and the loop
    goes on to the next iteration instead of ending. *)
Theorem iterate_timeout_continues query max_iter tools tools_desc i h x w w' tr o
    raw name params t args res pre post :
  answers_ok (timeout_scenario raw res) ->
  parse_response (strip raw) = ToolInvocation name params ->
  find_tool tools name = Some t ->
  build_args (schema_props (inputSchema t)) params = inr args ->
  lower (result_text res) = pre +++ "timeout" +++ post ->
  exec w (iterate query max_iter tools tools_desc i h x) = (w', tr, o) ->
  o = Normal (Continue (h ++ [failed_entry name (display_text (result_text res))])
                       (x ++ [set_failed (display_text (result_text res)) (new_entry (S i) (strip raw))])).
Proof.
  intros Hok Hparse Hfind Hargs Htime E.
  pose proof (proj1 (timeout_is_failure name _ _ _ Htime)) as Hfail.
  assert (Hp : paths (timeout_scenario raw res) any_event
                 (fun s => s = Continue (h ++ [failed_entry name (display_text (result_text res))])
                      (x ++ [set_failed (display_text (result_text res)) (new_entry (S i) (strip raw))]))
                 (fun _ => False) (iterate query max_iter tools tools_desc i h x)).
  { unfold_iteration. solve_prog ltac:(first [exact I | congruence | rewrite update_last_snoc; congruence]). }
  destruct (paths_exec _ _ _ _ _ _ _ _ _ Hok Hp E) as (_ & Hn & He).
  destruct o as [s|e]; [exact (f_equal Normal (Hn s eq_refl))|destruct (He e eq_refl)].
Qed.

(** C25: the command line never lets an exception escape.  It runs the
    agent with budget 15 on the input line stripped of blanks, or on
    ["Go to google.com and search for hello"] when that is empty; it
    prints the result when the agent returns; when the agent raises it
    prints ["Error: "] and the message, unless the message contains
    ["Shutdown"], and then prints nothing; at end of input it prints the
    [EOFError].  The requests are exactly the agent's. *)
Theorem cli_main_reports w line :
  exec w (cli_main line) =
  match line with
  | None => (w, [], Normal (PrintError "Error: EOF when reading a line"))
  | Some l =>
      let q := if String.eqb (strip l) "" then "Go to google.com and search for hello" else strip l in
      let '(w1, tr, o) := exec w (run_agent q 15) in
      (w1, tr, Normal (match o with
                       | Normal r => PrintResult r
                       | Exception e => if contains "Shutdown" e then NoOutput else PrintError ("Error: " +++ e)
                       end))
  end%string.
Proof.
  destruct line as [l|]; [|reflexivity]. cbn [cli_main]. rewrite exec_handle.
  assert (Hq : (if String.eqb (strip l) "" then "Go to google.com and search for hello" else strip l)%string
               = cli_query l) by reflexivity.
  rewrite Hq. destruct (exec w (run_agent (cli_query l) 15)) as [[w1 tr] [r|e]];
    cbn [exec]; rewrite app_nil_r; reflexivity.
Qed.

End Run.

(** ** Witnesses *)

Section Witnesses.
Local Open Scope string_scope.

Definition evaluate_tool_desc : Tool :=
  {| name := "playwright_evaluate";
     inputSchema := {| properties := Some [("script", {| param_type := Some "string" |})];
                       required := Some ["script"] |} |}.

(** Navigate, one rate-limited attempt, extract the price, a stray
    reply, then the answer. *)
Definition demo_world : Script := {|
  s_connect := inr [navigate_tool; evaluate_tool_desc];
  s_replies := [GenText "TOOL_CALL: playwright_navigate | https://amazon.com";
                GenError "429 RESOURCE_EXHAUSTED";
                GenText "TOOL_CALL: playwright_evaluate | document.querySelector('.a-price-whole')?.textContent";
                GenText "Thinking about it.";
                GenText "FINAL_ANSWER: The price is $1,299.00"];
  s_results := [inr (WithContent (ContentList [TextItem "Navigated to https://amazon.com"]));
                inr (WithContent (ContentList [TextItem "1,299"]))] |}.

Lemma run_agent_session_witness :
  let '(w', tr, o) := exec demo_world (run_agent "Find the price of a MacBook" 10) in
  (exists e, tr = [EvLog Info LStarting (Some e)] /\ o = Exception e) \/
  (exists r mid, tr = EvLog Info LStarting None :: EvConnect r :: (mid ++ [EvDisconnect])%list /\
                 Forall session_free mid).
Proof.
  destruct (exec demo_world (run_agent "Find the price of a MacBook" 10)) as [[w' tr] o] eqn:E.
  exact (run_agent_session _ _ _ _ _ _ E).
Defined.

Lemma run_agent_model_calls_witness :
  let '(w', tr, o) := exec demo_world (run_agent "Find the price of a MacBook" 3) in model_calls tr <= 3.
Proof.
  destruct (exec demo_world (run_agent "Find the price of a MacBook" 3)) as [[w' tr] o] eqn:E.
  exact (run_agent_model_calls _ _ _ _ _ _ E).
Defined.

Lemma run_agent_result_bounds_witness :
  let '(w', tr, o) := exec demo_world (run_agent "Find the price of a MacBook" 10) in
  match o with Normal r => result_bounds 10 r | Exception _ => True end.
Proof.
  destruct (exec demo_world (run_agent "Find the price of a MacBook" 10)) as [[w' tr] o] eqn:E.
  destruct o as [r|e]; [exact (run_agent_result_bounds _ _ _ _ _ _ E)|exact I].
Defined.

Lemma run_agent_calls_in_catalog_witness :
  let '(w', tr, o) := exec demo_world (run_agent "Find the price of a MacBook" 10) in
  forall n a r, In (EvCall n a r) tr ->
  exists tools t, In (EvConnect (inr tools)) tr /\ find_tool tools n = Some t /\
                  exists rest, map fst (schema_props (inputSchema t)) = (map fst a ++ rest)%list.
Proof.
  destruct (exec demo_world (run_agent "Find the price of a MacBook" 10)) as [[w' tr] o] eqn:E.
  exact (run_agent_calls_in_catalog _ _ _ _ _ _ E).
Defined.

Definition idle_env : AgentEnv unit :=
  const_env (inr [navigate_tool]) (GenText "Let me look at the page first.") (inr (WithoutContent "")).

Lemma run_agent_budget_exhausted_witness :
  let '(w', tr, o) := @exec unit idle_env _ tt (run_agent "Find the price" 5) in
  exists r, o = Normal r /\ success r = false /\ iterations r = 5 /\
            length (history r) = 5 /\ map iteration (execution_log r) = seq 1 5.
Proof.
  destruct (@exec unit idle_env _ tt (run_agent "Find the price" 5)) as [[w' tr] o] eqn:E.
  refine (@run_agent_budget_exhausted unit idle_env _ _ _ _ _ _ _ E).
  repeat split; intros; cbn; eauto.
  exists "Let me look at the page first.". split; [reflexivity|]. intros a Ha. vm_compute in Ha. discriminate.
Defined.

Definition throttled_env : AgentEnv unit :=
  const_env (inr [navigate_tool]) (GenError "429 RESOURCE_EXHAUSTED: quota exceeded") (inr (WithoutContent "")).

Lemma run_agent_rate_limited_witness :
  let '(w', tr, o) := @exec unit throttled_env _ tt (run_agent "Find the price" 5) in
  o = Normal {| success := false; result_msg := "Max iterations reached without completing task";
                iterations := 5; history := []; execution_log := [] |} /\ model_calls tr = 5.
Proof.
  destruct (@exec unit throttled_env _ tt (run_agent "Find the price" 5)) as [[w' tr] o] eqn:E.
  refine (@run_agent_rate_limited unit throttled_env _ _ _ _ _ _ _ E).
  repeat split; intros; cbn; eauto.
Defined.

Definition timeout_reply : CallResult := WithContent (ContentList [TextItem "Timeout 30000ms exceeded"]).
Definition timeout_call : string := "TOOL_CALL: playwright_navigate | https://example.com".
Definition timeout_env : AgentEnv unit := const_env (inr [navigate_tool]) (GenText timeout_call) (inr timeout_reply).

Lemma iterate_timeout_continues_witness :
  let '(w', tr, o) := @exec unit timeout_env _ tt (iterate "Open the page" 5 [navigate_tool] "" 0 [] []) in
  o = Normal (Continue ([] ++ [failed_entry "playwright_navigate" (display_text (result_text timeout_reply))])%list
                       ([] ++ [set_failed (display_text (result_text timeout_reply)) (new_entry 1 (strip timeout_call))])%list).
Proof.
  destruct (@exec unit timeout_env _ tt (iterate "Open the page" 5 [navigate_tool] "" 0 [] [])) as [[w' tr] o] eqn:E.
  refine (@iterate_timeout_continues unit timeout_env "Open the page" 5 [navigate_tool] "" 0 [] [] tt w' tr o
            timeout_call "playwright_navigate"
            ["https://example.com"] navigate_tool _ timeout_reply "" " 30000ms exceeded" _ eq_refl eq_refl eq_refl eq_refl E).
  repeat split; intros; cbn; eauto.
Defined.

(** The MCP server shuts down while connecting; the input line is blank. *)
Definition shutdown_env : AgentEnv unit := const_env (inl "Shutdown") (GenText "") (inl (Raised "")).

Lemma cli_main_reports_witness :
  @exec unit shutdown_env _ tt (cli_main (Some "   ")) =
  (tt, [EvLog Info LStarting None; EvConnect (inl "Shutdown"); EvDisconnect], Normal NoOutput).
Proof. rewrite cli_main_reports. vm_compute. reflexivity. Defined.

Lemma run_agent_requests_bound_witness :
  let '(w', tr, o) := exec demo_world (run_agent "Find the price of a MacBook" 3) in length tr <= 8 * 3 + 6.
Proof.
  destruct (exec demo_world (run_agent "Find the price of a MacBook" 3)) as [[w' tr] o] eqn:E.
  exact (run_agent_requests_bound _ _ _ _ _ _ E).
Defined.

(** The bound is reached: every tool succeeds, the log of its output
    raises and the exception log does not, on every iteration. *)
Definition output_log_raises_env : AgentEnv unit := {|
  env_log w _ m := (w, match m with LToolOutput _ => Some "log failed" | _ => None end);
  env_connect w := (w, inr [navigate_tool]);
  env_generate w _ := (w, GenText "TOOL_CALL: playwright_navigate | https://example.com");
  env_call w _ _ := (w, inr (WithoutContent "Navigated"));
  env_sleep w _ := w;
  env_disconnect w := w
|}.

Lemma run_agent_requests_reached :
  let '(_, tr, _) := @exec unit output_log_raises_env _ tt (run_agent "Open the page" 2) in length tr = 8 * 2 + 6.
Proof. vm_compute. reflexivity. Qed.

End Witnesses.

End Agent.
