(* ===== verification/Registry.v ===== *)
(** * The task registry: an insertion-ordered Python [dict]

    src/main.py keeps its tasks in the module-level [tasks: Dict[str, dict]]
    (line 26).  A Python dict remembers insertion order: [tasks.values()]
    (lines 151, 172-175) lists the records in the order their keys were
    first inserted, re-assigning an existing key keeps its place, and a
    deleted key re-inserted goes to the end.  The dict is therefore an
    association list here, with the operations main.py applies to it:
    [d[k] = v] ([dict_set]), [k in d] ([dict_mem]), [d[k]] ([dict_get],
    [None] being the [KeyError]), [d[k][f] = v] on the record stored under
    [k] ([dict_modify]), [del d[k]] ([dict_del]) and [d.values()].

    The abstract view is stdpp's [gmap]: [to_map] forgets the order, and
    the refinement lemmas show each operation acts on it as the
    corresponding finite-map operation, under the invariant [dict_wf]
    (no key twice) that every operation preserves. *)

From S2P Require Import Prelude.
From stdpp Require Import base gmap strings.

Module Registry.

Section Dict.

Context {V : Type}.

Definition Dict := list (string * V).

(** [d.get(k)]; [None] is the [KeyError] of [d[k]]. *)
Fixpoint dict_get (k : string) (d : Dict) : option V :=
  match d with
  | [] => None
  | (k', v) :: d' => if String.eqb k' k then Some v else dict_get k d'
  end.

(** [k in d] *)
Definition dict_mem (k : string) (d : Dict) : bool :=
  match dict_get k d with Some _ => true | None => false end.

(** The value under an existing key replaced, in place. *)
Fixpoint dict_replace (k : string) (v : V) (d : Dict) : Dict :=
  match d with
  | [] => []
  | (k', v') :: d' => if String.eqb k' k then (k, v) :: d' else (k', v') :: dict_replace k v d'
  end.

(** [d[k] = v]: in place for an existing key, at the end for a new one. *)
Definition dict_set (k : string) (v : V) (d : Dict) : Dict :=
  if dict_mem k d then dict_replace k v d else d ++ [(k, v)].

(** [del d[k]] on a key the caller has checked is present. *)
Fixpoint dict_del (k : string) (d : Dict) : Dict :=
  match d with
  | [] => []
  | (k', v') :: d' => if String.eqb k' k then d' else (k', v') :: dict_del k d'
  end.

(** [d[k][field] = value] on the mutable record under [k]: [None] is the
    [KeyError] of a missing key, and nothing is written then. *)
Definition dict_modify (k : string) (f : V -> V) (d : Dict) : option Dict :=
  match dict_get k d with
  | None => None
  | Some v => Some (dict_replace k (f v) d)
  end.

(** Several assignments [d[k][f1] = v1; d[k][f2] = v2; ...] in turn,
    stopping at the first [KeyError]. *)
Definition dict_modify_seq (k : string) (fs : list (V -> V)) (d : Dict) : option Dict :=
  fold_left (fun od f => match od with Some d' => dict_modify k f d' | None => None end) fs (Some d).

(** [d.values()] and [len(d)] *)
Definition dict_values (d : Dict) : list V := List.map snd d.
Definition dict_keys (d : Dict) : list string := List.map fst d.

(** No key twice: what a Python dict guarantees. *)
Definition dict_wf (d : Dict) : Prop := NoDup (dict_keys d).

(** The abstract view: the finite map, order forgotten. *)
Definition to_map (d : Dict) : gmap string V := list_to_map d.

End Dict.

Arguments Dict : clear implicits.

(** ** Laws of the dict operations *)

Section Laws.

Context {V : Type}.
Implicit Types (d : Dict V) (k : string) (v : V).

Lemma dict_mem_get k d : dict_mem k d = true <-> exists v, dict_get k d = Some v.
Proof. unfold dict_mem. destruct (dict_get k d); split; intros H; [eauto|reflexivity|discriminate|destruct H; discriminate]. Qed.

Lemma dict_mem_false k d : dict_mem k d = false <-> dict_get k d = None.
Proof. unfold dict_mem. destruct (dict_get k d); split; congruence. Qed.

Lemma dict_get_In k v d : dict_get k d = Some v -> In k (dict_keys d).
Proof.
  induction d as [|[k' v'] d IH]; cbn; [discriminate|].
  destruct (String.eqb_spec k' k); auto.
Qed.

Lemma dict_keys_cons (kv : string * V) d : dict_keys (kv :: d) = fst kv :: dict_keys d.
Proof. reflexivity. Qed.

Lemma dict_keys_In k d : In k (dict_keys d) -> exists v, dict_get k d = Some v.
Proof.
  unfold dict_keys. induction d as [|[k0 v0] d IH]; cbn; [tauto|].
  destruct (String.eqb_spec k0 k); [eauto|]. intros [->|H]; [congruence|auto].
Qed.

Lemma dict_get_notin k d : ~ In k (dict_keys d) -> dict_get k d = None.
Proof. destruct (dict_get k d) eqn:E; [|reflexivity]. intros H. destruct H. eapply dict_get_In; eauto. Qed.

Lemma dict_keys_replace k v d : dict_keys (dict_replace k v d) = dict_keys d.
Proof.
  unfold dict_keys. induction d as [|[k' v'] d IH]; cbn; [reflexivity|].
  destruct (String.eqb_spec k' k) as [->|_]; cbn; [reflexivity|now rewrite IH].
Qed.

Lemma dict_get_replace k k' v d :
  dict_get k' (dict_replace k v d) =
  if String.eqb k k' then (if dict_mem k d then Some v else None) else dict_get k' d.
Proof.
  unfold dict_mem. induction d as [|[k0 v0] d IH]; cbn.
  - destruct (String.eqb k k'); reflexivity.
  - destruct (String.eqb_spec k0 k) as [->|Hne]; cbn.
    + destruct (String.eqb_spec k k'); reflexivity.
    + rewrite IH. destruct (String.eqb_spec k0 k'), (String.eqb_spec k k'); congruence.
Qed.

Lemma dict_get_snoc k k' v d :
  dict_get k' (d ++ [(k, v)]) = match dict_get k' d with Some x => Some x | None => if String.eqb k k' then Some v else None end.
Proof.
  induction d as [|[k0 v0] d IH]; cbn; [reflexivity|].
  destruct (String.eqb k0 k'); auto.
Qed.

(** [d[k] = v] as seen by every later [d.get(k')]. *)
Lemma dict_get_set k k' v d : dict_get k' (dict_set k v d) = if String.eqb k k' then Some v else dict_get k' d.
Proof.
  unfold dict_set. destruct (dict_mem k d) eqn:Hm.
  - rewrite dict_get_replace, Hm. reflexivity.
  - rewrite dict_get_snoc. apply dict_mem_false in Hm.
    destruct (String.eqb_spec k k') as [->|_]; [now rewrite Hm|]. now destruct (dict_get k' d).
Qed.

Lemma dict_get_del k k' d :
  dict_wf d -> dict_get k' (dict_del k d) = if String.eqb k k' then None else dict_get k' d.
Proof.
  unfold dict_wf. induction d as [|[k0 v0] d IH]; cbn; intros Hwf.
  - destruct (String.eqb k k'); reflexivity.
  - apply NoDup_cons in Hwf as [Hn Hwf]. destruct (String.eqb_spec k0 k) as [->|Hne].
    + destruct (String.eqb_spec k k') as [<-|]; [|reflexivity].
      apply dict_get_notin. intros Hin. now apply Hn, list_elem_of_In.
    + cbn. rewrite IH by exact Hwf. destruct (String.eqb_spec k0 k'), (String.eqb_spec k k'); congruence.
Qed.

Lemma dict_get_modify k k' f d d' :
  dict_modify k f d = Some d' -> dict_get k' d' = if String.eqb k k' then option_map f (dict_get k d) else dict_get k' d.
Proof.
  unfold dict_modify. destruct (dict_get k d) as [v|] eqn:E; [|discriminate]. intros [= <-].
  rewrite dict_get_replace. unfold dict_mem. rewrite E. reflexivity.
Qed.

Lemma dict_modify_none k f d : dict_modify k f d = None <-> dict_get k d = None.
Proof. unfold dict_modify. destruct (dict_get k d); split; congruence. Qed.

Lemma dict_keys_modify k f d d' : dict_modify k f d = Some d' -> dict_keys d' = dict_keys d.
Proof. unfold dict_modify. destruct (dict_get k d); [intros [= <-]; apply dict_keys_replace|discriminate]. Qed.

(** Insertion order: a new key goes to the end, an existing one keeps its place. *)
Lemma dict_keys_set k v d :
  dict_keys (dict_set k v d) = if dict_mem k d then dict_keys d else dict_keys d ++ [k].
Proof.
  unfold dict_set. destruct (dict_mem k d); [apply dict_keys_replace|].
  unfold dict_keys. now rewrite List.map_app.
Qed.

Lemma dict_keys_del k d : exists pre post, dict_keys d = pre ++ post /\
  dict_keys (dict_del k d) = pre ++ List.tl post.
Proof.
  unfold dict_keys. induction d as [|[k0 v0] d (pre & post & E1 & E2)]; cbn; [exists [], []; auto|].
  destruct (String.eqb k0 k); [exists [], (k0 :: List.map fst d); auto|].
  exists (k0 :: pre), post. cbn. rewrite E1, E2. auto.
Qed.

(** ** The invariant *)

Lemma dict_wf_set k v d : dict_wf d -> dict_wf (dict_set k v d).
Proof.
  unfold dict_wf. rewrite dict_keys_set. destruct (dict_mem k d) eqn:Hm; [auto|].
  intros Hwf. apply NoDup_app. split; [exact Hwf|]. split; [|apply NoDup_singleton].
  intros x Hx ->%list_elem_of_singleton. apply list_elem_of_In, dict_keys_In in Hx as [v' Hv].
  apply dict_mem_false in Hm. congruence.
Qed.

Lemma dict_wf_del k d : dict_wf d -> dict_wf (dict_del k d).
Proof.
  unfold dict_wf. induction d as [|[k0 v0] d IH]; [auto|].
  cbn [dict_del]. rewrite dict_keys_cons. intros [Hn Hwf]%NoDup_cons.
  destruct (String.eqb k0 k); [exact Hwf|].
  rewrite dict_keys_cons. apply NoDup_cons. split; [|auto].
  intros Hin. apply Hn. destruct (dict_keys_del k d) as (pre & post & E1 & E2).
  rewrite E1. rewrite E2 in Hin. apply elem_of_app in Hin as [?|?]; apply elem_of_app; [left; auto|right].
  destruct post; [inversion H|]. now right.
Qed.

Lemma dict_wf_modify k f d d' : dict_wf d -> dict_modify k f d = Some d' -> dict_wf d'.
Proof. unfold dict_wf. intros Hwf E. now rewrite (dict_keys_modify _ _ _ _ E). Qed.

Lemma dict_replace_replace k v v' d : dict_replace k v (dict_replace k v' d) = dict_replace k v d.
Proof.
  induction d as [|[k0 v0] d IH]; cbn; [reflexivity|].
  destruct (String.eqb_spec k0 k) as [->|Hne]; cbn; [now rewrite String.eqb_refl|].
  destruct (String.eqb_spec k0 k); [congruence|]. now rewrite IH.
Qed.

(** The functions applied in turn. *)
Definition apply_seq (fs : list (V -> V)) (v : V) : V := fold_left (fun v f => f v) fs v.

Lemma dict_modify_seq_none_acc k fs :
  fold_left (fun od f => match od with Some d' => dict_modify k f d' | None => None end) fs (None : option (Dict V)) = None.
Proof. induction fs; cbn; auto. Qed.

Lemma dict_modify_seq_acc k fs v d :
  dict_mem k d = true ->
  fold_left (fun od f => match od with Some d' => dict_modify k f d' | None => None end) fs
            (Some (dict_replace k v d)) = Some (dict_replace k (apply_seq fs v) d).
Proof.
  revert v. induction fs as [|f fs IH]; intros v Hm; [reflexivity|]. cbn.
  unfold dict_modify. rewrite dict_get_replace, String.eqb_refl, Hm.
  rewrite dict_replace_replace. apply IH, Hm.
Qed.

(** A non-empty sequence of assignments to an existing key rewrites its
    value once, in place; on a missing key nothing is written. *)
Lemma dict_modify_seq_spec k f fs d :
  dict_modify_seq k (f :: fs) d =
  match dict_get k d with None => None | Some v => Some (dict_replace k (apply_seq (f :: fs) v) d) end.
Proof.
  unfold dict_modify_seq. cbn. unfold dict_modify at 2. destruct (dict_get k d) as [v|] eqn:Hv.
  - apply dict_modify_seq_acc. unfold dict_mem. now rewrite Hv.
  - apply dict_modify_seq_none_acc.
Qed.

Lemma dict_get_modify_seq k k' f fs d d' :
  dict_modify_seq k (f :: fs) d = Some d' ->
  dict_get k' d' = if String.eqb k k' then option_map (apply_seq (f :: fs)) (dict_get k d) else dict_get k' d.
Proof.
  rewrite dict_modify_seq_spec. destruct (dict_get k d) as [v|] eqn:Hv; [|discriminate]. intros [= <-].
  rewrite dict_get_replace. unfold dict_mem. now rewrite Hv.
Qed.

Lemma dict_modify_seq_none k f fs d : dict_modify_seq k (f :: fs) d = None <-> dict_get k d = None.
Proof. rewrite dict_modify_seq_spec. destruct (dict_get k d); split; congruence. Qed.

Lemma dict_wf_modify_seq k f fs d d' : dict_wf d -> dict_modify_seq k (f :: fs) d = Some d' -> dict_wf d'.
Proof.
  unfold dict_wf. rewrite dict_modify_seq_spec. destruct (dict_get k d); [|discriminate].
  intros Hwf [= <-]. now rewrite dict_keys_replace.
Qed.

(** The registry after the assignments, whether or not they raised. *)
Lemma dict_get_modify_seq_or k k' f fs d :
  dict_get k' (match dict_modify_seq k (f :: fs) d with Some d' => d' | None => d end) =
  if String.eqb k k' then option_map (apply_seq (f :: fs)) (dict_get k d) else dict_get k' d.
Proof.
  destruct (dict_modify_seq k (f :: fs) d) eqn:E; [exact (dict_get_modify_seq _ _ _ _ _ _ E)|].
  apply dict_modify_seq_none in E. destruct (String.eqb_spec k k') as [<-|_]; [now rewrite E|reflexivity].
Qed.

Lemma dict_wf_modify_seq_or k f fs d :
  dict_wf d -> dict_wf (match dict_modify_seq k (f :: fs) d with Some d' => d' | None => d end).
Proof. intros Hwf. destruct (dict_modify_seq k (f :: fs) d) eqn:E; [exact (dict_wf_modify_seq _ _ _ _ _ Hwf E)|exact Hwf]. Qed.

End Laws.

(** ** Refinement of the finite map *)

Section Refinement.

Context {V : Type}.
Implicit Types (d : Dict V) (k : string) (v : V).

(** The two key comparisons, [String.eqb] and stdpp's [decide], decided together. *)
Ltac case_key k j :=
  destruct (decide (k = j)) as [<-|Hne];
  [rewrite ?String.eqb_refl | rewrite ?(proj2 (String.eqb_neq k j) Hne)].

Lemma to_map_lookup k d : to_map d !! k = dict_get k d.
Proof.
  unfold to_map. induction d as [|[k0 v0] d IH]; [reflexivity|].
  rewrite list_to_map_cons, lookup_insert. cbn.
  destruct (String.eqb_spec k0 k), (decide (k0 = k)); congruence.
Qed.

(** Finite maps agree when every [d.get] does. *)
Lemma to_map_ext d1 d2 : (forall k, dict_get k d1 = dict_get k d2) -> to_map d1 = to_map d2.
Proof. intros H. apply map_eq. intros k. rewrite !to_map_lookup. apply H. Qed.

Lemma to_map_set k v d : to_map (dict_set k v d) = <[k:=v]> (to_map d).
Proof.
  apply map_eq. intros j. rewrite lookup_insert, !to_map_lookup, dict_get_set.
  now case_key k j.
Qed.

Lemma to_map_del k d : dict_wf d -> to_map (dict_del k d) = delete k (to_map d).
Proof.
  intros Hwf. apply map_eq. intros j. rewrite lookup_delete, !to_map_lookup, dict_get_del by exact Hwf.
  now case_key k j.
Qed.

Lemma to_map_modify k f d d' : dict_modify k f d = Some d' -> to_map d' = alter f k (to_map d).
Proof.
  intros E. apply map_eq. intros j. rewrite lookup_alter, !to_map_lookup, (dict_get_modify _ _ _ _ _ E).
  case_key k j; reflexivity.
Qed.

Lemma to_map_modify_seq k f fs d d' :
  dict_modify_seq k (f :: fs) d = Some d' -> to_map d' = alter (apply_seq (f :: fs)) k (to_map d).
Proof.
  intros E. apply map_eq. intros j. rewrite lookup_alter, !to_map_lookup, (dict_get_modify_seq _ _ _ _ _ _ E).
  case_key k j; reflexivity.
Qed.

End Refinement.

#[export] Hint Resolve dict_wf_set dict_wf_del dict_wf_modify : agent.

End Registry.
