(* ===== verification/TaskManager.v ===== *)
(** * The task lifecycle manager: src/main.py

    The HTTP handlers of main.py act on the registry [tasks]
    ([Registry]); [run_automation_task] (lines 61-90) is the background
    coroutine each submission schedules, and it awaits [run_agent]
    ([Agent]).  The server is a transition system: a state holds the
    registry, the background coroutines not yet finished (keyed by
    their task id) and, as ghost state, the ids [uuid4] has handed out.
    A step is one handler call, or one request of one background
    coroutine: a log call, answered by [log_callback] on the registry,
    or an await point, answered by the world.  Coroutines interleave
    with each other and with the handlers at every request (a superset
    of asyncio's schedules, which switch at awaits only).

    A write [tasks[task_id][f] = v] to a deleted task raises [KeyError]:
    [Registry.dict_modify] returns [None] and nothing is written. *)

From S2P Require Import Prelude PyStr Catalog Coercion Outcome Prog Agent Registry.
From stdpp Require Import base list gmap strings.
Import PyStr Catalog Coercion Outcome Prog Agent Registry.
Local Open Scope agent_scope.

Module TaskManager.

(** ** The records *)

Inductive TaskStatus := Pending | Running | Completed | Failed.

(** The value of the ["status"] key. *)
Definition status_str (s : TaskStatus) : string :=
  match s with
  | Pending => "pending" | Running => "running" | Completed => "completed" | Failed => "failed"
  end.

(** An entry of ["logs"] (lines 67-71); the message is kept as the data
    of the f-string that [run_agent] logs. *)
Record LogEntry := { timestamp : string; level : Level; message : LogMsg }.

(** The dict of lines 119-131. *)
Record TaskRecord := {
  task_id : string;
  goal : string;
  status : TaskStatus;
  result : option string;
  error : option string;
  started_at : option string;
  completed_at : option string;
  iterations_used : option nat;
  history : option (list string);
  execution_log : option (list ExecEntry);
  logs : list LogEntry
}.

(** [AutomationRequest] (lines 28-41) after pydantic has filled in the
    default: [max_iterations] is [Optional[int]], so [null] is accepted. *)
Record AutomationRequest := { req_goal : string; max_iterations : option Z }.

(** [Field(15, ge=5, le=30)]: the bounds apply to an [int], not to [None]. *)
Definition request_valid (r : AutomationRequest) : bool :=
  match max_iterations r with None => true | Some n => (5 <=? n)%Z && (n <=? 30)%Z end.

Record TaskResponse := { resp_task_id : string; resp_status : string; resp_message : string }.

Inductive HttpError := HTTPException (status_code : Z) (detail : string).

Definition not_found : HttpError := HTTPException 404 "Task not found".

(** ** Record updates: one per assignment [tasks[task_id][key] = value] *)

Definition with_status (s : TaskStatus) (t : TaskRecord) : TaskRecord :=
  {| task_id := task_id t; goal := goal t; status := s; result := result t; error := error t;
     started_at := started_at t; completed_at := completed_at t; iterations_used := iterations_used t;
     history := history t; execution_log := execution_log t; logs := logs t |}.

Definition with_result (r : option string) (t : TaskRecord) : TaskRecord :=
  {| task_id := task_id t; goal := goal t; status := status t; result := r; error := error t;
     started_at := started_at t; completed_at := completed_at t; iterations_used := iterations_used t;
     history := history t; execution_log := execution_log t; logs := logs t |}.

Definition with_error (e : option string) (t : TaskRecord) : TaskRecord :=
  {| task_id := task_id t; goal := goal t; status := status t; result := result t; error := e;
     started_at := started_at t; completed_at := completed_at t; iterations_used := iterations_used t;
     history := history t; execution_log := execution_log t; logs := logs t |}.

Definition with_started_at (ts : option string) (t : TaskRecord) : TaskRecord :=
  {| task_id := task_id t; goal := goal t; status := status t; result := result t; error := error t;
     started_at := ts; completed_at := completed_at t; iterations_used := iterations_used t;
     history := history t; execution_log := execution_log t; logs := logs t |}.

Definition with_completed_at (ts : option string) (t : TaskRecord) : TaskRecord :=
  {| task_id := task_id t; goal := goal t; status := status t; result := result t; error := error t;
     started_at := started_at t; completed_at := ts; iterations_used := iterations_used t;
     history := history t; execution_log := execution_log t; logs := logs t |}.

Definition with_iterations_used (n : option nat) (t : TaskRecord) : TaskRecord :=
  {| task_id := task_id t; goal := goal t; status := status t; result := result t; error := error t;
     started_at := started_at t; completed_at := completed_at t; iterations_used := n;
     history := history t; execution_log := execution_log t; logs := logs t |}.

Definition with_history (h : option (list string)) (t : TaskRecord) : TaskRecord :=
  {| task_id := task_id t; goal := goal t; status := status t; result := result t; error := error t;
     started_at := started_at t; completed_at := completed_at t; iterations_used := iterations_used t;
     history := h; execution_log := execution_log t; logs := logs t |}.

Definition with_execution_log (x : option (list ExecEntry)) (t : TaskRecord) : TaskRecord :=
  {| task_id := task_id t; goal := goal t; status := status t; result := result t; error := error t;
     started_at := started_at t; completed_at := completed_at t; iterations_used := iterations_used t;
     history := history t; execution_log := x; logs := logs t |}.

Definition with_logs (l : list LogEntry) (t : TaskRecord) : TaskRecord :=
  {| task_id := task_id t; goal := goal t; status := status t; result := result t; error := error t;
     started_at := started_at t; completed_at := completed_at t; iterations_used := iterations_used t;
     history := history t; execution_log := execution_log t; logs := l |}.

(** ** The registry operations of the background coroutine *)

Abbreviation Tasks := (Dict TaskRecord).

(** The append of lines 67-71. *)
Definition add_log (now : string) (lvl : Level) (msg : LogMsg) (t : TaskRecord) : TaskRecord :=
  with_logs (logs t ++ [{| timestamp := now; level := lvl; message := msg |}]) t.

(** [log_callback] (lines 64-71): [tasks[task_id]] raises [KeyError],
    whose [str] is the key's [repr], once the task is deleted.  The record
    always has a ["logs"] key, so the test of line 65 never fires. *)
Definition log_callback (id now : string) (lvl : Level) (msg : LogMsg) (d : Tasks) : option string * Tasks :=
  match dict_modify_seq id [add_log now lvl msg] d with
  | None => (Some (py_repr id), d)
  | Some d' => (None, d')
  end.

(** Lines 62, 74 and 75, before the first await. *)
Definition start_updates (now : string) : list (TaskRecord -> TaskRecord) :=
  [with_logs []; with_status Running; with_started_at (Some now)].

Definition start_task (id now : string) (d : Tasks) : option Tasks :=
  dict_modify_seq id (start_updates now) d.

(** Lines 80-85: the agent returned [r]. *)
Definition complete_updates (now : string) (r : AgentResult) : list (TaskRecord -> TaskRecord) :=
  [with_status (if Agent.success r then Completed else Failed);
   with_result (Some (result_msg r)); with_iterations_used (Some (iterations r));
   with_history (Some (Agent.history r)); with_execution_log (Some (Agent.execution_log r));
   with_completed_at (Some now)].

Definition complete_task (id now : string) (r : AgentResult) (d : Tasks) : option Tasks :=
  dict_modify_seq id (complete_updates now r) d.

(** Lines 87-90: the agent raised [e].  A [KeyError] of lines 80-85 lands
    here too, and raises again at line 88. *)
Definition fail_updates (now e : string) : list (TaskRecord -> TaskRecord) :=
  [with_status Failed; with_error (Some e); with_completed_at (Some now)].

Definition fail_task (id now e : string) (d : Tasks) : option Tasks :=
  dict_modify_seq id (fail_updates now e) d.

(** ** The server state *)

(** A background coroutine: scheduled by [background_tasks.add_task]
    (line 134) and not yet started, or suspended inside [run_agent]. *)
Inductive Proc :=
| Scheduled (goal : string) (max_iterations : option nat)
| Awaiting (max_iterations : option nat) (p : prog AgentResult).

Record Sys := {
  tasks : Tasks;
  procs : Dict Proc;
  issued : list string     (** the ids [uuid4()] returned so far *)
}.

Definition init : Sys := {| tasks := []; procs := []; issued := [] |}.

(** The new record of lines 119-131. *)
Definition pending_record (id g : string) : TaskRecord :=
  {| task_id := id; goal := g; status := Pending; result := None; error := None;
     started_at := None; completed_at := None; iterations_used := None;
     history := None; execution_log := None; logs := [] |}.

(** ** The handlers *)

(** [create_automation_task] (lines 115-136), given the [uuid4] value [id]. *)
Definition create_automation_task (id : string) (req : AutomationRequest) (s : Sys) : TaskResponse * Sys :=
  let mi := option_map Z.to_nat (max_iterations req) in
  ({| resp_task_id := id; resp_status := "pending";
      resp_message := "Task submitted successfully. Check status at /task/" +++ id |},
   {| tasks := dict_set id (pending_record id (req_goal req)) (tasks s);
      procs := dict_set id (Scheduled (req_goal req) mi) (procs s);
      issued := id :: issued s |}).

(** [get_task_status] (lines 138-145) *)
Definition get_task_status (id : string) (s : Sys) : HttpError + TaskRecord :=
  match dict_get id (tasks s) with None => inl not_found | Some t => inr t end.

(** [xs[:n]] for any [int] [n]. *)
Definition py_slice_to {A} (n : Z) (xs : list A) : list A :=
  if (0 <=? n)%Z then firstn (Z.to_nat n) xs else firstn (length xs - Z.to_nat (- n)) xs.

Record TaskList := { listed : list TaskRecord; total : nat; showing : Z }.

(** [list_tasks] (lines 148-160); [if status:] skips [None] and [""]. *)
Definition list_tasks (limit : Z) (st : option string) (s : Sys) : TaskList :=
  let all := dict_values (tasks s) in
  let filtered := match st with
                  | Some v => if String.eqb v "" then all else List.filter (fun t => String.eqb (status_str (status t)) v) all
                  | None => all
                  end in
  {| listed := py_slice_to limit filtered; total := length filtered;
     showing := Z.min (Z.of_nat (length filtered)) limit |}.

Record Health := {
  gemini_configured : bool; tasks_count : nat;
  n_pending : nat; n_running : nat; n_completed : nat; n_failed : nat }.

Definition count_status (v : string) (d : Tasks) : nat :=
  length (List.filter (fun t => String.eqb (status_str (status t)) v) (dict_values d)).

(** [health_check] (lines 163-177), given [os.getenv("GEMINI_API_KEY")]. *)
Definition health_check (key : option string) (s : Sys) : Health :=
  {| gemini_configured := match key with Some k => negb (String.eqb k "") | None => false end;
     tasks_count := length (tasks s);
     n_pending := count_status "pending" (tasks s); n_running := count_status "running" (tasks s);
     n_completed := count_status "completed" (tasks s); n_failed := count_status "failed" (tasks s) |}.

(** [delete_task] (lines 179-186) *)
Definition delete_task (id : string) (s : Sys) : HttpError + (string * Sys) :=
  if dict_mem id (tasks s) then
    inr ("Task deleted successfully",
         {| tasks := dict_del id (tasks s); procs := procs s; issued := issued s |})
  else inl not_found.

(** The order of the lifecycle: [pending], [running], then a final status. *)
Definition status_rank (s : TaskStatus) : nat :=
  match s with Pending => 0 | Running => 1 | Completed | Failed => 2 end.

(** ** The transition system *)

Inductive Label := LSubmit (id : string) | LDelete (id : string) | LProc (id : string).

(** The await points of [run_agent], where the world answers. *)
Inductive await_step : prog AgentResult -> prog AgentResult -> Prop :=
| aw_connect k r : await_step (Connect k) (k r)
| aw_generate q k g : await_step (Generate q k) (k g)
| aw_call n a k r : await_step (CallTool n a k) (k r)
| aw_sleep secs k : await_step (Sleep secs k) k
| aw_disconnect k : await_step (Disconnect k) k.

Definition proc_set (id : string) (p : Proc) (d : Tasks) (s : Sys) : Sys :=
  {| tasks := d; procs := dict_set id p (procs s); issued := issued s |}.

Definition proc_end (id : string) (d : Tasks) (s : Sys) : Sys :=
  {| tasks := d; procs := dict_del id (procs s); issued := issued s |}.

(** [run_automation_task] up to its first await: a [KeyError] at line
    62 ends the coroutine before anything is written. *)
Definition start_step (id g : string) (mi : option nat) (now : string) (s : Sys) : Sys :=
  match start_task id now (tasks s) with
  | None => proc_end id (tasks s) s
  | Some d => proc_set id (Awaiting mi (run_agent_opt g mi)) d s
  end.

Definition log_step (id : string) (mi : option nat) (lvl : Level) (msg : LogMsg)
    (k : option string -> prog AgentResult) (now : string) (s : Sys) : Sys :=
  let '(r, d) := log_callback id now lvl msg (tasks s) in proc_set id (Awaiting mi (k r)) d s.

(** The server's steps; [now] is the clock's reading. *)
Inductive step : Sys -> Label -> Sys -> Prop :=
| st_submit s id req :
    ~ In id (issued s) -> request_valid req = true ->
    step s (LSubmit id) (snd (create_automation_task id req s))
| st_delete s id :
    step s (LDelete id) (match delete_task id s with inl _ => s | inr (_, s') => s' end)
| st_start s id g mi now :
    dict_get id (procs s) = Some (Scheduled g mi) ->
    step s (LProc id) (start_step id g mi now s)
| st_log s id mi lvl msg k now :
    dict_get id (procs s) = Some (Awaiting mi (Log lvl msg k)) ->
    step s (LProc id) (log_step id mi lvl msg k now s)
| st_await s id mi p p' :
    dict_get id (procs s) = Some (Awaiting mi p) -> await_step p p' ->
    step s (LProc id) (proc_set id (Awaiting mi p') (tasks s) s)
| st_return s id mi r now :
    dict_get id (procs s) = Some (Awaiting mi (Ret r)) ->
    step s (LProc id) (proc_end id (complete_task id now r (tasks s) ?? tasks s) s)
| st_raise s id mi e now :
    dict_get id (procs s) = Some (Awaiting mi (Throw e)) ->
    step s (LProc id) (proc_end id (fail_task id now e (tasks s) ?? tasks s) s).

Inductive reachable : Sys -> Prop :=
| reach_init : reachable init
| reach_step s l s' : reachable s -> step s l s' -> reachable s'.

(** ** An executable scheduler

    A run of the server as a list of actions: a request, or a step of
    one background coroutine with the world's answer at an await point.
    [run_actions] computes the state, and every run it accepts is a run
    of [step]. *)

Inductive Answer :=
| AnsNone
| AnsConnect (r : string + list Tool)
| AnsGenerate (g : GenResult)
| AnsCall (r : PyExc + CallResult).

Inductive Action :=
| ASubmit (id : string) (req : AutomationRequest)
| ADelete (id : string)
| AProc (id now : string) (ans : Answer).

Definition action_label (a : Action) : Label :=
  match a with ASubmit id _ => LSubmit id | ADelete id => LDelete id | AProc id _ _ => LProc id end.

Definition proc_action (id now : string) (ans : Answer) (s : Sys) : option Sys :=
  match dict_get id (procs s) with
  | None => None
  | Some (Scheduled g mi) => Some (start_step id g mi now s)
  | Some (Awaiting mi p) =>
      match p, ans with
      | Log lvl msg k, _ => Some (log_step id mi lvl msg k now s)
      | Connect k, AnsConnect r => Some (proc_set id (Awaiting mi (k r)) (tasks s) s)
      | Generate q k, AnsGenerate g => Some (proc_set id (Awaiting mi (k g)) (tasks s) s)
      | CallTool n a k, AnsCall r => Some (proc_set id (Awaiting mi (k r)) (tasks s) s)
      | Sleep _ k, _ => Some (proc_set id (Awaiting mi k) (tasks s) s)
      | Disconnect k, _ => Some (proc_set id (Awaiting mi k) (tasks s) s)
      | Ret r, _ => Some (proc_end id (complete_task id now r (tasks s) ?? tasks s) s)
      | Throw e, _ => Some (proc_end id (fail_task id now e (tasks s) ?? tasks s) s)
      | _, _ => None
      end
  end.

Definition action_step (a : Action) (s : Sys) : option Sys :=
  match a with
  | ASubmit id req =>
      if existsb (String.eqb id) (issued s) then None
      else if request_valid req then Some (snd (create_automation_task id req s)) else None
  | ADelete id => Some (match delete_task id s with inl _ => s | inr (_, s') => s' end)
  | AProc id now ans => proc_action id now ans s
  end.

Fixpoint run_actions (s : Sys) (acts : list Action) : option Sys :=
  match acts with
  | [] => Some s
  | a :: acts' => match action_step a s with None => None | Some s' => run_actions s' acts' end
  end.

(** ** The invariant *)

(** A budget the API accepts. *)
Definition mi_valid (mi : option nat) : Prop :=
  match mi with Some n => 5 <= n <= 30 | None => True end.

(** What the rest of an agent run may still return. *)
Definition budget_ok (mi : option nat) (p : prog AgentResult) : Prop :=
  match mi with
  | Some n => 5 <= n <= 30 /\ paths any_event any_event (result_bounds n) (fun _ => True) p
  | None => paths any_event any_event (fun _ => False) (fun _ => True) p
  end.

(** A record and the coroutine of its id: the lifecycle of the spec. *)
Definition record_ok (k : string) (t : TaskRecord) (pr : option Proc) : Prop :=
  task_id t = k /\
  match status t with
  | Pending => (exists g mi, pr = Some (Scheduled g mi)) /\ logs t = [] /\
               error t = None /\ iterations_used t = None
  | Running => (exists mi p, pr = Some (Awaiting mi p)) /\ error t = None /\ iterations_used t = None
  | Completed => pr = None /\ error t = None /\
      exists n h x, iterations_used t = Some n /\ history t = Some h /\ execution_log t = Some x /\
                    1 <= n <= 30 /\ length x <= n /\ length h < n
  | Failed => pr = None /\
      ((exists e, error t = Some e) /\ iterations_used t = None \/
       error t = None /\ exists n, iterations_used t = Some n /\ 5 <= n <= 30)
  end.

Definition key_inv (s : Sys) (k : string) : Prop :=
  (dict_mem k (tasks s) = true \/ dict_mem k (procs s) = true -> In k (issued s)) /\
  (forall t, dict_get k (tasks s) = Some t -> record_ok k t (dict_get k (procs s))) /\
  (forall g mi, dict_get k (procs s) = Some (Scheduled g mi) -> mi_valid mi) /\
  (forall mi p, dict_get k (procs s) = Some (Awaiting mi p) -> budget_ok mi p).

Definition inv (s : Sys) : Prop :=
  dict_wf (tasks s) /\ dict_wf (procs s) /\ forall k, key_inv s k.

(** ** Lemmas on the steps *)

Definition label_id (l : Label) : string := match l with LSubmit id | LDelete id | LProc id => id end.

Lemma log_callback_tasks id now lvl msg d :
  snd (log_callback id now lvl msg d) = (dict_modify_seq id [add_log now lvl msg] d ?? d).
Proof. unfold log_callback. now destruct (dict_modify_seq _ _ _). Qed.

Lemma log_step_eq id mi lvl msg k now s :
  exists r, log_step id mi lvl msg k now s =
            proc_set id (Awaiting mi (k r)) (dict_modify_seq id [add_log now lvl msg] (tasks s) ?? tasks s) s.
Proof.
  unfold log_step. rewrite <- log_callback_tasks.
  destruct (log_callback id now lvl msg (tasks s)) as [r d]. now exists r.
Qed.

(** The world's answer at an await point keeps what the run may return. *)
Lemma paths_await (Q : AgentResult -> Prop) X p p' :
  paths any_event any_event Q X p -> await_step p p' -> paths any_event any_event Q X p'.
Proof. intros Hp Ha. destruct Ha; inversion Hp; subst; auto; match goal with H : _ |- _ => apply H; exact I end. Qed.

Lemma paths_log (Q : AgentResult -> Prop) X lvl msg k r :
  paths any_event any_event Q X (Log lvl msg k) -> paths any_event any_event Q X (k r).
Proof. intros Hp. inversion Hp; subst. match goal with H : forall r, any_event _ -> _ |- _ => apply H; exact I end. Qed.

Lemma budget_ok_await mi p p' : budget_ok mi p -> await_step p p' -> budget_ok mi p'.
Proof. destruct mi; cbn; [intros [? ?] ?; split|intros ? ?]; eauto using paths_await. Qed.

Lemma budget_ok_log mi lvl msg k r : budget_ok mi (Log lvl msg k) -> budget_ok mi (k r).
Proof. destruct mi; cbn; [intros [? ?]; split|intros ?]; eauto using paths_log. Qed.

Lemma budget_ok_ret mi r : budget_ok mi (Ret r) -> exists n, mi = Some n /\ 5 <= n <= 30 /\ result_bounds n r.
Proof.
  destruct mi as [n|]; cbn; [intros [? Hp]|intros Hp]; inversion Hp; subst; [|contradiction].
  exists n. auto.
Qed.

Lemma budget_run_agent_opt g mi : mi_valid mi -> budget_ok mi (run_agent_opt g mi).
Proof.
  destruct mi; cbn; [intros H; split; [exact H|apply run_agent_paths_bounds]|intros _; apply run_agent_none_paths].
Qed.

Lemma record_ok_scheduled k t g mi : record_ok k t (Some (Scheduled g mi)) -> status t = Pending.
Proof.
  intros [_ H]. destruct (status t); [reflexivity|..];
    destruct H as [H _]; [destruct H as (? & ? & ?)|..]; discriminate.
Qed.

Lemma record_ok_awaiting k t mi p :
  record_ok k t (Some (Awaiting mi p)) -> task_id t = k /\ status t = Running /\ error t = None /\ iterations_used t = None.
Proof.
  intros [Hid H]. destruct (status t); [..|destruct H as [H _]; discriminate|destruct H as [H _]; discriminate].
  - destruct H as ((? & ? & ?) & _). discriminate.
  - destruct H as (_ & ? & ?). auto.
Qed.

Ltac simpl_sys := cbn [tasks procs issued proc_set proc_end create_automation_task snd fst] in *.

(** Nothing but the entries of the stepping task's id change. *)
Lemma step_frame s l s' k :
  dict_wf (tasks s) -> dict_wf (procs s) -> step s l s' -> k <> label_id l ->
  dict_get k (tasks s') = dict_get k (tasks s) /\ dict_get k (procs s') = dict_get k (procs s) /\
  incl (issued s) (issued s').
Proof.
  intros Ht Hp Hs Hk. assert (Hne : String.eqb (label_id l) k = false) by (apply String.eqb_neq; auto).
  destruct Hs; cbn [label_id] in Hne.
  - simpl_sys. rewrite !dict_get_set, Hne. split; [|split]; [reflexivity|reflexivity|intros x; now right].
  - unfold delete_task. destruct (dict_mem id (tasks s)); simpl_sys; [rewrite dict_get_del, Hne by exact Ht|]; auto using incl_refl.
  - unfold start_step, start_task, start_updates. destruct (dict_modify_seq _ _ _) as [d|] eqn:E; simpl_sys.
    + rewrite (dict_get_modify_seq _ _ _ _ _ _ E), dict_get_set, Hne. auto using incl_refl.
    + rewrite dict_get_del, Hne by exact Hp. auto using incl_refl.
  - destruct (log_step_eq id mi lvl msg k0 now s) as [r ->]. simpl_sys.
    rewrite dict_get_modify_seq_or, dict_get_set, Hne. auto using incl_refl.
  - simpl_sys. rewrite dict_get_set, Hne. auto using incl_refl.
  - simpl_sys. unfold complete_task, complete_updates. rewrite dict_get_modify_seq_or, dict_get_del, Hne by exact Hp. auto using incl_refl.
  - simpl_sys. unfold fail_task, fail_updates. rewrite dict_get_modify_seq_or, dict_get_del, Hne by exact Hp. auto using incl_refl.
Qed.

Lemma step_wf s l s' :
  dict_wf (tasks s) -> dict_wf (procs s) -> step s l s' -> dict_wf (tasks s') /\ dict_wf (procs s').
Proof.
  intros Ht Hp Hs. destruct Hs.
  - simpl_sys. auto with agent.
  - unfold delete_task. destruct (dict_mem id (tasks s)); simpl_sys; auto with agent.
  - unfold start_step, start_task, start_updates. destruct (dict_modify_seq _ _ _) as [d|] eqn:E; simpl_sys;
      [split; [exact (dict_wf_modify_seq _ _ _ _ _ Ht E)|auto with agent]|auto with agent].
  - destruct (log_step_eq id mi lvl msg k now s) as [r ->]. simpl_sys. split; [apply dict_wf_modify_seq_or|]; auto with agent.
  - simpl_sys. auto with agent.
  - simpl_sys. split; [apply dict_wf_modify_seq_or|]; auto with agent.
  - simpl_sys. split; [apply dict_wf_modify_seq_or|]; auto with agent.
Qed.

Lemma key_inv_frame s s' k :
  dict_get k (tasks s') = dict_get k (tasks s) -> dict_get k (procs s') = dict_get k (procs s) ->
  incl (issued s) (issued s') -> key_inv s k -> key_inv s' k.
Proof.
  unfold key_inv, dict_mem. intros Ht Hp Hi (H1 & H2 & H3 & H4). rewrite Ht, Hp.
  split; [intros H; apply Hi, H1, H|auto].
Qed.

Lemma key_inv_gone s k : dict_get k (tasks s) = None -> dict_get k (procs s) = None -> key_inv s k.
Proof. unfold key_inv, dict_mem. intros -> ->. repeat split; intros; try discriminate. destruct H; discriminate. Qed.

Lemma record_running k t pr :
  task_id t = k -> status t = Running -> error t = None -> iterations_used t = None ->
  (exists mi p, pr = Some (Awaiting mi p)) -> record_ok k t pr.
Proof. intros Hid Hst He Hit Hpr. unfold record_ok. rewrite Hst. auto. Qed.

(** The entries of a task's own id after each kind of step. *)

Lemma key_inv_submit s id req :
  inv s -> ~ In id (issued s) -> request_valid req = true -> key_inv (snd (create_automation_task id req s)) id.
Proof.
  intros _ _ Hv. unfold key_inv, dict_mem. simpl_sys. rewrite !dict_get_set, String.eqb_refl.
  split; [intros _; now left|]. split; [|split; [|intros ? ? [=]]].
  - intros t [= <-]. unfold record_ok. cbn. split; [reflexivity|]. split; [eauto|auto].
  - intros g mi [= <- <-]. unfold request_valid in Hv. destruct (max_iterations req) as [n|]; cbn; [|exact I].
    apply andb_prop in Hv as [H1 H2]. apply Z.leb_le in H1, H2. lia.
Qed.

Lemma key_inv_delete s id :
  inv s -> key_inv (match delete_task id s with inl _ => s | inr (_, s') => s' end) id.
Proof.
  intros (Ht & Hp & Hk). unfold delete_task. destruct (dict_mem id (tasks s)) eqn:Hm; [|apply Hk].
  destruct (Hk id) as (Hi & _ & Hsch & Haw). unfold key_inv, dict_mem in *. simpl_sys.
  rewrite dict_get_del, String.eqb_refl by exact Ht.
  split; [intros [H|H]; [discriminate|apply Hi; now right]|]. split; [discriminate|auto].
Qed.

Lemma key_inv_start s id g mi now :
  inv s -> dict_get id (procs s) = Some (Scheduled g mi) -> key_inv (start_step id g mi now s) id.
Proof.
  intros (Ht & Hp & Hk) Hs. destruct (Hk id) as (Hi & Hr & Hsch & _). rewrite Hs in Hr.
  unfold start_step, start_task, start_updates. destruct (dict_modify_seq _ _ _) as [d|] eqn:E.
  - pose proof (dict_get_modify_seq _ id _ _ _ _ E) as Hd. rewrite String.eqb_refl in Hd.
    destruct (dict_get id (tasks s)) as [t|] eqn:Et;
      [|rewrite dict_modify_seq_spec, Et in E; discriminate].
    pose proof (record_ok_scheduled _ _ _ _ (Hr t eq_refl)) as Hst.
    destruct (Hr t eq_refl) as [Hid Hrec]. rewrite Hst in Hrec. destruct Hrec as (_ & _ & He & Hit).
    unfold key_inv, dict_mem. simpl_sys. rewrite dict_get_set, String.eqb_refl, Hd.
    split; [intros _; apply Hi; unfold dict_mem; rewrite Et; now left|].
    split; [|split; [intros ? ? [=]|intros ? ? [= <- <-]; apply budget_run_agent_opt, (Hsch g mi Hs)]].
    intros t' [= <-]. apply record_running; cbn; eauto.
  - apply key_inv_gone; simpl_sys; [|now rewrite dict_get_del, String.eqb_refl].
    apply (dict_modify_seq_none _ _ _ _ ) in E. exact E.
Qed.

Lemma key_inv_log s id mi lvl msg k now :
  inv s -> dict_get id (procs s) = Some (Awaiting mi (Log lvl msg k)) -> key_inv (log_step id mi lvl msg k now s) id.
Proof.
  intros (Ht & Hp & Hk) Hs. destruct (Hk id) as (Hi & Hr & _ & Haw). rewrite Hs in Hr.
  destruct (log_step_eq id mi lvl msg k now s) as [r ->].
  unfold key_inv, dict_mem in *. simpl_sys. rewrite dict_get_modify_seq_or, dict_get_set, String.eqb_refl.
  split; [intros _; apply Hi; right; now rewrite Hs|].
  split; [|split; [intros ? ? [=]|intros ? ? [= <- <-]; exact (budget_ok_log _ _ _ _ _ (Haw _ _ Hs))]].
  destruct (dict_get id (tasks s)) as [t|] eqn:Et; cbn [option_map]; [|discriminate].
  destruct (record_ok_awaiting _ _ _ _ (Hr t eq_refl)) as (Hid & Hst & He & Hit).
  intros t' [= <-]. apply record_running; cbn; eauto.
Qed.

Lemma key_inv_await s id mi p p' :
  inv s -> dict_get id (procs s) = Some (Awaiting mi p) -> await_step p p' ->
  key_inv (proc_set id (Awaiting mi p') (tasks s) s) id.
Proof.
  intros (Ht & Hp & Hk) Hs Ha. destruct (Hk id) as (Hi & Hr & _ & Haw). rewrite Hs in Hr.
  unfold key_inv, dict_mem in *. simpl_sys. rewrite dict_get_set, String.eqb_refl.
  split; [intros _; apply Hi; right; now rewrite Hs|].
  split; [|split; [intros ? ? [=]|intros ? ? [= <- <-]; exact (budget_ok_await _ _ _ (Haw _ _ Hs) Ha)]].
  intros t Et. destruct (record_ok_awaiting _ _ _ _ (Hr t Et)) as (Hid & Hst & He & Hit).
  apply record_running; eauto.
Qed.

Lemma key_inv_return s id mi r now :
  inv s -> dict_get id (procs s) = Some (Awaiting mi (Ret r)) ->
  key_inv (proc_end id (complete_task id now r (tasks s) ?? tasks s) s) id.
Proof.
  intros (Ht & Hp & Hk) Hs. destruct (Hk id) as (Hi & Hr & _ & Haw). rewrite Hs in Hr.
  destruct (budget_ok_ret _ _ (Haw _ _ Hs)) as (n & -> & Hn & Hb).
  unfold key_inv, dict_mem in *. simpl_sys. unfold complete_task, complete_updates.
  rewrite dict_get_modify_seq_or, dict_get_del, String.eqb_refl by exact Hp.
  destruct (dict_get id (tasks s)) as [t|] eqn:Et; cbn [option_map];
    [|split; [intros [H|H]; discriminate|split; [discriminate|split; intros; discriminate]]].
  destruct (record_ok_awaiting _ _ _ _ (Hr t eq_refl)) as (Hid & Hst & He & Hit).
  split; [intros _; apply Hi; now left|]. split; [|split; intros; discriminate].
  intros t' [= <-]. unfold record_ok. cbn. split; [exact Hid|].
  destruct (Agent.success r) eqn:Hsucc; (split; [reflexivity|]).
  - destruct Hb as [(Hf & _)|(_ & Hi1 & Hx & Hh)]; [congruence|].
    split; [exact He|]. exists (iterations r), (Agent.history r), (Agent.execution_log r). repeat split; auto; lia.
  - right. split; [exact He|]. destruct Hb as [(_ & Hit' & _)|(Hs' & _)]; [|congruence].
    exists (iterations r). split; [reflexivity|lia].
Qed.

Lemma key_inv_raise s id mi e now :
  inv s -> dict_get id (procs s) = Some (Awaiting mi (Throw e)) ->
  key_inv (proc_end id (fail_task id now e (tasks s) ?? tasks s) s) id.
Proof.
  intros (Ht & Hp & Hk) Hs. destruct (Hk id) as (Hi & Hr & _ & _). rewrite Hs in Hr.
  unfold key_inv, dict_mem in *. simpl_sys. unfold fail_task, fail_updates.
  rewrite dict_get_modify_seq_or, dict_get_del, String.eqb_refl by exact Hp.
  destruct (dict_get id (tasks s)) as [t|] eqn:Et; cbn [option_map];
    [|split; [intros [H|H]; discriminate|split; [discriminate|split; intros; discriminate]]].
  destruct (record_ok_awaiting _ _ _ _ (Hr t eq_refl)) as (Hid & Hst & He & Hit).
  split; [intros _; apply Hi; now left|]. split; [|split; intros; discriminate].
  intros t' [= <-]. unfold record_ok. cbn. split; [exact Hid|]. split; [reflexivity|].
  left. split; [eauto|exact Hit].
Qed.

Lemma inv_init : inv init.
Proof. split; [constructor|split; [constructor|]]. intros k. apply key_inv_gone; reflexivity. Qed.

Lemma inv_step s l s' : inv s -> step s l s' -> inv s'.
Proof.
  intros Hinv Hs. pose proof Hinv as (Ht & Hp & Hk).
  destruct (step_wf _ _ _ Ht Hp Hs) as [Ht' Hp']. split; [exact Ht'|split; [exact Hp'|]].
  intros k. destruct (String.eqb_spec k (label_id l)) as [->|Hne].
  - destruct Hs; cbn [label_id].
    + now apply key_inv_submit.
    + now apply key_inv_delete.
    + now apply key_inv_start.
    + now apply key_inv_log.
    + now apply key_inv_await with p.
    + now apply key_inv_return with mi.
    + now apply key_inv_raise with mi.
  - destruct (step_frame _ _ _ k Ht Hp Hs Hne) as (H1 & H2 & H3). eapply key_inv_frame; eauto.
Qed.

Lemma inv_reachable_gen s : reachable s -> inv s.
Proof. induction 1; [apply inv_init|eapply inv_step; eauto]. Qed.

(** Runs of several steps. *)
Inductive steps : Sys -> list Label -> Sys -> Prop :=
| steps_nil s : steps s [] s
| steps_cons s l s1 ls s2 : step s l s1 -> steps s1 ls s2 -> steps s (l :: ls) s2.

Lemma reachable_steps s ls s' : reachable s -> steps s ls s' -> reachable s'.
Proof. intros Hr Hs. induction Hs; eauto using reachable. Qed.

Lemma record_of_reachable s k t :
  reachable s -> get_task_status k s = inr t -> record_ok k t (dict_get k (procs s)).
Proof.
  intros Hr Hg. unfold get_task_status in Hg. destruct (dict_get k (tasks s)) as [t0|] eqn:E; [|discriminate].
  injection Hg as ->. destruct (inv_reachable_gen _ Hr) as (_ & _ & Hk). exact (proj1 (proj2 (Hk k)) t E).
Qed.

Lemma issued_of_inv s k t : inv s -> dict_get k (tasks s) = Some t -> In k (issued s).
Proof. intros (_ & _ & Hk) E. apply (proj1 (Hk k)). left. unfold dict_mem. now rewrite E. Qed.

(** How the stepping task's own record can change. *)
Lemma step_own_record s l s' t t' :
  inv s -> step s l s' -> dict_get (label_id l) (tasks s) = Some t -> dict_get (label_id l) (tasks s') = Some t' ->
  t' = t \/
  (status t = Pending /\ exists now, t' = apply_seq (start_updates now) t) \/
  (status t = Running /\ exists now lvl msg, t' = add_log now lvl msg t) \/
  (status t = Running /\ exists now r, t' = apply_seq (complete_updates now r) t) \/
  (status t = Running /\ exists now e, t' = apply_seq (fail_updates now e) t).
Proof.
  intros Hinv Hs Et Et'. pose proof Hinv as (Ht & Hp & Hk).
  destruct Hs; cbn [label_id] in *; destruct (Hk id) as (_ & Hr & _ & _).
  - exfalso. eauto using issued_of_inv.
  - unfold delete_task in Et'. destruct (dict_mem id (tasks s)); simpl_sys; [|left; congruence].
    rewrite dict_get_del, String.eqb_refl in Et' by exact Ht. discriminate.
  - rewrite H in Hr. pose proof (record_ok_scheduled _ _ _ _ (Hr t Et)) as Hst.
    unfold start_step, start_task in Et'. destruct (dict_modify_seq _ _ _) as [d|] eqn:E; simpl_sys; [|left; congruence].
    unfold start_updates in E. rewrite (dict_get_modify_seq _ _ _ _ _ _ E), String.eqb_refl, Et in Et'.
    injection Et' as <-. right; left. eauto.
  - rewrite H in Hr. destruct (record_ok_awaiting _ _ _ _ (Hr t Et)) as (_ & Hst & _).
    destruct (log_step_eq id mi lvl msg k now s) as [r ->] in Et'. simpl_sys.
    rewrite dict_get_modify_seq_or, String.eqb_refl, Et in Et'. injection Et' as <-. do 2 right; left. eauto 6.
  - left. simpl_sys. congruence.
  - rewrite H in Hr. destruct (record_ok_awaiting _ _ _ _ (Hr t Et)) as (_ & Hst & _).
    simpl_sys. unfold complete_task, complete_updates in Et'.
    rewrite dict_get_modify_seq_or, String.eqb_refl, Et in Et'. injection Et' as <-. do 3 right; left. eauto 6.
  - rewrite H in Hr. destruct (record_ok_awaiting _ _ _ _ (Hr t Et)) as (_ & Hst & _).
    simpl_sys. unfold fail_task, fail_updates in Et'.
    rewrite dict_get_modify_seq_or, String.eqb_refl, Et in Et'. injection Et' as <-. do 4 right. eauto 6.
Qed.

(** A deleted id never comes back: only a fresh [uuid4] value is inserted,
    and every write of the background coroutine to a missing key raises. *)
Lemma step_keeps_deleted s l s' k :
  inv s -> In k (issued s) -> dict_get k (tasks s) = None -> step s l s' ->
  dict_get k (tasks s') = None /\ In k (issued s').
Proof.
  intros Hinv Hi Hn Hs. pose proof Hinv as (Ht & Hp & _).
  destruct (String.eqb_spec k (label_id l)) as [->|Hne];
    [|destruct (step_frame _ _ _ _ Ht Hp Hs Hne) as (H1 & _ & H3); split; [congruence|auto]].
  destruct Hs; cbn [label_id] in *; simpl_sys.
  - contradiction.
  - unfold delete_task. destruct (dict_mem id (tasks s)); simpl_sys; auto.
    rewrite dict_get_del, String.eqb_refl by exact Ht. auto.
  - unfold start_step, start_task. destruct (dict_modify_seq _ _ _) as [d|] eqn:E; simpl_sys; [|auto].
    unfold start_updates in E. rewrite (dict_get_modify_seq _ _ _ _ _ _ E), String.eqb_refl, Hn. auto.
  - destruct (log_step_eq id mi lvl msg k now s) as [r ->]. simpl_sys.
    rewrite dict_get_modify_seq_or, String.eqb_refl, Hn. auto.
  - auto.
  - unfold complete_task, complete_updates. rewrite dict_get_modify_seq_or, String.eqb_refl, Hn. auto.
  - unfold fail_task, fail_updates. rewrite dict_get_modify_seq_or, String.eqb_refl, Hn. auto.
Qed.

Lemma action_step_sound a s s' : action_step a s = Some s' -> step s (action_label a) s'.
Proof.
  destruct a as [id req|id|id now ans]; cbn [action_step action_label].
  - destruct (existsb (String.eqb id) (issued s)) eqn:Hf; [discriminate|].
    destruct (request_valid req) eqn:Hv; [|discriminate]. intros [= <-]. constructor; [|exact Hv].
    intros Hin. assert (existsb (String.eqb id) (issued s) = true) by (apply existsb_exists; exists id; auto using String.eqb_refl).
    congruence.
  - intros [= <-]. constructor.
  - unfold proc_action. destruct (dict_get id (procs s)) as [[g mi|mi p]|] eqn:E; [intros [= <-]; now constructor| |discriminate].
    destruct p, ans; try discriminate; intros [= <-]; eauto using step, await_step.
Qed.

Lemma run_actions_steps s acts s' : run_actions s acts = Some s' -> steps s (List.map action_label acts) s'.
Proof.
  revert s. induction acts as [|a acts IH]; intros s; cbn [run_actions List.map]; [intros [= <-]; constructor|].
  destruct (action_step a s) as [s1|] eqn:E; [|discriminate]. intros H. econstructor; [apply action_step_sound, E|auto].
Qed.

(** The state a run reaches from the initial state. *)
Definition reach_of (acts : list Action) : Sys := run_actions init acts ?? init.

Lemma reach_of_reachable acts : reachable (reach_of acts).
Proof.
  unfold reach_of. destruct (run_actions init acts) as [s|] eqn:E; [|constructor].
  exact (reachable_steps _ _ _ reach_init (run_actions_steps _ _ _ E)).
Qed.

(** [o] is some value, checked without computing the value itself. *)
Lemma some_of {A} (o : option A) d : option_map (fun _ => tt) o = Some tt -> o = Some (o ?? d).
Proof. destruct o; cbn; congruence. Qed.

(** ** Properties of the server *)

(** C8: in every reachable state, a task's status says exactly what its
    background coroutine is doing: [pending] while it is scheduled and
    not started, [running] while it is inside [run_agent], and
    [completed] or [failed] once it has finished; the record's
    ["task_id"] is its key. *)
Theorem task_status_lifecycle s k t :
  reachable s -> get_task_status k s = inr t ->
  task_id t = k /\
  (status t = Pending <-> exists g mi, dict_get k (procs s) = Some (Scheduled g mi)) /\
  (status t = Running <-> exists mi p, dict_get k (procs s) = Some (Awaiting mi p)) /\
  (status t = Completed \/ status t = Failed <-> dict_get k (procs s) = None).
Proof.
  intros Hr Hg. destruct (record_of_reachable _ _ _ Hr Hg) as [Hid H]. split; [exact Hid|].
  destruct (status t); destruct H as [Hpr _];
    repeat split; intros H';
    repeat match goal with H : exists _, _ |- _ => destruct H | H : _ \/ _ |- _ => destruct H end;
    subst; try discriminate; try congruence; eauto.
Qed.

(** C14: a task reported [completed] holds the agent's final answer
    data: no error, [iterations_used] between 1 and 30 (the API's bound),
    an execution log no longer and a history shorter than that. *)
Theorem completed_task_bounds s k t :
  reachable s -> get_task_status k s = inr t -> status t = Completed ->
  error t = None /\
  exists n h x, iterations_used t = Some n /\ history t = Some h /\ execution_log t = Some x /\
                1 <= n <= 30 /\ length x <= n /\ length h < n.
Proof.
  intros Hr Hg Hst. destruct (record_of_reachable _ _ _ Hr Hg) as [_ H].
  rewrite Hst in H. destruct H as (_ & He & Hb). auto.
Qed.

(** C15: a task turns [failed] only at a step of its own coroutine, and
    for one of two causes.  Either [run_agent] raised [e]: the record then
    holds [str(e)] as its error and no iteration count.  Or the agent
    returned an unsuccessful result: the record then has no error, and
    its iteration count is the task's budget [n], between 5 and 30 (the
    agent gave up after its last iteration or at a fatal model error). *)
Theorem failed_task_cause s l s' k t t' :
  reachable s -> step s l s' -> dict_get k (tasks s) = Some t -> status t <> Failed ->
  dict_get k (tasks s') = Some t' -> status t' = Failed ->
  l = LProc k /\
  ((exists mi e, dict_get k (procs s) = Some (Awaiting mi (Throw e)) /\
                 error t' = Some e /\ iterations_used t' = None) \/
   (exists n r, dict_get k (procs s) = Some (Awaiting (Some n) (Ret r)) /\ Agent.success r = false /\
                error t' = None /\ iterations_used t' = Some n /\ 5 <= n <= 30)).
Proof.
  intros Hr Hs Et Hnf Et' Hf. pose proof (inv_reachable_gen _ Hr) as Hinv. pose proof Hinv as (Ht & Hp & Hk).
  destruct (String.eqb_spec k (label_id l)) as [->|Hne];
    [|destruct (step_frame _ _ _ _ Ht Hp Hs Hne) as (H1 & _); congruence].
  destruct (Hk (label_id l)) as (_ & Hrec & _ & Hbud). specialize (Hrec t Et).
  destruct Hs; cbn [label_id] in *; simpl_sys.
  - exfalso. eauto using issued_of_inv.
  - exfalso. unfold delete_task in Et'. destruct (dict_mem id (tasks s)); simpl_sys; [|congruence].
    rewrite dict_get_del, String.eqb_refl in Et' by exact Ht. discriminate.
  - exfalso. unfold start_step, start_task in Et'. destruct (dict_modify_seq _ _ _) as [d|] eqn:E; simpl_sys; [|congruence].
    unfold start_updates in E. rewrite (dict_get_modify_seq _ _ _ _ _ _ E), String.eqb_refl, Et in Et'.
    injection Et' as <-. discriminate.
  - exfalso. destruct (log_step_eq id mi lvl msg k now s) as [r ->] in Et'. simpl_sys.
    rewrite dict_get_modify_seq_or, String.eqb_refl, Et in Et'. injection Et' as <-. contradiction.
  - exfalso. congruence.
  - split; [reflexivity|right]. rewrite H in Hrec. destruct (record_ok_awaiting _ _ _ _ Hrec) as (_ & _ & He & _).
    destruct (budget_ok_ret _ _ (Hbud _ _ H)) as (n & -> & Hn & Hb).
    unfold complete_task, complete_updates in Et'. rewrite dict_get_modify_seq_or, String.eqb_refl, Et in Et'.
    injection Et' as <-. cbn in Hf |- *. destruct (Agent.success r) eqn:Es; [discriminate|].
    destruct Hb as [(_ & Hi & _)|(Hs' & _)]; [|congruence].
    exists n, r. rewrite Hi. auto.
  - split; [reflexivity|left]. rewrite H in Hrec. destruct (record_ok_awaiting _ _ _ _ Hrec) as (_ & _ & _ & Hi).
    unfold fail_task, fail_updates in Et'. rewrite dict_get_modify_seq_or, String.eqb_refl, Et in Et'.
    injection Et' as <-. exists mi, e. cbn. auto.
Qed.

(** C11: single writer per key: along any run in which neither the
    coroutine of task [k] nor a request naming [k] takes a step, the
    record and the coroutine of [k] are left untouched, whatever the
    other tasks and requests do. *)
Theorem other_tasks_untouched s ls s' k :
  reachable s -> steps s ls s' -> Forall (fun l => label_id l <> k) ls ->
  dict_get k (tasks s') = dict_get k (tasks s) /\ dict_get k (procs s') = dict_get k (procs s).
Proof.
  intros Hr Hs. induction Hs as [s|s l s1 ls s2 Hst _ IH]; intros Hall; [auto|].
  inversion Hall as [|? ? Hl Hls]; subst.
  destruct (inv_reachable_gen _ Hr) as (Ht & Hp & _).
  destruct (step_frame _ _ _ k Ht Hp Hst (not_eq_sym Hl)) as (H1 & H2 & _).
  destruct (IH (reach_step _ _ _ Hr Hst) Hls) as [H3 H4]. split; congruence.
Qed.

(** C12: once deleted, a task id never comes back: every later write of
    its still-running coroutine raises [KeyError] instead of recreating
    the record, and [uuid4] never hands the id out again. *)
Theorem deleted_task_stays_deleted s ls s' k :
  reachable s -> In k (issued s) -> dict_get k (tasks s) = None -> steps s ls s' ->
  dict_get k (tasks s') = None.
Proof.
  intros Hr Hi Hn Hs. revert Hr Hi Hn. induction Hs as [s|s l s1 ls s2 Hst _ IH]; intros Hr Hi Hn; [exact Hn|].
  destruct (step_keeps_deleted _ _ _ _ (inv_reachable_gen _ Hr) Hi Hn Hst) as [Hn1 Hi1].
  exact (IH (reach_step _ _ _ Hr Hst) Hi1 Hn1).
Qed.

(** C13: a finished task's record is final: no step changes a
    [completed] or [failed] record, only a [DELETE] of its id removes it. *)
Theorem finished_task_frozen s l s' k t :
  reachable s -> step s l s' -> dict_get k (tasks s) = Some t ->
  status t = Completed \/ status t = Failed ->
  dict_get k (tasks s') = Some t \/ (l = LDelete k /\ dict_get k (tasks s') = None).
Proof.
  intros Hr Hs Et Hst. pose proof (inv_reachable_gen _ Hr) as Hinv. pose proof Hinv as (Ht & Hp & Hk).
  destruct (String.eqb_spec k (label_id l)) as [->|Hne];
    [|left; destruct (step_frame _ _ _ _ Ht Hp Hs Hne) as (H1 & _); congruence].
  destruct (Hk (label_id l)) as (_ & Hr' & _). destruct (Hr' t Et) as [_ Hrec].
  assert (Hnone : dict_get (label_id l) (procs s) = None) by (destruct Hst as [Hc|Hc]; rewrite Hc in Hrec; apply Hrec).
  destruct Hs; cbn [label_id] in *; try congruence.
  - exfalso. eauto using issued_of_inv.
  - unfold delete_task. destruct (dict_mem id (tasks s)); simpl_sys; [|auto].
    right. split; [reflexivity|]. now rewrite dict_get_del, String.eqb_refl.
Qed.

(** C16: a task's ["logs"] only grow while it lives, and its status only
    moves forward through [pending], [running] and a final status. *)
Theorem task_logs_and_status_monotone s l s' k t t' :
  reachable s -> step s l s' -> dict_get k (tasks s) = Some t -> dict_get k (tasks s') = Some t' ->
  (exists ext, logs t' = logs t ++ ext) /\ status_rank (status t) <= status_rank (status t').
Proof.
  intros Hr Hs Et Et'. pose proof (inv_reachable_gen _ Hr) as Hinv. pose proof Hinv as (Ht & Hp & Hk).
  destruct (String.eqb_spec k (label_id l)) as [->|Hne].
  - destruct (Hk (label_id l)) as (_ & Hrec & _).
    destruct (step_own_record _ _ _ _ _ Hinv Hs Et Et')
      as [->|[(Hst & now & ->)|[(Hst & now & lvl & msg & ->)|[(Hst & now & r & ->)|(Hst & now & e & ->)]]]];
      [split; [exists []; now rewrite app_nil_r|lia]|..]; cbn; rewrite ?Hst.
    + destruct (Hrec t Et) as [_ H]. rewrite Hst in H. destruct H as (_ & Hl & _).
      rewrite Hl. split; [exists []; reflexivity|cbn; lia].
    + split; [eauto|lia].
    + split; [exists []; now rewrite app_nil_r|]. destruct (Agent.success r); cbn; lia.
    + split; [exists []; now rewrite app_nil_r|cbn; lia].
  - destruct (step_frame _ _ _ _ Ht Hp Hs Hne) as (H1 & _). rewrite H1, Et in Et'. injection Et' as <-.
    split; [exists []; now rewrite app_nil_r|lia].
Qed.

(** ** Properties of the handlers *)

(** C28: [POST /automate] with a fresh id answers [pending] with the
    status URL of the id; a poll of the id then returns a record with the
    request's goal, status [pending], every result field null and no
    logs; the record is listed after all the earlier ones (dict insertion
    order); every other poll is unchanged; and the background coroutine
    is scheduled with the request's goal and budget. *)
Theorem submit_then_poll s id req :
  dict_mem id (tasks s) = false ->
  let s' := snd (create_automation_task id req s) in
  fst (create_automation_task id req s) =
    {| resp_task_id := id; resp_status := "pending";
       resp_message := "Task submitted successfully. Check status at /task/" +++ id |} /\
  (exists t, get_task_status id s' = inr t /\
     task_id t = id /\ goal t = req_goal req /\ status t = Pending /\ result t = None /\ error t = None /\
     started_at t = None /\ completed_at t = None /\ iterations_used t = None /\ history t = None /\
     execution_log t = None /\ logs t = [] /\
     dict_values (tasks s') = dict_values (tasks s) ++ [t]) /\
  (forall k, k <> id -> get_task_status k s' = get_task_status k s) /\
  dict_get id (procs s') = Some (Scheduled (req_goal req) (option_map Z.to_nat (max_iterations req))).
Proof.
  intros Hm s'. subst s'. unfold create_automation_task, get_task_status. simpl_sys.
  rewrite !dict_get_set, String.eqb_refl. split; [reflexivity|split; [|split]].
  - eexists. split; [reflexivity|]. do 11 (split; [reflexivity|]).
    unfold dict_set, dict_values. rewrite Hm. apply List.map_app.
  - intros k Hk. rewrite dict_get_set. apply String.eqb_neq in Hk. rewrite String.eqb_sym in Hk. now rewrite Hk.
  - reflexivity.
Qed.

(** C29: [DELETE /task/{id}] of a listed task removes exactly that task,
    after which a poll of the id is a 404; of an unknown id it is a 404. *)
Theorem delete_then_poll s id :
  reachable s ->
  match delete_task id s with
  | inl e => e = not_found /\ get_task_status id s = inl not_found
  | inr (msg, s') => msg = "Task deleted successfully" /\ get_task_status id s' = inl not_found /\
                     forall k, k <> id -> get_task_status k s' = get_task_status k s
  end.
Proof.
  intros Hr. destruct (inv_reachable_gen _ Hr) as (Ht & _ & _).
  unfold delete_task, get_task_status. destruct (dict_mem id (tasks s)) eqn:Hm; simpl_sys.
  - split; [reflexivity|]. rewrite dict_get_del, String.eqb_refl by exact Ht. split; [reflexivity|].
    intros k Hk. rewrite dict_get_del by exact Ht. now rewrite (proj2 (String.eqb_neq id k) (not_eq_sym Hk)).
  - apply dict_mem_false in Hm. now rewrite Hm.
Qed.

(** C30: [GET /tasks?limit=n] shows [n] or fewer tasks and says so when
    [n >= 0]; a negative [limit] is a Python slice from the end: the list
    drops the last [-n] tasks and ["showing"] is [n] itself. *)
Theorem list_tasks_limit limit st s :
  ((0 <= limit)%Z -> showing (list_tasks limit st s) = Z.of_nat (length (listed (list_tasks limit st s)))) /\
  ((limit < 0)%Z -> showing (list_tasks limit st s) = limit /\
                    length (listed (list_tasks limit st s)) = total (list_tasks limit st s) - Z.to_nat (- limit)).
Proof.
  unfold list_tasks, py_slice_to. cbn [showing listed total].
  match goal with |- context [firstn _ ?f] => generalize f end. intros f.
  split; intros Hl.
  - replace (0 <=? limit)%Z with true by (symmetry; now apply Z.leb_le).
    rewrite length_firstn, Nat2Z.inj_min, Z2Nat.id by exact Hl. lia.
  - replace (0 <=? limit)%Z with false by (symmetry; apply Z.leb_gt; lia).
    rewrite length_firstn. split; lia.
Qed.

(** C31: [GET /health]'s four per-status counts add up to its
    [tasks_count]: every record has one of the four statuses. *)
Theorem health_counts_sum key s :
  n_pending (health_check key s) + n_running (health_check key s) +
  n_completed (health_check key s) + n_failed (health_check key s) = tasks_count (health_check key s).
Proof.
  unfold health_check, count_status, dict_values. cbn [n_pending n_running n_completed n_failed tasks_count].
  induction (tasks s) as [|[k t] d IH]; [reflexivity|].
  cbn [List.map List.filter length snd]. destruct (status t); simpl; lia.
Qed.

(** *** A null budget *)

(** The coroutine of a task submitted with [max_iterations: null]. *)
Definition null_budget (pr : option Proc) : Prop :=
  match pr with None => True | Some (Scheduled _ mi) | Some (Awaiting mi _) => mi = None end.

(** What such a task's record can say. *)
Definition never_completed (t : TaskRecord) : Prop :=
  status t <> Completed /\ (status t = Failed -> iterations_used t = None /\ exists e, error t = Some e).

Definition null_task (id : string) (s : Sys) : Prop :=
  inv s /\ In id (issued s) /\ null_budget (dict_get id (procs s)) /\
  forall t, dict_get id (tasks s) = Some t -> never_completed t.

Lemma null_task_step id s l s' : null_task id s -> step s l s' -> null_task id s'.
Proof.
  intros (Hinv & Hi & Hn & Hc) Hs. pose proof Hinv as (Ht & Hp & Hk). split; [exact (inv_step _ _ _ Hinv Hs)|].
  destruct (String.eqb_spec id (label_id l)) as [->|Hne];
    [|destruct (step_frame _ _ _ _ Ht Hp Hs Hne) as (H1 & H2 & H3); rewrite H1, H2; auto].
  destruct (Hk (label_id l)) as (_ & Hrec & _ & Hbud).
  destruct Hs; cbn [label_id] in *; simpl_sys.
  - contradiction.
  - unfold delete_task. destruct (dict_mem id (tasks s)); simpl_sys; [|auto].
    split; [exact Hi|split; [exact Hn|]]. rewrite dict_get_del, String.eqb_refl by exact Ht. discriminate.
  - rewrite H in Hn. cbn in Hn. subst mi. unfold start_step, start_task.
    destruct (dict_modify_seq _ _ _) as [d|] eqn:E; simpl_sys.
    + split; [exact Hi|]. rewrite dict_get_set, String.eqb_refl. split; [reflexivity|].
      unfold start_updates in E. rewrite (dict_get_modify_seq _ _ _ _ _ _ E), String.eqb_refl.
      destruct (dict_get id (tasks s)); [|discriminate]. intros t' [= <-]. split; discriminate.
    + split; [exact Hi|]. rewrite dict_get_del, String.eqb_refl by exact Hp. split; [exact I|exact Hc].
  - rewrite H in Hn. cbn in Hn. destruct (log_step_eq id mi lvl msg k now s) as [r ->]. simpl_sys.
    split; [exact Hi|]. rewrite dict_get_set, String.eqb_refl. split; [exact Hn|].
    rewrite dict_get_modify_seq_or, String.eqb_refl. destruct (dict_get id (tasks s)) as [t|] eqn:Et; [|discriminate].
    intros t' [= <-]. exact (Hc t eq_refl).
  - rewrite H in Hn. split; [exact Hi|]. rewrite dict_get_set, String.eqb_refl. split; [exact Hn|exact Hc].
  - rewrite H in Hn. cbn in Hn. subst mi. destruct (budget_ok_ret _ _ (Hbud _ _ H)) as (n & ? & _). discriminate.
  - split; [exact Hi|]. rewrite dict_get_del, String.eqb_refl by exact Hp. split; [exact I|].
    unfold fail_task, fail_updates. rewrite dict_get_modify_seq_or, String.eqb_refl.
    destruct (dict_get id (tasks s)) as [t|] eqn:Et; [|discriminate]. intros t' [= <-].
    rewrite H in Hrec. destruct (record_ok_awaiting _ _ _ _ (Hrec t eq_refl)) as (_ & _ & _ & Hit).
    split; [discriminate|intros _; cbn; eauto].
Qed.

Lemma null_task_steps id s ls s' : steps s ls s' -> null_task id s -> null_task id s'.
Proof. induction 1; eauto using null_task_step. Qed.

(** C27: the API accepts [max_iterations: null] (the [ge]/[le] bounds
    only constrain an [int]), and such a task can never complete: in
    every run after its submission, whatever the world answers, its
    record is [pending], [running] or [failed], and a failed one carries
    an exception and no iteration count ([range(None)] raises, so the
    agent never returns a result). *)
Theorem null_budget_fails s id req ls s' t :
  reachable s -> ~ In id (issued s) -> request_valid req = true -> max_iterations req = None ->
  steps (snd (create_automation_task id req s)) ls s' -> get_task_status id s' = inr t ->
  status t <> Completed /\ (status t = Failed -> iterations_used t = None /\ exists e, error t = Some e).
Proof.
  intros Hr Hfresh Hv Hnull Hs Hg. unfold get_task_status in Hg.
  destruct (dict_get id (tasks s')) as [t0|] eqn:E; [injection Hg as <-|discriminate].
  enough (Hq : null_task id s') by exact (proj2 (proj2 (proj2 Hq)) t0 E).
  apply (null_task_steps _ _ _ _ Hs).
  split; [exact (inv_reachable_gen _ (reach_step _ _ _ Hr (st_submit s id req Hfresh Hv)))|].
  unfold create_automation_task. simpl_sys. split; [now left|].
  rewrite !dict_get_set, String.eqb_refl, Hnull. split; [reflexivity|].
  intros t' [= <-]. split; discriminate.
Qed.


(** ** Witnesses *)

Section Witnesses.
Local Open Scope string_scope.

Definition req5 : AutomationRequest := {| req_goal := "Find the price of a MacBook"; max_iterations := Some 5%Z |}.

Definition submit_run : list Action := [ASubmit "t1" req5].

(** The model answers at once; the run completes. *)
Definition finish_run : list Action :=
  [ASubmit "t1" req5; AProc "t1" "T0" AnsNone; AProc "t1" "T1" AnsNone;
   AProc "t1" "T2" (AnsConnect (inr [navigate_tool])); AProc "t1" "T3" AnsNone; AProc "t1" "T4" AnsNone;
   AProc "t1" "T5" AnsNone; AProc "t1" "T6" (AnsGenerate (GenText "FINAL_ANSWER: $1,299.00"));
   AProc "t1" "T7" AnsNone; AProc "t1" "T8" AnsNone; AProc "t1" "T9" AnsNone; AProc "t1" "T10" AnsNone]%list.

(** The MCP server does not start; the run fails. *)
Definition fail_run : list Action :=
  [ASubmit "t2" req5; AProc "t2" "T0" AnsNone; AProc "t2" "T1" AnsNone;
   AProc "t2" "T2" (AnsConnect (inl "spawn npx ENOENT")); AProc "t2" "T3" AnsNone; AProc "t2" "T4" AnsNone]%list.

(** Task [t1] is deleted while its coroutine is connecting. *)
Definition delete_run : list Action :=
  [ASubmit "t1" req5; AProc "t1" "T0" AnsNone; AProc "t1" "T1" AnsNone; ADelete "t1"]%list.

Definition after_delete : list Action :=
  [AProc "t1" "T2" (AnsConnect (inr [navigate_tool])); AProc "t1" "T3" AnsNone;
   AProc "t1" "T4" AnsNone; AProc "t1" "T5" AnsNone]%list.

Definition record_of (k : string) (s : Sys) : TaskRecord :=
  match get_task_status k s with inr t => t | inl _ => pending_record k "" end.

Lemma task_status_lifecycle_witness :
  task_id (record_of "t1" (reach_of submit_run)) = "t1" /\
  (status (record_of "t1" (reach_of submit_run)) = Pending <->
     exists g mi, dict_get "t1" (procs (reach_of submit_run)) = Some (Scheduled g mi)) /\
  (status (record_of "t1" (reach_of submit_run)) = Running <->
     exists mi p, dict_get "t1" (procs (reach_of submit_run)) = Some (Awaiting mi p)) /\
  (status (record_of "t1" (reach_of submit_run)) = Completed \/ status (record_of "t1" (reach_of submit_run)) = Failed <->
     dict_get "t1" (procs (reach_of submit_run)) = None).
Proof. apply task_status_lifecycle; [apply reach_of_reachable|vm_compute; reflexivity]. Defined.

Lemma completed_task_bounds_witness :
  error (record_of "t1" (reach_of finish_run)) = None /\
  exists n h x, iterations_used (record_of "t1" (reach_of finish_run)) = Some n /\
                history (record_of "t1" (reach_of finish_run)) = Some h /\
                execution_log (record_of "t1" (reach_of finish_run)) = Some x /\
                1 <= n <= 30 /\ length x <= n /\ length h < n.
Proof. apply (completed_task_bounds (reach_of finish_run) "t1"); [apply reach_of_reachable|vm_compute; reflexivity..]. Defined.

(** The last step of [fail_run]: the coroutine of [t2] raises. *)
Definition fail_before : Sys := reach_of (firstn 5 fail_run).
Definition fail_after : Sys := action_step (AProc "t2" "T4" AnsNone) fail_before ?? fail_before.

Lemma failed_task_cause_witness :
  LProc "t2" = LProc "t2" /\
  ((exists mi e, dict_get "t2" (procs fail_before) = Some (Awaiting mi (Throw e)) /\
                 error (record_of "t2" fail_after) = Some e /\ iterations_used (record_of "t2" fail_after) = None) \/
   (exists n r, dict_get "t2" (procs fail_before) = Some (Awaiting (Some n) (Ret r)) /\ Agent.success r = false /\
                error (record_of "t2" fail_after) = None /\ iterations_used (record_of "t2" fail_after) = Some n /\
                5 <= n <= 30)).
Proof.
  apply (failed_task_cause fail_before (LProc "t2") fail_after "t2" (record_of "t2" fail_before));
    [apply reach_of_reachable
    |apply (action_step_sound (AProc "t2" "T4" AnsNone)), some_of; vm_compute; reflexivity
    |vm_compute; reflexivity|vm_compute; discriminate|vm_compute; reflexivity|vm_compute; reflexivity].
Defined.

Definition two_tasks : list Action := [ASubmit "t1" req5; ASubmit "t2" req5]%list.
Definition t2_moves : list Action := [AProc "t2" "T0" AnsNone; AProc "t2" "T1" AnsNone]%list.

Lemma other_tasks_untouched_witness :
  dict_get "t1" (tasks (run_actions (reach_of two_tasks) t2_moves ?? reach_of two_tasks)) = dict_get "t1" (tasks (reach_of two_tasks)) /\
  dict_get "t1" (procs (run_actions (reach_of two_tasks) t2_moves ?? reach_of two_tasks)) = dict_get "t1" (procs (reach_of two_tasks)).
Proof.
  apply (other_tasks_untouched (reach_of two_tasks) (List.map action_label t2_moves)); [apply reach_of_reachable| |].
  - apply run_actions_steps, some_of. vm_compute. reflexivity.
  - repeat constructor; discriminate.
Defined.

Lemma deleted_task_stays_deleted_witness :
  dict_get "t1" (tasks (run_actions (reach_of delete_run) after_delete ?? reach_of delete_run)) = None.
Proof.
  apply (deleted_task_stays_deleted (reach_of delete_run) (List.map action_label after_delete));
    [apply reach_of_reachable|vm_compute; left; reflexivity|vm_compute; reflexivity|].
  apply run_actions_steps, some_of. vm_compute. reflexivity.
Defined.

Lemma finished_task_frozen_witness :
  dict_get "t1" (tasks (action_step (ASubmit "t3" req5) (reach_of finish_run) ?? reach_of finish_run)) =
    Some (record_of "t1" (reach_of finish_run)) \/
  (LSubmit "t3" = LDelete "t1" /\
   dict_get "t1" (tasks (action_step (ASubmit "t3" req5) (reach_of finish_run) ?? reach_of finish_run)) = None).
Proof.
  apply (finished_task_frozen (reach_of finish_run) (action_label (ASubmit "t3" req5))); [apply reach_of_reachable| | |].
  - apply action_step_sound, some_of. vm_compute. reflexivity.
  - vm_compute. reflexivity.
  - left. vm_compute. reflexivity.
Defined.

Definition started_run : list Action := [ASubmit "t1" req5; AProc "t1" "T0" AnsNone]%list.

Lemma task_logs_and_status_monotone_witness :
  (exists ext, logs (record_of "t1" (action_step (AProc "t1" "T1" AnsNone) (reach_of started_run) ?? reach_of started_run)) =
               logs (record_of "t1" (reach_of started_run)) ++ ext)%list /\
  status_rank (status (record_of "t1" (reach_of started_run))) <=
  status_rank (status (record_of "t1" (action_step (AProc "t1" "T1" AnsNone) (reach_of started_run) ?? reach_of started_run))).
Proof.
  apply (task_logs_and_status_monotone (reach_of started_run) (action_label (AProc "t1" "T1" AnsNone))
           (action_step (AProc "t1" "T1" AnsNone) (reach_of started_run) ?? reach_of started_run) "t1");
    [apply reach_of_reachable| |vm_compute; reflexivity|vm_compute; reflexivity].
  apply action_step_sound, some_of. vm_compute. reflexivity.
Defined.

Lemma submit_then_poll_witness :
  let s' := snd (create_automation_task "t2" req5 (reach_of submit_run)) in
  fst (create_automation_task "t2" req5 (reach_of submit_run)) =
    {| resp_task_id := "t2"; resp_status := "pending";
       resp_message := "Task submitted successfully. Check status at /task/" +++ "t2" |} /\
  (exists t, get_task_status "t2" s' = inr t /\
     task_id t = "t2" /\ goal t = req_goal req5 /\ status t = Pending /\ result t = None /\ error t = None /\
     started_at t = None /\ completed_at t = None /\ iterations_used t = None /\ history t = None /\
     execution_log t = None /\ logs t = [] /\
     dict_values (tasks s') = (dict_values (tasks (reach_of submit_run)) ++ [t])%list) /\
  (forall k, k <> "t2" -> get_task_status k s' = get_task_status k (reach_of submit_run)) /\
  dict_get "t2" (procs s') = Some (Scheduled (req_goal req5) (option_map Z.to_nat (max_iterations req5))).
Proof. exact (submit_then_poll (reach_of submit_run) "t2" req5 ltac:(vm_compute; reflexivity)). Defined.

Lemma delete_then_poll_witness :
  match delete_task "t1" (reach_of submit_run) with
  | inl e => e = not_found /\ get_task_status "t1" (reach_of submit_run) = inl not_found
  | inr (msg, s') => msg = "Task deleted successfully" /\ get_task_status "t1" s' = inl not_found /\
                     forall k, k <> "t1" -> get_task_status k s' = get_task_status k (reach_of submit_run)
  end.
Proof. apply delete_then_poll, reach_of_reachable. Defined.

(** A task submitted with [max_iterations: null] runs until [range(None)]. *)
Definition req_null : AutomationRequest := {| req_goal := "Find the price of a MacBook"; max_iterations := None |}.

Definition null_run : list Action :=
  [AProc "t9" "T0" AnsNone; AProc "t9" "T1" AnsNone; AProc "t9" "T2" (AnsConnect (inr [navigate_tool]));
   AProc "t9" "T3" AnsNone; AProc "t9" "T4" AnsNone; AProc "t9" "T5" AnsNone; AProc "t9" "T6" AnsNone]%list.

Definition null_after : Sys := run_actions (snd (create_automation_task "t9" req_null init)) null_run ?? init.

Lemma null_budget_fails_witness :
  status (record_of "t9" null_after) <> Completed /\
  (status (record_of "t9" null_after) = Failed ->
   iterations_used (record_of "t9" null_after) = None /\ exists e, error (record_of "t9" null_after) = Some e).
Proof.
  apply (null_budget_fails init "t9" req_null (List.map action_label null_run) null_after);
    [constructor|intros []|reflexivity|reflexivity| |vm_compute; reflexivity].
  apply run_actions_steps. apply some_of. vm_compute. reflexivity.
Defined.

Lemma null_run_fails : status (record_of "t9" null_after) = Failed /\ error (record_of "t9" null_after) = Some range_none_error.
Proof. vm_compute. split; reflexivity. Qed.

End Witnesses.

End TaskManager.
