(* ===== verification/Liveness.v ===== *)
(** * Termination and liveness of the background coroutines: src/main.py

    A task's coroutine [run_automation_task] (main.py 61-90) is in the
    server state as [Scheduled], then [Awaiting] inside the [prog] of
    [run_agent], then gone.  Every step of it moves it down a
    well-founded order: the [prog] tree of [Agent.run_agent] is finite
    on every branch, because its [for] loop has [max_iterations] passes
    and each pass ends in a bounded number of requests.  Steps of other
    tasks and the handlers leave it in place, and [create_automation_task]
    can schedule an id only once, since [uuid4] ids are fresh.

    The step count is also bounded: [steps_left] gives a scheduled
    coroutine of budget [n] at most [8 * n + 8] steps, one per request of
    [run_agent] ([Agent.run_agent_requests]) plus its start and its end
    ([coroutine_steps_bounded]).

    Runs are infinite sequences of states and labels ([is_run]).  While
    a coroutine exists it can always step ([enabled_iff]): a
    scheduler that does not starve it, in the sense of weak fairness
    ([fair_for], the event loop eventually resumes every ready
    coroutine and the world eventually answers every await), ends it,
    and its task is then [completed], [failed] or deleted
    ([fair_task_finishes]). *)

From Stdlib Require Import String List Lia Wellfounded.
From S2P Require Import Prelude Coercion Registry Prog Agent TaskManager.
Import ListNotations Coercion Registry Prog Agent TaskManager.
Local Open Scope agent_scope.

Module Liveness.

(** ** The order a coroutine descends *)

(** One request of a suspended [run_agent]: an await answered by the
    world, or a log call answered by [log_callback]. *)
Inductive prog_next : prog AgentResult -> prog AgentResult -> Prop :=
| next_await p p' : await_step p p' -> prog_next p' p
| next_log lvl msg k r : prog_next (k r) (Log lvl msg k).

(** A coroutine moves from scheduled to suspended to finished. *)
Inductive proc_lt : option Proc -> option Proc -> Prop :=
| lt_end pr : proc_lt None (Some pr)
| lt_start g mi mi' p : proc_lt (Some (Awaiting mi' p)) (Some (Scheduled g mi))
| lt_resume mi mi' p p' : prog_next p' p -> proc_lt (Some (Awaiting mi' p')) (Some (Awaiting mi p)).

(** What the server state says of id [k]: whether [uuid4] has returned
    it, and its coroutine. *)
Definition kstate (k : string) (s : Sys) : bool * option Proc :=
  (existsb (String.eqb k) (issued s), dict_get k (procs s)).

(** Lexicographic: issuing the id, then the coroutine's progress. *)
Definition kstate_lt (x y : bool * option Proc) : Prop :=
  (fst x = true /\ fst y = false) \/ (fst x = fst y /\ proc_lt (snd x) (snd y)).

(** ** Runs and fairness *)

Definition is_run (run : nat -> Sys) (lab : nat -> Label) : Prop :=
  forall n, step (run n) (lab n) (run (S n)).

(** The coroutine of [k] can take a step. *)
Definition enabled (k : string) (s : Sys) : Prop := exists s', step s (LProc k) s'.

(** Weak fairness for [k]: once its coroutine is ready, it is resumed or
    stops being ready. *)
Definition fair_for (k : string) (run : nat -> Sys) (lab : nat -> Label) : Prop :=
  forall n, enabled k (run n) -> exists m, n <= m /\ (~ enabled k (run m) \/ lab m = LProc k).

(** ** Descent along a sequence *)

Section Descent.
Context {A : Type} (R : A -> A -> Prop) (Rwf : well_founded R) (f : nat -> A).
Hypothesis f_mono : forall n, f (S n) = f n \/ R (f (S n)) (f n).

(** A sequence that never climbs and keeps being offered a descent
    reaches [Done]. *)
Lemma descent_reaches (Done : nat -> Prop) :
  (forall n, exists m, n <= m /\ (Done m \/ R (f (S m)) (f m))) ->
  forall n, exists m, n <= m /\ Done m.
Proof.
  intros Hoffer n. remember (f n) as a eqn:Ha. revert n Ha.
  induction a as [a IH] using (well_founded_induction Rwf). intros n Ha.
  destruct (Hoffer n) as (m & Hle & Hm).
  assert (Hup : forall n', n' <= m -> f n' = a -> exists m', n' <= m' /\ Done m').
  { intros n' Hle'. remember (m - n') as d eqn:Hd. revert n' Hle' Hd.
    induction d as [|d IHd]; intros n' Hle' Hd Hn'.
    - assert (n' = m) as -> by lia. destruct Hm as [Hd'|Hr]; [exists m; auto|].
      rewrite Hn' in Hr. destruct (IH _ Hr (S m) eq_refl) as (m' & ? & ?). exists m'. split; [lia|auto].
    - destruct (f_mono n') as [He|Hr].
      + destruct (IHd (S n')) as (m' & ? & ?); [lia|lia|congruence|]. exists m'. split; [lia|auto].
      + rewrite Hn' in Hr. destruct (IH _ Hr (S n') eq_refl) as (m' & ? & ?). exists m'. split; [lia|auto]. }
  destruct (Hup n Hle (eq_sym Ha)) as (m' & ? & ?). eauto.
Qed.

End Descent.

(** ** Well-foundedness *)

Lemma prog_next_wf : well_founded prog_next.
Proof.
  intros p. induction p as [r|e|lvl msg k IH|k IH|q k IH|n a k IH|secs k IH|k IH];
    constructor; intros p' Hn; inv Hn; try match goal with H : await_step _ _ |- _ => inv H end; auto.
Qed.

Lemma proc_lt_none : Acc proc_lt None.
Proof. constructor. intros y H. inv H. Qed.

Lemma proc_lt_awaiting mi p : Acc proc_lt (Some (Awaiting mi p)).
Proof.
  revert mi. induction p as [p IH] using (well_founded_induction prog_next_wf). intros mi.
  constructor. intros y H. inv H; auto using proc_lt_none.
Qed.

Lemma proc_lt_wf : well_founded proc_lt.
Proof.
  intros [[g mi|mi p]|]; auto using proc_lt_none, proc_lt_awaiting.
  constructor. intros y H. inv H; auto using proc_lt_none, proc_lt_awaiting.
Qed.

Lemma kstate_lt_wf : well_founded kstate_lt.
Proof.
  assert (Htrue : forall pr, Acc kstate_lt (true, pr)).
  { intros pr. induction pr as [pr IH] using (well_founded_induction proc_lt_wf).
    constructor. intros [b pr'] [[_ H]|[Hb H]]; cbn in *; [discriminate|subst; auto]. }
  intros [[|] pr]; [apply Htrue|].
  induction pr as [pr IH] using (well_founded_induction proc_lt_wf).
  constructor. intros [b pr'] [[Hb _]|[Hb H]]; cbn in *; subst; auto.
Qed.

(** ** How a step moves [kstate] *)

Lemma existsb_eqb_false k xs : ~ In k xs -> existsb (String.eqb k) xs = false.
Proof.
  intros Hn. apply Bool.not_true_iff_false. intros (x & Hx & He)%existsb_exists.
  apply String.eqb_eq in He. subst. contradiction.
Qed.

Lemma step_issued s l s' :
  step s l s' -> issued s' = match l with LSubmit id => id :: issued s | _ => issued s end.
Proof.
  intros Hs. destruct Hs; simpl_sys; try reflexivity.
  - unfold delete_task. now destruct (dict_mem id (tasks s)).
  - unfold start_step. now destruct (start_task id now (tasks s)).
  - destruct (log_step_eq id mi lvl msg k now s) as [r ->]. reflexivity.
Qed.

Lemma proc_end_get id d s : dict_wf (procs s) -> dict_get id (procs (proc_end id d s)) = None.
Proof. intros Hp. simpl_sys. rewrite dict_get_del by exact Hp. now rewrite String.eqb_refl. Qed.

Lemma proc_set_get id p d s : dict_get id (procs (proc_set id p d s)) = Some p.
Proof. simpl_sys. now rewrite dict_get_set, String.eqb_refl. Qed.

(** A step of [k]'s coroutine moves it down [proc_lt]. *)
Lemma step_proc_lt s k s' :
  dict_wf (procs s) -> step s (LProc k) s' -> proc_lt (dict_get k (procs s')) (dict_get k (procs s)).
Proof.
  intros Hp Hs. inv Hs; match goal with H : dict_get _ (procs s) = _ |- _ => rewrite H end.
  - unfold start_step. destruct (start_task k now (tasks s));
      [rewrite proc_set_get|rewrite proc_end_get by exact Hp]; constructor.
  - destruct (log_step_eq k mi lvl msg k0 now s) as [r ->]. rewrite proc_set_get. apply lt_resume, next_log.
  - rewrite proc_set_get. now apply lt_resume, next_await.
  - rewrite proc_end_get by exact Hp. constructor.
  - rewrite proc_end_get by exact Hp. constructor.
Qed.

(** A step of [k]'s coroutine lowers [kstate k]. *)
Lemma step_kstate_self s k s' : inv s -> step s (LProc k) s' -> kstate_lt (kstate k s') (kstate k s).
Proof.
  intros (_ & Hp & _) Hs. right. unfold kstate. cbn [fst snd].
  rewrite (step_issued _ _ _ Hs). split; [reflexivity|exact (step_proc_lt _ _ _ Hp Hs)].
Qed.

(** Every step keeps [kstate k] or lowers it; a step of [k] lowers it. *)
Lemma step_kstate s l s' k :
  inv s -> step s l s' ->
  (l = LProc k -> kstate_lt (kstate k s') (kstate k s)) /\
  (kstate k s' = kstate k s \/ kstate_lt (kstate k s') (kstate k s)).
Proof.
  intros Hi Hs. split; [intros ->; exact (step_kstate_self _ _ _ Hi Hs)|].
  destruct Hi as (Ht & Hp & _). pose proof (step_issued _ _ _ Hs) as Hiss. unfold kstate, kstate_lt. cbn [fst snd].
  destruct (String.eqb_spec k (label_id l)) as [->|Hne].
  - destruct l as [id|id|id]; cbn [label_id]; rewrite Hiss.
    + inv Hs. right. left. cbn [existsb]. rewrite String.eqb_refl. split; [reflexivity|now apply existsb_eqb_false].
    + inv Hs. left. unfold delete_task. now destruct (dict_mem id (tasks s)).
    + right. right. split; [reflexivity|exact (step_proc_lt _ _ _ Hp Hs)].
  - destruct (step_frame _ _ _ k Ht Hp Hs Hne) as (_ & -> & _).
    left. f_equal. rewrite Hiss. destruct l as [id|id|id]; try reflexivity.
    cbn [existsb label_id] in *. apply String.eqb_neq in Hne. now rewrite Hne.
Qed.

(** While [k]'s coroutine exists, it can step: whatever it awaits, the
    world has an answer, and a log call always returns. *)
Lemma enabled_iff k s : enabled k s <-> dict_get k (procs s) <> None.
Proof.
  split.
  - intros (s' & Hs). inv Hs; congruence.
  - destruct (dict_get k (procs s)) as [[g mi|mi p]|] eqn:E; intros Hne; [| |congruence].
    + eexists. eapply st_start with (now := ""%string). exact E.
    + destruct p as [r|e|lvl msg c|c|q c|n a c|secs c|c]; eexists.
      * eapply st_return with (now := ""%string). exact E.
      * eapply st_raise with (now := ""%string). exact E.
      * eapply st_log with (now := ""%string). exact E.
      * apply st_await with (mi := mi) (p := Connect c); [exact E|apply (aw_connect c (inl ""%string))].
      * apply st_await with (mi := mi) (p := Generate q c); [exact E|apply (aw_generate q c (GenError ""%string))].
      * apply st_await with (mi := mi) (p := CallTool n a c); [exact E|apply (aw_call n a c (inl (Raised ""%string)))].
      * apply st_await with (mi := mi) (p := Sleep secs c); [exact E|constructor].
      * apply st_await with (mi := mi) (p := Disconnect c); [exact E|constructor].
Qed.

Lemma run_reachable run lab n : reachable (run 0) -> is_run run lab -> reachable (run n).
Proof. intros H0 Hrun. induction n; [exact H0|]. eapply reach_step; [exact IHn|apply Hrun]. Qed.

Lemma run_inv run lab n : reachable (run 0) -> is_run run lab -> inv (run n).
Proof. intros H0 Hrun. exact (inv_reachable_gen _ (run_reachable _ _ n H0 Hrun)). Qed.

Lemma run_kstate_mono run lab k :
  reachable (run 0) -> is_run run lab ->
  forall n, kstate k (run (S n)) = kstate k (run n) \/ kstate_lt (kstate k (run (S n))) (kstate k (run n)).
Proof. intros H0 Hrun n. exact (proj2 (step_kstate _ _ _ k (run_inv _ _ n H0 Hrun) (Hrun n))). Qed.

(** A task whose coroutine is gone is [completed] or [failed]. *)
Lemma idle_task_finished s k t :
  reachable s -> dict_get k (procs s) = None -> get_task_status k s = inr t ->
  status t = Completed \/ status t = Failed.
Proof.
  intros Hr Hp Hg. destruct (record_of_reachable _ _ _ Hr Hg) as [_ H]. rewrite Hp in H.
  destruct (status t); auto; destruct H as [(? & ? & H) _]; discriminate.
Qed.

(** Fairness offers [k]'s coroutine a step whenever it still exists. *)
Lemma fair_offers run lab k :
  reachable (run 0) -> is_run run lab -> fair_for k run lab ->
  forall n, exists m, n <= m /\
    (dict_get k (procs (run m)) = None \/ kstate_lt (kstate k (run (S m))) (kstate k (run m))).
Proof.
  intros H0 Hrun Hfair n. destruct (dict_get k (procs (run n))) eqn:E; [|exists n; auto].
  destruct (Hfair n) as (m & Hle & [Hd|Hl]); [apply enabled_iff; congruence| |].
  - exists m. split; [exact Hle|left]. destruct (dict_get k (procs (run m))) eqn:Em; [|reflexivity].
    exfalso. apply Hd, enabled_iff. congruence.
  - exists m. split; [exact Hle|right]. pose proof (Hrun m) as Hs. rewrite Hl in Hs. exact (step_kstate_self _ _ _ (run_inv _ _ m H0 Hrun) Hs).
Qed.

(** ** Counting a coroutine's steps *)

Definition is_proc_of (k : string) (l : Label) : bool :=
  match l with LProc id => String.eqb id k | _ => false end.

(** The steps of [k]'s coroutine among the labels of a run. *)
Definition proc_steps (k : string) (ls : list Label) : nat := length (List.filter (is_proc_of k) ls).

(** [k]'s coroutine has at most [N] steps left: [8 * n + 8] when it is
    scheduled with budget [n], one for each request of the rest of its
    [prog] and one for its end when it is suspended, none once it is
    gone; its id cannot be scheduled again. *)
Definition steps_left (k : string) (s : Sys) (N : nat) : Prop :=
  In k (issued s) /\
  match dict_get k (procs s) with
  | None => True
  | Some (Scheduled _ mi) => 8 * (mi ?? 0) + 8 <= N
  | Some (Awaiting _ p) => 1 <= N /\ bounded (fun _ => 0) (N - 1) p
  end.

Lemma bounded_next (c : AgentResult -> nat) N p p' : bounded c N p -> prog_next p' p -> 1 <= N /\ bounded c (N - 1) p'.
Proof. intros Hb Hn. inv Hn; [match goal with H : await_step _ _ |- _ => inv H end|]; inv Hb; auto. Qed.

Lemma steps_left_step k s l s' N :
  inv s -> step s l s' -> steps_left k s N ->
  if is_proc_of k l then 1 <= N /\ steps_left k s' (N - 1) else steps_left k s' N.
Proof.
  intros Hinv Hs [Hi Hp]. pose proof Hinv as (Ht & Hpw & _).
  assert (Hi' : In k (issued s')) by (rewrite (step_issued _ _ _ Hs); destruct l; auto using in_cons).
  destruct (String.eqb_spec k (label_id l)) as [->|Hne].
  - destruct Hs; cbn [label_id is_proc_of] in *; rewrite ?String.eqb_refl.
    + contradiction.
    + split; [exact Hi'|]. unfold delete_task. now destruct (dict_mem id (tasks s)).
    + rewrite H in Hp. cbn in Hp. split; [lia|split; [exact Hi'|]]. unfold start_step.
      destruct (start_task id now (tasks s)); [rewrite proc_set_get|rewrite proc_end_get by exact Hpw; exact I].
      split; [lia|]. eapply bounded_mono; [|apply run_agent_opt_requests]. lia.
    + rewrite H in Hp. destruct Hp as [HN Hb]. destruct (log_step_eq id mi lvl msg k now s) as [r ->].
      destruct (bounded_next _ _ _ _ Hb (next_log lvl msg k r)) as [H1 H2].
      split; [lia|split; [exact Hi|]]. rewrite proc_set_get. split; [lia|]. exact H2.
    + rewrite H in Hp. destruct Hp as [HN Hb]. destruct (bounded_next _ _ _ _ Hb (next_await _ _ H0)) as [H1 H2].
      split; [lia|split; [exact Hi'|]]. rewrite proc_set_get. split; [lia|]. exact H2.
    + rewrite H in Hp. split; [lia|split; [exact Hi'|]]. now rewrite proc_end_get by exact Hpw.
    + rewrite H in Hp. split; [lia|split; [exact Hi'|]]. now rewrite proc_end_get by exact Hpw.
  - destruct (step_frame _ _ _ k Ht Hpw Hs Hne) as (_ & Hget & _).
    replace (is_proc_of k l) with false
      by (destruct l; cbn in *; auto; symmetry; apply String.eqb_neq; congruence).
    split; [exact Hi'|]. now rewrite Hget.
Qed.

Lemma steps_left_count k s ls s' N :
  reachable s -> steps s ls s' -> steps_left k s N -> proc_steps k ls <= N.
Proof.
  intros Hr Hs. revert Hr N. induction Hs as [s|s l s1 ls s2 Hst _ IH]; intros Hr N HN; [cbn; lia|].
  pose proof (steps_left_step _ _ _ _ N (inv_reachable_gen _ Hr) Hst HN) as H.
  unfold proc_steps. cbn [List.filter]. destruct (is_proc_of k l).
  - destruct H as [H1 H2]. specialize (IH (reach_step _ _ _ Hr Hst) _ H2). cbn [length]. unfold proc_steps in IH. lia.
  - exact (IH (reach_step _ _ _ Hr Hst) _ H).
Qed.

(** ** Properties *)

(** C10: a task's background coroutine takes at most [8 * n + 8] steps
    in any run, where [n] is its budget: its start, at most
    [8 * n + 6] requests of [run_agent], and its end; with the API's
    bound [n <= 30] that is at most 248 steps, however the world answers
    and whatever the other tasks and the handlers do. *)
Theorem coroutine_steps_bounded s ls s' k g n :
  reachable s -> dict_get k (procs s) = Some (Scheduled g (Some n)) -> steps s ls s' ->
  proc_steps k ls <= 8 * n + 8 /\ 8 * n + 8 <= 248.
Proof.
  intros Hr Hk Hs. destruct (inv_reachable_gen _ Hr) as (_ & _ & Hinv). destruct (Hinv k) as (Hiss & _ & Hmi & _).
  split.
  - apply (steps_left_count _ _ _ _ _ Hr Hs). split; [apply Hiss; right; unfold dict_mem; now rewrite Hk|].
    rewrite Hk. cbn. lia.
  - specialize (Hmi _ _ Hk). cbn in Hmi. lia.
Qed.

(** C9: liveness of the task lifecycle: under weak fairness for a task's
    coroutine (the event loop resumes it and the world answers its
    awaits), every infinite run from a reachable state reaches, after
    any point, a state where the coroutine is gone and the task, if it
    is still in [tasks], is [completed] or [failed]: a submitted task
    does not stay [pending] or [running] forever. *)
Theorem fair_task_finishes run lab k :
  reachable (run 0) -> is_run run lab -> fair_for k run lab ->
  forall n, exists m, n <= m /\ dict_get k (procs (run m)) = None /\
    forall t, get_task_status k (run m) = inr t -> status t = Completed \/ status t = Failed.
Proof.
  intros H0 Hrun Hfair n.
  destruct (descent_reaches kstate_lt kstate_lt_wf (fun n => kstate k (run n)) (run_kstate_mono run lab k H0 Hrun)
              (fun m => dict_get k (procs (run m)) = None) (fair_offers run lab k H0 Hrun Hfair) n) as (m & Hle & Hm).
  exists m. split; [exact Hle|split; [exact Hm|]].
  intros t. exact (idle_task_finished _ _ _ (run_reachable _ _ m H0 Hrun) Hm).
Qed.

(** ** Runs of the executable scheduler *)

Section Witnesses.

(** The run that performs [acts] and then repeats [idle]. *)
Definition run_of (acts : list Action) (n : nat) : Sys := reach_of (firstn n acts).

Definition lab_of (acts : list Action) (idle : Label) (n : nat) : Label :=
  match nth_error acts n with Some a => action_label a | None => idle end.

Lemma run_actions_app s xs ys :
  run_actions s (xs ++ ys) = match run_actions s xs with Some s' => run_actions s' ys | None => None end.
Proof. revert s. induction xs as [|a xs IH]; intros s; cbn; [reflexivity|]. destruct (action_step a s); auto. Qed.

Lemma run_of_is_run acts idle :
  option_map (fun _ => tt) (run_actions init acts) = Some tt ->
  step (reach_of acts) idle (reach_of acts) ->
  is_run (run_of acts) (lab_of acts idle).
Proof.
  intros Hok Hidle n. unfold run_of, lab_of. destruct (nth_error acts n) as [a|] eqn:E.
  - destruct (nth_error_split acts n E) as (l1 & l2 & -> & <-).
    replace (firstn (List.length l1) (l1 ++ a :: l2)) with l1 by (rewrite firstn_app, firstn_all, Nat.sub_diag; cbn; now rewrite app_nil_r).
    replace (firstn (S (List.length l1)) (l1 ++ a :: l2)) with (l1 ++ [a])
      by (rewrite firstn_app, firstn_all2 by lia; now replace (S (List.length l1) - List.length l1) with 1 by lia).
    rewrite run_actions_app in Hok. unfold reach_of. rewrite run_actions_app.
    destruct (run_actions init l1) as [s1|]; [|discriminate]. cbn in Hok |- *.
    destruct (action_step a s1) as [s2|] eqn:Ea; [|discriminate]. exact (action_step_sound _ _ _ Ea).
  - apply nth_error_None in E. rewrite !firstn_all2 by lia. exact Hidle.
Qed.

Lemma idle_delete s id : dict_mem id (tasks s) = false -> step s (LDelete id) s.
Proof. intros H. pose proof (st_delete s id) as Hs. unfold delete_task in Hs. now rewrite H in Hs. Qed.

Lemma none_of {A} (o : option A) : option_map (fun _ => tt) o = None -> o = None.
Proof. now destruct o. Qed.

(** A run whose coroutine for [k] has ended is fair for [k]. *)
Lemma fair_of_ended acts idle k :
  dict_get k (procs (reach_of acts)) = None -> fair_for k (run_of acts) (lab_of acts idle).
Proof.
  intros Hk n _. exists (Nat.max n (List.length acts)). split; [lia|left].
  rewrite enabled_iff. unfold run_of. rewrite firstn_all2 by lia. tauto.
Qed.

Lemma fair_task_finishes_witness :
  exists m, 0 <= m /\ dict_get "t1"%string (procs (run_of finish_run m)) = None /\
    forall t, get_task_status "t1"%string (run_of finish_run m) = inr t -> status t = Completed \/ status t = Failed.
Proof.
  refine (fair_task_finishes (run_of finish_run) (lab_of finish_run (LDelete "none"%string)) "t1"%string _ _ _ 0);
    [constructor| |].
  - apply run_of_is_run; [vm_compute; reflexivity|apply idle_delete; vm_compute; reflexivity].
  - apply fair_of_ended, none_of. vm_compute. reflexivity.
Defined.

Lemma coroutine_steps_bounded_witness :
  proc_steps "t1"%string (List.map action_label (tl finish_run)) <= 8 * 5 + 8 /\ 8 * 5 + 8 <= 248.
Proof.
  apply (coroutine_steps_bounded (reach_of submit_run) _ (run_actions (reach_of submit_run) (tl finish_run) ?? init)
           "t1"%string (req_goal req5));
    [apply reach_of_reachable|vm_compute; reflexivity|].
  apply run_actions_steps, some_of. vm_compute. reflexivity.
Defined.

End Witnesses.

End Liveness.
